(** * ZotTablet: the sync core, embedded and verified

  A shallow embedding of the parts of ZotTablet that move PDF attachments
  between the Zotero library and an external ("tablet") folder:

  - the batch executor [processInBatches] and the path / file helpers of the
    main module ([getFileExtension], [joinPath], [copyFile], [moveFile],
    [getFileModTime], [removeFile], [removeEmptyDirs]);
  - the sync manager: tag handling, the sync record kept in the attachment
    note, [isModified], [sendToTablet], [getFromTablet] and
    [checkModifications].

  JavaScript numbers that matter here are integral (millisecond time
  stamps, counters) and are modelled by [Z] or [nat]; exceptions are
  modelled by explicit result types; the host (Zotero items, the file
  system, the preference store) is an explicit world that the functions
  read and return. *)

From Stdlib Require Import ZArith Lia Bool List String Ascii.
From stdpp Require Import base option list gmap strings fin_maps pretty.
From Equations Require Import Equations.

Set Warnings "-register-all".

Local Open Scope string_scope.
Local Open Scope list_scope.

(** [inspect x] lets a definition match on [x] and keep the equation. *)
Definition inspect {A : Type} (x : A) : { y : A | x = y } := exist _ x eq_refl.

(** ** Constants ([content/constants.js]) *)

Module Constants.
Definition MODE_BACKGROUND : Z := 1.
Definition MODE_FOREGROUND : Z := 2.
Definition CONCURRENCY : Z := 3.
Definition MAX_RENAME_COUNTER : Z := 999.
Definition TITLE_TRUNCATE_LENGTH : Z := 50.
Definition ERROR_DISPLAY_LIMIT : Z := 5.
End Constants.

(** ** Small pieces of JavaScript *)

Module JS.

(** [a || b] on an optional string: [undefined] and the empty string are
    falsy. *)
Definition or_str (a : option string) (b : string) : string :=
  match a with
  | Some s => if String.eqb s "" then b else s
  | None => b
  end.

(** [a || d] on an optional integer: [undefined] and [0] are falsy. *)
Definition or_num (a : option Z) (d : Z) : Z :=
  match a with
  | Some z => if (z =? 0)%Z then d else z
  | None => d
  end.

(** [Array.prototype.slice(start, end)] on integral arguments: a negative
    index counts from the end, everything is clamped to the array. *)
Definition rel_index (len k : Z) : Z :=
  if (k <? 0)%Z then Z.max (len + k) 0 else Z.min k len.

Definition slice {A} (l : list A) (s e : Z) : list A :=
  let len := Z.of_nat (List.length l) in
  let k := rel_index len s in
  let fin := rel_index len e in
  take (Z.to_nat (fin - k)) (drop (Z.to_nat k) l).

End JS.

(** ** Operations that can throw, on an explicit state *)

(** What the modelled code throws. *)
Inductive Error : Type :=
| SourceFileNotFound          (* new Error('Source file not found') *)
| TooManyFiles                (* new Error('Too many files with same name') *)
| TypeError                   (* a property read or a call on a value that has none *)
| HostError (what : string).  (* an error raised by the host *)

Inductive Result (A : Type) : Type :=
| Ok (a : A)
| Throw (e : Error).
Arguments Ok {A} a.
Arguments Throw {A} e.

(** A computation on a state [S] that returns or throws; the state changes
  made before a throw stay. *)
Definition M (S A : Type) : Type := S -> Result A * S.

Definition ret {S A} (a : A) : M S A := fun s => (Ok a, s).

Definition bind {S A B} (m : M S A) (k : A -> M S B) : M S B :=
fun s =>
  match m s with
  | (Ok a, s') => k a s'
  | (Throw e, s') => (Throw e, s')
  end.

Definition throw {S A} (e : Error) : M S A := fun s => (Throw e, s).

Definition gets {S A} (f : S -> A) : M S A := fun s => (Ok (f s), s).

Definition modify {S} (f : S -> S) : M S unit := fun s => (Ok tt, f s).

(** [try { m } catch (e) { handler(e) }] *)
Definition try_catch {S A} (m : M S A) (handler : Error -> M S A) : M S A :=
fun s =>
  match m s with
  | (Ok a, s') => (Ok a, s')
  | (Throw e, s') => handler e s'
  end.

(** With these, [x ← m; k] is [bind m (fun x => k)]. *)
#[global] Instance M_bind {S} : MBind (M S) := fun A B k m => bind m k.
#[global] Instance M_ret {S} : MRet (M S) := fun A a => ret a.

(** The same for a result alone. *)
#[global] Instance Result_bind : MBind Result :=
  fun A B k r =>
    match r with
    | Ok a => k a
    | Throw e => Throw e
    end.

(** ** Strings as JavaScript uses them *)

Module Str.

Fixpoint sdrop (n : nat) (s : string) : string :=
  match n, s with
  | O, _ => s
  | S n', String _ s' => sdrop n' s'
  | S _, EmptyString => EmptyString
  end.

Fixpoint stake (n : nat) (s : string) : string :=
  match n, s with
  | O, _ => EmptyString
  | S n', String c s' => String c (stake n' s')
  | S _, EmptyString => EmptyString
  end.

(** [s.substring(a, b)]: both indices are clamped to the string and
    swapped when out of order. *)
Definition clamp (len k : Z) : Z := Z.max 0 (Z.min k len).

Definition substring (s : string) (a b : Z) : string :=
  let len := Z.of_nat (String.length s) in
  let a' := clamp len a in
  let b' := clamp len b in
  let lo := Z.min a' b' in
  let hi := Z.max a' b' in
  stake (Z.to_nat (hi - lo)) (sdrop (Z.to_nat lo) s).

(** [s.lastIndexOf(c)] for a one-character needle; [None] stands for -1. *)
Fixpoint lastIndexOf (c : ascii) (s : string) : option nat :=
  match s with
  | EmptyString => None
  | String a s' =>
      match lastIndexOf c s' with
      | Some k => Some (S k)
      | None => if Ascii.eqb a c then Some O else None
      end
  end.

Definition lower_ascii (c : ascii) : ascii :=
  let n := nat_of_ascii c in
  if (65 <=? n)%nat && (n <=? 90)%nat then ascii_of_nat (n + 32) else c.

(** [s.toLowerCase()] on the ASCII letters (strings are byte strings
    here). *)
Fixpoint toLowerCase (s : string) : string :=
  match s with
  | EmptyString => EmptyString
  | String c s' => String (lower_ascii c) (toLowerCase s')
  end.

(** The text before and after the first occurrence of [pat] in [s]. *)
Fixpoint split_at_first (pat s : string) : option (string * string) :=
  if String.prefix pat s then Some (EmptyString, sdrop (String.length pat) s)
  else
    match s with
    | EmptyString => None
    | String c s' =>
        match split_at_first pat s' with
        | Some (before, after) => Some (String c before, after)
        | None => None
        end
    end.

(** The replacement text of [String.prototype.replace] for a string
    pattern (ECMAScript GetSubstitution without captures): [$$] is a
    dollar, [$&] the match, [$`] the text before it, [$'] the text after
    it; any other [$] stays. *)
Fixpoint get_substitution (matched before after rep : string) : string :=
  match rep with
  | EmptyString => EmptyString
  | String ch tl =>
      if Ascii.eqb ch "$" then
        match tl with
        | EmptyString => String ch EmptyString
        | String c rest =>
            if Ascii.eqb c "$" then String "$" (get_substitution matched before after rest)
            else if Ascii.eqb c "&" then matched ++ get_substitution matched before after rest
            else if Ascii.eqb c "`" then before ++ get_substitution matched before after rest
            else if Ascii.eqb c "'" then after ++ get_substitution matched before after rest
            else String ch (get_substitution matched before after tl)
        end
      else String ch (get_substitution matched before after tl)
  end.

(** [s.replace(pat, rep)] with a string pattern: the first occurrence
    only. *)
Definition replace (s pat rep : string) : string :=
  match split_at_first pat s with
  | None => s
  | Some (before, after) =>
      before ++ get_substitution pat before after rep ++ after
  end.

Definition is_slash (c : ascii) : bool :=
  Ascii.eqb c "/" || Ascii.eqb c "\".

(** [s.replace(/[\/\\]+$/, '')] *)
Fixpoint strip_trailing_slashes (s : string) : string :=
  match s with
  | EmptyString => EmptyString
  | String c s' =>
      let r := strip_trailing_slashes s' in
      if String.eqb r "" && is_slash c then EmptyString else String c r
  end.

(** [s.replace(new RegExp(sep + '+', 'g'), sep)]: every run of the
    separator becomes one separator. *)
Fixpoint collapse (sep : ascii) (s : string) : string :=
  match s with
  | EmptyString => EmptyString
  | String a tl =>
      match tl with
      | String b _ =>
          if Ascii.eqb a sep && Ascii.eqb b sep then collapse sep tl
          else String a (collapse sep tl)
      | EmptyString => String a EmptyString
      end
  end.

(** [parts.join(sep)] *)
Fixpoint join (sep : string) (parts : list string) : string :=
  match parts with
  | [] => EmptyString
  | [p] => p
  | p :: rest => p ++ sep ++ join sep rest
  end.

Definition nonempty (s : string) : bool := negb (String.eqb s "").

Fixpoint contains (c : ascii) (s : string) : bool :=
  match s with
  | EmptyString => false
  | String a s' => Ascii.eqb a c || contains c s'
  end.

End Str.

(** ** The batch executor ([processInBatches]) *)

Module Batch.
Section Executor.

(** [Item] is what is processed, [R] the object a processor returns, [W]
    the world the processors act on. *)
Context {Item R W : Type}.

(** The two properties of an item read by the [catch] branch, in the world
    as it is then. *)
Variable attachmentFilename : Item -> W -> option string.
Variable name : Item -> W -> option string.

(** The entry of a processed item is [{ success: true, item, ...result }]:
    own properties [success] and [item] of the returned object, when it has
    them, replace the two defaults.  [result_success r] is the truthiness of
    an own [success] property of [r], [result_item r] an own [item]. *)
Variable result_success : R -> option bool.
Variable result_item : R -> option Item.

Inductive Entry : Type :=
| Done (success : bool) (item : Item) (result : R)
| Failed (item : Item) (error : Error) (filename : string).

Definition entry_success (e : Entry) : bool :=
  match e with
  | Done s _ _ => s
  | Failed _ _ _ => false
  end.

Definition entry_item (e : Entry) : Item :=
  match e with
  | Done _ i _ => i
  | Failed i _ _ => i
  end.

Definition Processor : Type := Item -> M W R.

(** The body of [chunk.map(async (item) => { try ... catch ... })]. *)
Definition wrap (processor : Processor) (item : Item) (w : W) : Entry * W :=
  match processor item w with
  | (Ok r, w') =>
      (Done (default true (result_success r)) (default item (result_item r)) r, w')
  | (Throw e, w') =>
      (Failed item e
         (JS.or_str (attachmentFilename item w') (JS.or_str (name item w') "unknown")), w')
  end.

(** [await Promise.all(chunk.map(...))]: the operations of one window, run
    here one after the other in item order, each to its end.  The code
    starts them together; operations that only read, or that write paths no
    other operation of the window tests, end the same way in both.  Two
    operations of one window that test and then write the same path are not
    followed through their interleavings. *)
Fixpoint run_chunk (processor : Processor) (chunk : list Item) (w : W)
  : list Entry * W :=
  match chunk with
  | [] => ([], w)
  | item :: rest =>
      let '(e, w1) := wrap processor item w in
      let '(es, w2) := run_chunk processor rest w1 in
      (e :: es, w2)
  end.

(** The accumulators of the executor; [progress] records the calls
    [onProgress(completed, items.length)] in order. *)
Record Acc : Type := mkAcc {
  successes : list Entry;
  errors : list Entry;
  completed : Z;
  progress : list (Z * Z)
}.

Definition acc0 : Acc := mkAcc [] [] 0 [].

(** [for (const result of results) { completed++; ... onProgress(...) }] *)
Fixpoint collect (results : list Entry) (total : Z) (a : Acc) : Acc :=
  match results with
  | [] => a
  | result :: rest =>
      let completed' := (completed a + 1)%Z in
      let a' :=
        if entry_success result
        then mkAcc (successes a ++ [result]) (errors a) completed'
                   (progress a ++ [(completed', total)])
        else mkAcc (successes a) (errors a ++ [result]) completed'
                   (progress a ++ [(completed', total)]) in
      collect rest total a'
  end.

(** [for (let i = 0; i < items.length; i += concurrency)]; [None] when the
    fuel runs out before the loop condition fails. *)
Fixpoint loop (fuel : nat) (processor : Processor) (items : list Item)
    (concurrency : Z) (i : Z) (a : Acc) (w : W) : option (Acc * W) :=
  match fuel with
  | O => None
  | S fuel' =>
      if (i <? Z.of_nat (List.length items))%Z then
        let chunk := JS.slice items i (i + concurrency) in
        let '(results, w') := run_chunk processor chunk w in
        loop fuel' processor items concurrency (i + concurrency)
             (collect results (Z.of_nat (List.length items)) a) w'
      else Some (a, w)
  end.

(** [options.concurrency || Constants.LIMITS.CONCURRENCY] *)
Definition effective_concurrency (concurrency : option Z) : Z :=
  JS.or_num concurrency Constants.CONCURRENCY.

Definition processInBatches_fuel (fuel : nat) (items : list Item)
    (processor : Processor) (concurrency : option Z) (w : W)
  : option (Acc * W) :=
  loop fuel processor items (effective_concurrency concurrency) 0 acc0 w.

(** One more iteration than there are items is always enough for a
    positive window (see [loop_enough]). *)
Definition processInBatches (items : list Item) (processor : Processor)
    (concurrency : option Z) (w : W) : option (Acc * W) :=
  processInBatches_fuel (S (List.length items)) items processor concurrency w.

End Executor.
End Batch.

(** ** JSON values and the way JavaScript reads them *)

Module Json.

(** What [JSON.parse] yields; numbers are the integral ones. *)
Inductive value : Type :=
| Null
| Bool (b : bool)
| Num (z : Z)
| Str (s : string)
| Arr (elems : list value)
| Obj (fields : list (string * value)).

(** Truthiness, as [if (v)], [!v] and [v || d] see it. *)
Definition truthy (v : value) : bool :=
  match v with
  | Null => false
  | Bool b => b
  | Num z => negb (z =? 0)%Z
  | Str s => Str.nonempty s
  | Arr _ => true
  | Obj _ => true
  end.

Definition truthy_opt (v : option value) : bool :=
  match v with
  | Some x => truthy x
  | None => false
  end.

Fixpoint lookup_field (k : string) (fields : list (string * value)) : option value :=
  match fields with
  | [] => None
  | (k', v) :: rest => if String.eqb k' k then Some v else lookup_field k rest
  end.

Fixpoint set_field (k : string) (v : value) (fields : list (string * value))
  : list (string * value) :=
  match fields with
  | [] => [(k, v)]
  | (k', v') :: rest =>
      if String.eqb k' k then (k, v) :: rest else (k', v') :: set_field k v rest
  end.

(** [v.k] for a key that no prototype defines ([location], [lastmod],
    [mode]): a [TypeError] on [null], [undefined] ([None]) on anything
    that is not an object with that key. *)
Definition prop (v : value) (k : string) : Result (option value) :=
  match v with
  | Null => Throw TypeError
  | Obj fields => Ok (lookup_field k fields)
  | _ => Ok None
  end.

(** The same read where [v] is known not to be [null]. *)
Definition field (v : value) (k : string) : option value :=
  match v with
  | Obj fields => lookup_field k fields
  | _ => None
  end.

(** [v.k = x]; on a primitive the assignment is dropped. *)
Definition assign (v : value) (k : string) (x : value) : value :=
  match v with
  | Obj fields => Obj (set_field k x fields)
  | _ => v
  end.

(** [ToNumber]; [None] is [NaN].  [other] is the conversion of strings,
    arrays and objects, which the model leaves to the host. *)
Definition to_number (other : value -> option Z) (v : option value) : option Z :=
  match v with
  | None => None
  | Some Null => Some 0%Z
  | Some (Bool b) => Some (if b then 1 else 0)%Z
  | Some (Num z) => Some z
  | Some x => other x
  end.

(** [a > v] for a number [a]: false as soon as [v] converts to [NaN]. *)
Definition gt (other : value -> option Z) (a : Z) (v : option value) : bool :=
  match to_number other v with
  | Some z => (a >? z)%Z
  | None => false
  end.

(** [v || 0] *)
Definition or_zero (v : option value) : value :=
  match v with
  | Some x => if truthy x then x else Num 0
  | None => Num 0
  end.

(** [v === n] for a number [n] *)
Definition is_num (v : option value) (n : Z) : bool :=
  match v with
  | Some (Num z) => (z =? n)%Z
  | _ => false
  end.

End Json.

(** ** The host *)

(** What the platform provides and the model leaves open. *)
Record Host : Type := mkHost {
(** [Zotero.isWin] *)
isWin : bool;
(** [nsIFile.isHidden()] of a directory entry, given by its path *)
isHidden : string -> bool;
(** [PathUtils.join], when [PathUtils] is there *)
PathUtils_join : option (list string -> string);
(** [Zotero.getStorageDirectory().path] *)
storageDir : string;
(** [ToNumber] of a string, an array or an object *)
ToNumber_other : Json.value -> option Z;
(** The button [Services.prompt.confirmEx] returns at the k-th prompt *)
confirmEx : nat -> Z
}.

(** ** The file system *)

Module FS.

Inductive Node : Type :=
| File (mtime : Z) (content : string)
| Dir (mtime : Z).

Definition node_mtime (n : Node) : Z :=
  match n with
  | File m _ => m
  | Dir m => m
  end.

Definition is_file (n : option Node) : bool :=
  match n with
  | Some (File _ _) => true
  | _ => false
  end.

Definition is_dir (n : option Node) : bool :=
  match n with
  | Some (Dir _) => true
  | _ => false
  end.

(** A file system maps the paths that exist to what is there. *)
Abbreviation t := (gmap string Node).

Section Paths.
Variable sep : ascii.

Fixpoint ends_with_sep (s : string) : bool :=
  match s with
  | EmptyString => false
  | String c EmptyString => Ascii.eqb c sep
  | String _ s' => ends_with_sep s'
  end.

Definition dir_prefix (d : string) : string :=
  if ends_with_sep d then d else d ++ String sep EmptyString.

(** [p] lies below the directory [d]. *)
Definition under (d p : string) : bool :=
  String.prefix (dir_prefix d) p && negb (String.eqb p (dir_prefix d)).

Fixpoint first_component (s : string) : string :=
  match s with
  | EmptyString => EmptyString
  | String c s' => if Ascii.eqb c sep then EmptyString else String c (first_component s')
  end.

(** The entry of [d] through which [p] is reached. *)
Definition entry_of (d p : string) : string :=
  dir_prefix d ++ first_component (Str.sdrop (String.length (dir_prefix d)) p).

(** The parent of a path ([PathUtils.parent], [OS.Path.dirname]): the
    text before its last separator, the root for a child of the root,
    nothing for the root and for a path without separator. *)
Definition parent_dir (p : string) : option string :=
  match Str.lastIndexOf sep p with
  | None => None
  | Some O =>
      if String.eqb p (String sep EmptyString) then None
      else Some (String sep EmptyString)
  | Some k => Some (Str.stake k p)
  end.

End Paths.

(** [IOUtils.exists(path)] *)
Definition io_exists (fs : t) (path : string) : bool :=
  bool_decide (is_Some (fs !! path)).

(** [IOUtils.stat(path).lastModified] *)
Definition io_stat (path : string) : M t Z :=
  fun fs =>
    match fs !! path with
    | Some n => (Ok (node_mtime n), fs)
    | None => (Throw (HostError "stat: no such file"), fs)
    end.

(** [IOUtils.copy(source, dest)]: the copy is stamped [now]. *)
Definition io_copy (now : Z) (source dest : string) : M t unit :=
  fun fs =>
    match fs !! source with
    | Some (File _ content) =>
        if is_dir (fs !! dest) then (Throw (HostError "copy: destination is a directory"), fs)
        else (Ok tt, <[dest := File now content]> fs)
    | _ => (Throw (HostError "copy: no such file"), fs)
    end.

(** [IOUtils.move(source, dest)]: the file keeps its time stamp. *)
Definition io_move (source dest : string) : M t unit :=
  fun fs =>
    match fs !! source with
    | Some (File m content) =>
        if is_dir (fs !! dest) then (Throw (HostError "move: destination is a directory"), fs)
        else (Ok tt, <[dest := File m content]> (delete source fs))
    | _ => (Throw (HostError "move: no such file"), fs)
    end.

Definition descendants (sep : ascii) (fs : t) (d : string) : t :=
  filter (fun kv => under sep d kv.1 = true) fs.

(** [IOUtils.remove(path, { ignoreAbsent: true })]: a directory goes only
    when it is empty. *)
Definition io_remove (sep : ascii) (path : string) : M t unit :=
  fun fs =>
    match fs !! path with
    | None => (Ok tt, fs)
    | Some (File _ _) => (Ok tt, delete path fs)
    | Some (Dir _) =>
        if bool_decide (descendants sep fs path = ∅) then (Ok tt, delete path fs)
        else (Throw (HostError "remove: directory not empty"), fs)
    end.

Lemma lastIndexOf_lt c s k : Str.lastIndexOf c s = Some k -> (k < String.length s)%nat.
Proof.
  revert k. induction s as [|a s IH]; intros k; simpl; [discriminate|].
  destruct (Str.lastIndexOf c s) as [j|].
  - intros [= <-]. specialize (IH j eq_refl). lia.
  - destruct (Ascii.eqb a c); [intros [= <-]; lia | discriminate].
Qed.

Lemma stake_length k s : String.length (Str.stake k s) = Nat.min k (String.length s).
Proof.
  revert s. induction k as [|k IH]; intros [|a s]; simpl; try reflexivity.
  now rewrite IH.
Qed.

Lemma parent_dir_shorter sep p q :
  parent_dir sep p = Some q -> (String.length q < String.length p)%nat.
Proof.
  unfold parent_dir. destruct (Str.lastIndexOf sep p) as [k|] eqn:E; [|discriminate].
  pose proof (lastIndexOf_lt _ _ _ E) as Hk. destruct k as [|k].
  - destruct (String.eqb_spec p (String sep EmptyString)) as [->|Hne]; [discriminate|].
    intros [= <-]. destruct p as [|a [|b p]]; cbn [String.length] in *; try lia.
    exfalso. apply Hne. cbn in E.
    destruct (Ascii.eqb_spec a sep) as [Heq|]; [now rewrite Heq | discriminate].
  - intros H. assert (Hq : q = Str.stake (S k) p) by congruence.
    rewrite Hq, stake_length. lia.
Qed.

(** The directories above [path], nearest first. *)
Equations? ancestors (sep : ascii) (path : string) : list string
  by wf (String.length path) lt :=
  ancestors sep path with inspect (parent_dir sep path) := {
    | exist _ (Some parent) _ => parent :: ancestors sep parent
    | exist _ None _ => [] }.
Proof. eapply parent_dir_shorter; eauto. Qed.

Definition mkdir_one (now : Z) (d : string) (fs : t) : t :=
  match fs !! d with
  | None => <[d := Dir now]> fs
  | Some _ => fs
  end.

(** [IOUtils.makeDirectory(path, { ignoreExisting: true, createAncestors:
    true })]: the directory and the missing ones above it are created; a
    file in the way is an error. *)
Definition io_makeDirectory (sep : ascii) (now : Z) (path : string) : M t unit :=
  fun fs =>
    if is_dir (fs !! path) then (Ok tt, fs)
    else if existsb (fun d => is_file (fs !! d)) (path :: ancestors sep path)
    then (Throw (HostError "makeDirectory: a file is in the way"), fs)
    else (Ok tt, foldr (mkdir_one now) fs (path :: ancestors sep path)).

(** A directory has a visible entry when something below it is reached
    through an entry that is not hidden. *)
Definition has_visible_entry (sep : ascii) (hidden : string -> bool) (fs : t) (d : string) : bool :=
  bool_decide (map_Exists (fun p _ => under sep d p = true ∧ hidden (entry_of sep d p) = false) fs).

(** [nsIFile.remove(true)]: the directory goes with all that is below it. *)
Definition remove_tree (sep : ascii) (fs : t) (d : string) : t :=
  filter (fun kv => kv.1 ≠ d ∧ under sep d kv.1 = false) fs.

End FS.

(** ** The path and file helpers of the main module *)

Module ZT.

(** [getFolderSep] *)
Definition getFolderSep (h : Host) : ascii :=
  if isWin h then "\"%char else "/"%char.

(** [getFileExtension] *)
Definition getFileExtension (filename : string) : string :=
  match Str.lastIndexOf "." filename with
  | None => ""
  | Some pos => Str.toLowerCase (Str.sdrop (pos + 1) filename)
  end.

(** [joinPath]: [PathUtils.join] when it is there, else the parts joined
    by the separator with runs of separators collapsed. *)
Definition joinPath (h : Host) (parts : list string) : string :=
  let parts' := List.filter Str.nonempty parts in
  match PathUtils_join h with
  | Some join => join parts'
  | None =>
      Str.collapse (getFolderSep h)
        (Str.join (String (getFolderSep h) EmptyString) parts')
  end.

(** [getParentDir]; both branches go to the host. *)
Definition getParentDir (h : Host) (path : string) : option string :=
  FS.parent_dir (getFolderSep h) path.

(** [fileExists] *)
Definition fileExists (path : string) : M FS.t bool :=
  gets (fun fs => FS.io_exists fs path).

(** [ensureDirectory]; a missing path ([null]) is refused by the host. *)
Definition ensureDirectory (h : Host) (now : Z) (path : option string) : M FS.t unit :=
  match path with
  | Some p => FS.io_makeDirectory (getFolderSep h) now p
  | None => throw (HostError "makeDirectory: no path")
  end.

(** [removeFile]: a failure is logged and dropped. *)
Definition removeFile (h : Host) (path : string) : M FS.t unit :=
  try_catch (FS.io_remove (getFolderSep h) path) (fun _ => ret tt).

(** [getFileModTime] *)
Definition getFileModTime (path : string) : M FS.t Z :=
  try_catch (FS.io_stat path) (fun _ => ret 0%Z).

(** The name tried for [destPath] at [counter]:
    [`${base}_${counter}.${ext}`]. *)
Definition renamed (destPath : string) (counter : Z) : string :=
  let ext := getFileExtension destPath in
  let base :=
    Str.substring destPath 0
      (Z.of_nat (String.length destPath) - Z.of_nat (String.length ext) - 1) in
  base ++ "_" ++ pretty counter ++ "." ++ ext.

(** The loop [while (await this.fileExists(finalPath)) { ... }] of
    [copyFile] and [moveFile]; it only reads the file system. *)
Equations? rename_loop (fs : FS.t) (destPath finalPath : string) (counter : Z)
  : Result string by wf (Z.to_nat (Constants.MAX_RENAME_COUNTER + 1 - counter)) lt :=
  rename_loop fs destPath finalPath counter with inspect (FS.io_exists fs finalPath) := {
    | exist _ false _ => Ok finalPath
    | exist _ true _ with inspect (counter + 1 >? Constants.MAX_RENAME_COUNTER)%Z := {
        | exist _ true _ => Throw TooManyFiles
        | exist _ false _ =>
            rename_loop fs destPath (renamed destPath counter) (counter + 1) } }.
Proof. unfold Constants.MAX_RENAME_COUNTER in *. lia. Qed.

(** [copyFile] *)
Definition copyFile (h : Host) (now : Z) (sourcePath destPath : string) (overwrite : bool)
  : M FS.t string :=
  _ ← ensureDirectory h now (getParentDir h destPath);
  finalPath ←
    (if overwrite then
       ex ← fileExists destPath;
       _ ← (if ex : bool then removeFile h destPath else ret tt);
       ret destPath
     else (fun fs => (rename_loop fs destPath destPath 2, fs))
     : M FS.t string);
  _ ← FS.io_copy now sourcePath finalPath;
  ret finalPath.

(** [moveFile] *)
Definition moveFile (h : Host) (now : Z) (sourcePath destPath : string) : M FS.t string :=
  _ ← ensureDirectory h now (getParentDir h destPath);
  finalPath ← (fun fs => (rename_loop fs destPath destPath 2, fs));
  _ ← FS.io_move sourcePath finalPath;
  ret finalPath.

(** [removeEmptyDirs]; the [try] block has nothing that throws here. *)
Equations? removeEmptyDirs (h : Host) (fs : FS.t) (dirPath : string) (basePath : option string)
  : FS.t by wf (String.length dirPath) lt :=
  removeEmptyDirs h fs dirPath basePath with inspect (getParentDir h dirPath) := {
    | exist _ (Some parentPath) _ =>
        if negb (Str.nonempty dirPath) || bool_decide (Some dirPath = basePath) then fs
        else if negb (FS.is_dir (fs !! dirPath)) then fs
        else if FS.has_visible_entry (getFolderSep h) (isHidden h) fs dirPath then fs
        else if bool_decide (Some parentPath ≠ basePath)
        then removeEmptyDirs h (FS.remove_tree (getFolderSep h) fs dirPath) parentPath basePath
        else FS.remove_tree (getFolderSep h) fs dirPath
    | exist _ None _ =>
        if negb (Str.nonempty dirPath) || bool_decide (Some dirPath = basePath) then fs
        else if negb (FS.is_dir (fs !! dirPath)) then fs
        else if FS.has_visible_entry (getFolderSep h) (isHidden h) fs dirPath then fs
        else FS.remove_tree (getFolderSep h) fs dirPath }.
Proof. eapply FS.parent_dir_shorter; eauto. Qed.

End ZT.

(** ** Zotero items and the world *)

Module Zotero.

(** The [data-zottablet] attribute of the [#zottablet-data] element of a
    note: absent, empty, or a text, which is given by what [JSON.parse]
    makes of it ([None] when it throws a [SyntaxError]). *)
Inductive Attribute : Type :=
| AttrAbsent
| AttrEmpty
| AttrText (parsed : option Json.value).

(** A note: the [#zottablet-data] element, when the note has one, and the
    rest of its HTML. *)
Record Note : Type := mkNote {
  other_html : string;
  data_element : option Attribute
}.

Definition note_is_empty (n : Note) : bool :=
  negb (Str.nonempty (other_html n)) &&
  match data_element n with
  | None => true
  | Some _ => false
  end.

Record Creator : Type := mkCreator {
  lastName : option string;
  creator_name : option string
}.

Record Item : Type := mkItem {
  isAttachment : bool;
  parentItemID : option nat;
  tags : gset string;
  note : Note;
  (** where the attachment's file is, stored or linked *)
  filePath : option string;
  key : string;
  (** the child attachments of a regular item *)
  attachments : list nat;
  creator0 : option Creator;
  date : string;
  title : string;
  publicationTitle : string
}.

Definition blank : Item :=
  mkItem false None ∅ (mkNote "" None) None "" [] None "" "" "".

Record Prefs : Type := mkPrefs {
  destDir : option string;
  mode : option Z;
  rename : bool;
  subfolder : bool;
  subfolderFormat : option string;
  tagOnTablet : option string;
  tagModified : option string;
  extractOnSync : bool
}.

(** A call of [_resolveConflict]. *)
Record Prompt : Type := mkPrompt {
  prompt_attachment : nat;
  prompt_tabletPath : string;
  prompt_zoteroPath : option string
}.

Record World : Type := mkWorld {
  fs : gmap string FS.Node;
  items : gmap nat Item;
  prefs : Prefs;
  (** the time stamp given to what is written now *)
  now : Z;
  (** the conflict prompts shown so far *)
  prompts : list Prompt
}.

Definition set_fs (f : gmap string FS.Node) (w : World) : World :=
  mkWorld f (items w) (prefs w) (now w) (prompts w).

Definition set_items (i : gmap nat Item) (w : World) : World :=
  mkWorld (fs w) i (prefs w) (now w) (prompts w).

Definition add_prompt (p : Prompt) (w : World) : World :=
  mkWorld (fs w) (items w) (prefs w) (now w) (prompts w ++ [p]).

(** A file operation, run on the file system of the world. *)
Definition liftFS {A} (m : M (gmap string FS.Node) A) : M World A :=
  fun w =>
    match m (fs w) with
    | (r, f) => (r, set_fs f w)
    end.

(** The item an id stands for; an id the store does not list stands for a
    blank item. *)
Definition item_of (w : World) (id : nat) : Item :=
  default blank (items w !! id).

Definition update_item (id : nat) (f : Item -> Item) (w : World) : World :=
  set_items (<[id := f (item_of w id)]> (items w)) w.

Definition with_tags (t : gset string) (i : Item) : Item :=
  mkItem (isAttachment i) (parentItemID i) t (note i) (filePath i) (key i)
         (attachments i) (creator0 i) (date i) (title i) (publicationTitle i).

Definition with_note (n : Note) (i : Item) : Item :=
  mkItem (isAttachment i) (parentItemID i) (tags i) n (filePath i) (key i)
         (attachments i) (creator0 i) (date i) (title i) (publicationTitle i).

Definition with_filePath (p : option string) (i : Item) : Item :=
  mkItem (isAttachment i) (parentItemID i) (tags i) (note i) p (key i)
         (attachments i) (creator0 i) (date i) (title i) (publicationTitle i).

(** [item.hasTag(tag)], [item.addTag(tag)], [item.removeTag(tag)] *)
Definition hasTag (w : World) (id : nat) (tag : string) : bool :=
  bool_decide (tag ∈ tags (item_of w id)).

Definition addTag (id : nat) (tag : string) (w : World) : World :=
  update_item id (fun i => with_tags ({[tag]} ∪ tags i) i) w.

Definition removeTag (id : nat) (tag : string) (w : World) : World :=
  update_item id (fun i => with_tags (tags i ∖ {[tag]}) i) w.

(** [Zotero.Items.get(id)] for an id that may be missing: the id, when the
    store has the item. *)
Definition Items_get (w : World) (id : option nat) : option nat :=
  match id with
  | Some i => if bool_decide (is_Some (items w !! i)) then Some i else None
  | None => None
  end.

(** [Zotero.Items.get(ids)]: the items that exist. *)
Definition Items_get_all (w : World) (ids : list nat) : list nat :=
  List.filter (fun i => bool_decide (is_Some (items w !! i))) ids.

(** [attachment.getFilePathAsync()]: the path, when the file is there. *)
Definition getFilePathAsync (w : World) (id : nat) : option string :=
  match filePath (item_of w id) with
  | Some p => if FS.io_exists (fs w) p then Some p else None
  | None => None
  end.

Fixpoint basename (sep : ascii) (p : string) : string :=
  match p with
  | EmptyString => EmptyString
  | String c p' =>
      if Str.contains sep p then basename sep p' else p
  end.

(** [attachment.attachmentFilename]: the last component of its path. *)
Definition attachmentFilename (h : Host) (w : World) (id : nat) : string :=
  match filePath (item_of w id) with
  | Some p => basename (ZT.getFolderSep h) p
  | None => ""
  end.

(** [attachment.relinkAttachmentFile(path)]: refused when there is no file
    at the path. *)
Definition relinkAttachmentFile (id : nat) (path : string) : M World unit :=
  fun w =>
    if FS.io_exists (fs w) path
    then (Ok tt, update_item id (with_filePath (Some path)) w)
    else (Throw (HostError "relink: no such file"), w).

End Zotero.

(** ** The sync manager *)

Module SyncManager.
Import Zotero.

(** *** Tags *)

Record Tags : Type := mkTags {
  onTablet : string;
  modified : string
}.

(** [getTags] *)
Definition getTags (w : World) : Tags :=
  mkTags (JS.or_str (tagOnTablet (prefs w)) "_tablet")
         (JS.or_str (tagModified (prefs w)) "_tablet_modified").

(** [siblings.some(att => att.id !== attachment.id && att.hasTag(tag))] *)
Definition other_sibling_has (w : World) (parent attachment : nat) (tag : string) : bool :=
  existsb (fun sid => negb (sid =? attachment)%nat && hasTag w sid tag)
          (Items_get_all w (attachments (item_of w parent))).

(** [addTabletTag]; saving the items is not modelled. *)
Definition addTabletTag (attachment : nat) (tag : string) (w : World) : World :=
  let tags := getTags w in
  let otherTag := if String.eqb tag (onTablet tags) then modified tags else onTablet tags in
  let w1 := removeTag attachment otherTag (addTag attachment tag w) in
  match Items_get w1 (parentItemID (item_of w1 attachment)) with
  | Some parent =>
      let w2 := addTag parent tag w1 in
      if negb (other_sibling_has w2 parent attachment otherTag)
      then removeTag parent otherTag w2
      else w2
  | None => w1
  end.

(** [removeTabletTag] *)
Definition removeTabletTag (attachment : nat) (tag : string) (w : World) : World :=
  let w1 := removeTag attachment tag w in
  match Items_get w1 (parentItemID (item_of w1 attachment)) with
  | Some parent =>
      if hasTag w1 parent tag then
        if negb (other_sibling_has w1 parent attachment tag)
        then removeTag parent tag w1
        else w1
      else w1
  | None => w1
  end.

(** *** The sync record in the attachment note *)

(** [setTabletInfo]: the attribute of the data element becomes
    [JSON.stringify(info)]. *)
Definition setTabletInfo (attachment : nat) (info : Json.value) (w : World) : World :=
  update_item attachment
    (fun i => with_note (mkNote (other_html (note i)) (Some (AttrText (Some info)))) i) w.

(** The lines of [getTabletInfo] that resolve the placeholder. *)
Definition resolve_location (w : World) (info : Json.value) : Result (option Json.value) :=
  location ← Json.prop info "location";
  if Json.truthy_opt location then
    let destDir := Str.strip_trailing_slashes (JS.or_str (destDir (prefs w)) "") in
    match location with
    | Some (Json.Str loc) =>
        Ok (Some (Json.assign info "location"
                    (Json.Str (Str.replace loc "[BaseFolder]" destDir))))
    | _ => Throw TypeError
    end
  else Ok (Some info).

(** The [try] block of [getTabletInfo]. *)
Definition getTabletInfo_try (w : World) (n : Note) : Result (option Json.value) :=
  match data_element n with
  | Some (AttrText (Some info)) => resolve_location w info
  | Some (AttrText None) => Throw (HostError "JSON.parse: SyntaxError")
  | _ => Ok None
  end.

(** [getTabletInfo]; [None] is [null]. *)
Definition getTabletInfo (w : World) (attachment : nat) : option Json.value :=
  let n := note (item_of w attachment) in
  if note_is_empty n then None
  else
    match getTabletInfo_try w n with
    | Ok r => r
    | Throw _ => None
    end.

(** [clearTabletInfo] *)
Definition clearTabletInfo (attachment : nat) (w : World) : World :=
  let n := note (item_of w attachment) in
  if note_is_empty n then w
  else
    match data_element n with
    | Some _ => update_item attachment (with_note (mkNote (other_html n) None)) w
    | None => w
    end.

(** *** Status checks *)

(** [isOnTablet] *)
Definition isOnTablet (w : World) (attachment : nat) : bool :=
  hasTag w attachment (onTablet (getTags w)) || hasTag w attachment (modified (getTags w)).

(** A path given to the host, which wants a string. *)
Definition as_path (v : option Json.value) : M World string :=
  match v with
  | Some (Json.Str s) => ret s
  | _ => throw TypeError
  end.

(** [isModified] *)
Definition isModified (h : Host) (attachment : nat) : M World bool :=
  tracked ← gets (fun w => isOnTablet w attachment);
  if negb tracked then ret false else
  info ← gets (fun w => getTabletInfo w attachment);
  if negb (Json.truthy_opt info) then ret false else
  let location := info ≫= (fun i => Json.field i "location") in
  if negb (Json.truthy_opt location) then ret false else
  path ← as_path location;
  ex ← liftFS (ZT.fileExists path);
  if negb ex then ret false else
  currentModTime ← liftFS (ZT.getFileModTime path);
  ret (Json.gt (ToNumber_other h) currentModTime (info ≫= (fun i => Json.field i "lastmod"))).

(** [getTabletFilePath] *)
Definition getTabletFilePath (attachment : nat) : M World (option string) :=
  info ← gets (fun w => getTabletInfo w attachment);
  if negb (Json.truthy_opt info) then ret None else
  if Json.is_num (info ≫= (fun i => Json.field i "mode")) Constants.MODE_FOREGROUND
  then gets (fun w => getFilePathAsync w attachment)
  else
    let location := info ≫= (fun i => Json.field i "location") in
    if negb (Json.truthy_opt location) then ret None else
    path ← as_path location;
    ex ← liftFS (ZT.fileExists path);
    if ex : bool then ret (Some path) else ret None.

(** *** Names on the tablet *)

(** The double quote. *)
Definition dquote : ascii := ascii_of_nat 34.

Definition remove_chars (bad : string) (s : string) : string :=
  string_of_list_ascii
    (List.filter (fun c => negb (Str.contains c bad)) (list_ascii_of_string s)).

(** [\s] on the ASCII characters. *)
Definition is_space (c : ascii) : bool :=
  let n := nat_of_ascii c in
  ((9 <=? n)%nat && (n <=? 13)%nat) || (n =? 32)%nat.

(** [s.replace(/\s+/g, '_')] *)
Fixpoint spaces_to_underscore (s : string) : string :=
  match s with
  | EmptyString => EmptyString
  | String a tl =>
      if is_space a then
        match tl with
        | String b _ =>
            if is_space b then spaces_to_underscore tl
            else String "_" (spaces_to_underscore tl)
        | EmptyString => String "_" EmptyString
        end
      else String a (spaces_to_underscore tl)
  end.

(** [s.replace(new RegExp(pat, 'g'), rep)] for a literal, non-empty
    pattern; [whole] is the string the matches are taken in, [pos] the
    place of [s] in it, [skip] what is left of the match being passed. *)
Fixpoint replace_all_from (pat rep whole : string) (pos skip : nat) (s : string) : string :=
  match s with
  | EmptyString => EmptyString
  | String c s' =>
      match skip with
      | S k => replace_all_from pat rep whole (S pos) k s'
      | O =>
          if String.prefix pat s then
            (Str.get_substitution pat (Str.stake pos whole)
               (Str.sdrop (pos + String.length pat) whole) rep
             ++ replace_all_from pat rep whole (S pos) (String.length pat - 1) s')%string
          else String c (replace_all_from pat rep whole (S pos) O s')
      end
  end.

Definition replace_all (s pat rep : string) : string :=
  replace_all_from pat rep s 0 0 s.

Definition authorName (item : Item) : string :=
  match creator0 item with
  | Some author => JS.or_str (lastName author) (JS.or_str (creator_name author) "Unknown")
  | None => "Unknown"
  end.

Definition year (item : Item) : string :=
  if Str.nonempty (date item) then Str.substring (date item) 0 4 else "NoYear".

(** [_formatFilename].  Lengths and cuts count the characters of the text,
    which are the UTF-16 units of the code on ASCII texts; so are the white
    space of [is_space] and the letters of [Str.toLowerCase]. *)
Definition _formatFilename (item : Item) (originalFilename : string) : string :=
  let ext := ZT.getFileExtension originalFilename in
  let title0 := JS.or_str (Some (title item)) "Untitled" in
  let title1 :=
    if (Z.of_nat (String.length title0) >? Constants.TITLE_TRUNCATE_LENGTH)%Z
    then Str.substring title0 0 Constants.TITLE_TRUNCATE_LENGTH
    else title0 in
  let filename := (authorName item ++ "_" ++ year item ++ "_" ++ title1)%string in
  let filename := remove_chars (String dquote "/\?*:|<>") filename in
  let filename := spaces_to_underscore filename in
  (filename ++ "." ++ ext)%string.

(** [_formatSubfolder] *)
Definition _formatSubfolder (item : Item) (format : string) : string :=
  if negb (Str.nonempty format) then ""
  else
    let journal := JS.or_str (Some (publicationTitle item)) "NoJournal" in
    let subfolder := replace_all format "%a" (authorName item) in
    let subfolder := replace_all subfolder "%y" (year item) in
    let subfolder := replace_all subfolder "%j" journal in
    remove_chars (String dquote "?*:|<>") subfolder.

(** *** The batch executor on attachments *)

(** What a summary shows of a failed entry: its file name. *)
Definition error_names {I R} (errors : list (@Batch.Entry I R)) : list string :=
  omap (fun e =>
          match e with
          | Batch.Failed _ _ filename => Some filename
          | Batch.Done _ _ _ => None
          end) errors.

(** The results of the entries that carry one. *)
Definition results_of {I R} (entries : list (@Batch.Entry I R)) : list R :=
  omap (fun e =>
          match e with
          | Batch.Done _ _ r => Some r
          | Batch.Failed _ _ _ => None
          end) entries.

(** [ZT.processInBatches(attachments, processor, { concurrency: 3 })]: the
    items are attachments, and no processor of the sync manager returns an
    object with a [success] or an [item] of its own. *)
Definition batch_attachments {R} (h : Host) (attachments : list nat)
    (processor : nat -> M World R) (w : World)
  : option (@Batch.Acc nat R * World) :=
  Batch.processInBatches
    (fun id w' => Some (attachmentFilename h w' id)) (fun _ _ => None)
    (fun _ => None) (fun _ => None)
    attachments processor (Some 3%Z) w.

(** The same on items that are plain objects, without [attachmentFilename]
    or [name]. *)
Definition batch_objects {I R} (items : list I) (processor : I -> M World R) (w : World)
  : option (@Batch.Acc I R * World) :=
  Batch.processInBatches
    (fun _ _ => None) (fun _ _ => None) (fun _ => None) (fun _ => None)
    items processor (Some 3%Z) w.

(** *** Send to tablet *)

Record SendResult : Type := mkSendResult {
  sr_attachment : nat;
  sr_finalPath : string;
  sr_modTime : Z;
  sr_filename : string
}.

(** What the progress window says at the end. *)
Record Summary : Type := mkSummary {
  done_count : nat;
  failed : list string
}.

(** [!att.isTopLevelItem()] *)
Definition is_child (i : Item) : bool :=
  match parentItemID i with
  | Some _ => true
  | None => false
  end.

(** [processFile] of [sendToTablet]; [p] is the preferences read at the
    start, [root] the destination folder among them. *)
Definition send_processFile (h : Host) (p : Prefs) (root projectFolder : string)
    (attachment : nat) : M World SendResult :=
  sourcePath ← gets (fun w => getFilePathAsync w attachment);
  match sourcePath with
  | None => throw SourceFileNotFound
  | Some sourcePath =>
      ex ← liftFS (ZT.fileExists sourcePath);
      if negb ex then throw SourceFileNotFound else
      parent ← gets (fun w => Items_get w (parentItemID (item_of w attachment)));
      original ← gets (fun w => attachmentFilename h w attachment);
      filename ← gets (fun w =>
        match parent with
        | Some pid => if rename p then _formatFilename (item_of w pid) original else original
        | None => original
        end);
      let targetDir :=
        if Str.nonempty projectFolder then ZT.joinPath h [root; projectFolder] else root in
      targetDir ← gets (fun w =>
        match parent with
        | Some pid =>
            if subfolder p
            then ZT.joinPath h [targetDir;
                   _formatSubfolder (item_of w pid) (JS.or_str (subfolderFormat p) "")]
            else targetDir
        | None => targetDir
        end);
      let targetPath := ZT.joinPath h [targetDir; filename] in
      now_ ← gets now;
      _ ← liftFS (ZT.ensureDirectory h now_ (Some targetDir));
      finalPath ←
        (if (JS.or_num (mode p) Constants.MODE_BACKGROUND =? Constants.MODE_BACKGROUND)%Z
         then liftFS (ZT.copyFile h now_ sourcePath targetPath false)
         else
           moved ← liftFS (ZT.moveFile h now_ sourcePath targetPath);
           _ ← relinkAttachmentFile attachment moved;
           ret moved);
      modTime ← liftFS (ZT.getFileModTime finalPath);
      ret (mkSendResult attachment finalPath modTime filename)
  end.

(** The record written for a sent file. *)
Definition sent_info (p : Prefs) (root projectFolder : string) (r : SendResult) : Json.value :=
  Json.Obj [
    ("location", Json.Str (Str.replace (sr_finalPath r) root "[BaseFolder]"));
    ("lastmod", Json.Num (sr_modTime r));
    ("mode", Json.Num (JS.or_num (mode p) Constants.MODE_BACKGROUND));
    ("projectFolder", Json.Str projectFolder)
  ].

(** One turn of the loop over the successes of [sendToTablet]. *)
Definition send_record (p : Prefs) (root projectFolder : string) (r : SendResult)
    (w : World) : World :=
  addTabletTag (sr_attachment r) (onTablet (getTags w))
    (setTabletInfo (sr_attachment r) (sent_info p root projectFolder r) w).

(** [sendToTablet]; [None] when the batch executor does not return. *)
Definition sendToTablet (h : Host) (attachments : list nat) (projectFolder : string)
    (w : World) : option (option Summary * World) :=
  let p := prefs w in
  match destDir p with
  | None => Some (None, w)
  | Some root =>
      if negb (Str.nonempty root) then Some (None, w)
      else
        let validAttachments :=
          List.filter (fun a => isAttachment (item_of w a) && is_child (item_of w a))
                      attachments in
        match validAttachments with
        | [] => Some (None, w)
        | _ =>
            match batch_attachments h validAttachments
                    (send_processFile h p root projectFolder) w with
            | None => None
            | Some (acc, w1) =>
                let w2 :=
                  fold_left (fun w' r => send_record p root projectFolder r w')
                            (results_of (Batch.successes acc)) w1 in
                Some (Some (mkSummary (List.length (Batch.successes acc))
                                      (error_names (Batch.errors acc))), w2)
            end
        end
  end.

(** *** Get from tablet *)

(** What [gatherInfo] finds for a file that is on the tablet. *)
Record FileInfo : Type := mkFileInfo {
  fi_attachment : nat;
  fi_info : Json.value;
  fi_tabletPath : string;
  fi_zoteroPath : option string;
  fi_tabletModified : bool;
  fi_zoteroModified : bool;
  fi_hasConflict : bool;
  (** set by the conflict loop, [undefined] before *)
  fi_useTablet : option bool
}.

Inductive Gathered : Type :=
| Skipped (reason : string) (attachment : option nat) (needsCleanup : bool)
| Found (fi : FileInfo).

(** [gatherInfo] *)
Definition gatherInfo (h : Host) (attachment : nat) : M World Gathered :=
  info ← gets (fun w => getTabletInfo w attachment);
  match info with
  | None => ret (Skipped "no_info" None false)
  | Some info =>
      if negb (Json.truthy info) then ret (Skipped "no_info" None false) else
      tabletPath ← getTabletFilePath attachment;
      match tabletPath with
      | None => ret (Skipped "no_file" (Some attachment) true)
      | Some tabletPath =>
          zoteroPath ← gets (fun w => getFilePathAsync w attachment);
          tabletModTime ← liftFS (ZT.getFileModTime tabletPath);
          zoteroModTime ←
            match zoteroPath with
            | Some z => liftFS (ZT.getFileModTime z)
            | None => ret 0%Z
            end;
          let savedModTime := Json.or_zero (Json.field info "lastmod") in
          let tabletModified := Json.gt (ToNumber_other h) tabletModTime (Some savedModTime) in
          let zoteroModified := Json.gt (ToNumber_other h) zoteroModTime (Some savedModTime) in
          ret (Found (mkFileInfo attachment info tabletPath zoteroPath
                        tabletModified zoteroModified
                        (tabletModified && zoteroModified) None))
      end
  end.

(** The three lists the gathered results are separated into. *)
Record Separated : Type := mkSeparated {
  toProcess : list FileInfo;
  toCleanup : list nat;
  conflicts : list FileInfo
}.

Fixpoint separate (infoResults : list Gathered) (s : Separated) : Separated :=
  match infoResults with
  | [] => s
  | Skipped _ attachment needsCleanup :: rest =>
      separate rest
        (match attachment with
         | Some a =>
             if needsCleanup
             then mkSeparated (toProcess s) (toCleanup s ++ [a]) (conflicts s)
             else s
         | None => s
         end)
  | Found fi :: rest =>
      separate rest
        (if fi_hasConflict fi
         then mkSeparated (toProcess s) (toCleanup s) (conflicts s ++ [fi])
         else mkSeparated (toProcess s ++ [fi]) (toCleanup s) (conflicts s))
  end.

Inductive Resolution : Type :=
| UseTablet
| UseZotero
| Cancel.

(** [_resolveConflict]: the prompt is shown and the button read. *)
Definition _resolveConflict (h : Host) (attachment : nat) (tabletPath : string)
    (zoteroPath : option string) : M World Resolution :=
  fun w =>
    let result := confirmEx h (List.length (prompts w)) in
    let w' := add_prompt (mkPrompt attachment tabletPath zoteroPath) w in
    if (result =? 0)%Z then (Ok UseTablet, w')
    else if (result =? 2)%Z then (Ok UseZotero, w')
    else (Ok Cancel, w').

Definition with_useTablet (b : bool) (fi : FileInfo) : FileInfo :=
  mkFileInfo (fi_attachment fi) (fi_info fi) (fi_tabletPath fi) (fi_zoteroPath fi)
             (fi_tabletModified fi) (fi_zoteroModified fi) (fi_hasConflict fi) (Some b).

(** The loop over the conflicts: what is kept goes to [toProcess]. *)
Fixpoint resolve_conflicts (h : Host) (conflicts : list FileInfo)
    (toProcess : list FileInfo) (w : World) : list FileInfo * World :=
  match conflicts with
  | [] => (toProcess, w)
  | conflict :: rest =>
      match _resolveConflict h (fi_attachment conflict) (fi_tabletPath conflict)
              (fi_zoteroPath conflict) w with
      | (Ok UseTablet, w') =>
          resolve_conflicts h rest (toProcess ++ [with_useTablet true conflict]) w'
      | (Ok UseZotero, w') =>
          resolve_conflicts h rest (toProcess ++ [with_useTablet false conflict]) w'
      | (_, w') => resolve_conflicts h rest toProcess w'
      end
  end.

Record GetResult : Type := mkGetResult {
  gr_attachment : nat;
  gr_shouldExtract : bool;
  gr_tabletPath : option string
}.

(** [processFile] of [getFromTablet] *)
Definition get_processFile (h : Host) (item : FileInfo) : M World GetResult :=
  let attachment := fi_attachment item in
  if Json.is_num (Json.field (fi_info item) "mode") Constants.MODE_BACKGROUND then
    if fi_tabletModified item || default false (fi_useTablet item) then
      match fi_zoteroPath item with
      | Some zoteroPath =>
          now_ ← gets now;
          _ ← liftFS (ZT.copyFile h now_ (fi_tabletPath item) zoteroPath true);
          ret (mkGetResult attachment true (Some (fi_tabletPath item)))
      | None => throw TypeError
      end
    else ret (mkGetResult attachment false (Some (fi_tabletPath item)))
  else
    originalPath ← gets (fun w =>
      ZT.joinPath h [storageDir h; key (item_of w attachment);
                     attachmentFilename h w attachment]);
    now_ ← gets now;
    _ ← liftFS (ZT.ensureDirectory h now_ (ZT.getParentDir h originalPath));
    _ ← liftFS (ZT.moveFile h now_ (fi_tabletPath item) originalPath);
    _ ← relinkAttachmentFile attachment originalPath;
    ret (mkGetResult attachment true None).

(** What the clean-up loops collect. *)
Record Cleaned : Type := mkCleaned {
  toSaveDB : list nat;
  toExtract : list nat
}.

(** [removeEmptyDirs] as it is called: a missing directory path returns at
    once. *)
Definition removeEmptyDirs_from (h : Host) (dirPath : option string) (basePath : option string)
    (w : World) : World :=
  match dirPath with
  | Some d => set_fs (ZT.removeEmptyDirs h (fs w) d basePath) w
  | None => w
  end.

(** The end of both clean-up loops: tags off, record cleared. *)
Definition untrack (attachment : nat) (w : World) : World :=
  let tags := getTags w in
  clearTabletInfo attachment
    (removeTabletTag attachment (modified tags)
       (removeTabletTag attachment (onTablet tags) w)).

(** One turn of the loop over [fileResults]. *)
Definition cleanup_result (h : Host) (basePath : option string) (r : GetResult)
    (st : Cleaned * World) : Cleaned * World :=
  let '(c, w) := st in
  let w1 :=
    match gr_tabletPath r with
    | Some tabletPath =>
        let w' := snd (liftFS (ZT.removeFile h tabletPath) w) in
        removeEmptyDirs_from h (ZT.getParentDir h tabletPath) basePath w'
    | None => w
    end in
  let w2 := untrack (gr_attachment r) w1 in
  (mkCleaned (toSaveDB c ++ [gr_attachment r])
             (if gr_shouldExtract r then toExtract c ++ [gr_attachment r] else toExtract c),
   w2).

(** One turn of the loop over [toCleanup]. *)
Definition cleanup_missing (attachment : nat) (st : Cleaned * World) : Cleaned * World :=
  let '(c, w) := st in
  (mkCleaned (toSaveDB c ++ [attachment]) (toExtract c), untrack attachment w).

(** What [getFromTablet] leaves behind, besides the world. *)
Record Retrieved : Type := mkRetrieved {
  retrieved : Summary;
  processed : list FileInfo;
  cleaned : list nat;
  saved : list nat;
  extracted : list nat
}.

(** [getFromTablet]; [None] when a batch does not return.  Saving the
    items and the extraction of annotations are left to the host. *)
Definition getFromTablet (h : Host) (attachments : list nat) (extractAnnotationsFlag : bool)
    (w : World) : option (option Retrieved * World) :=
  let p := prefs w in
  let tabletAttachments := List.filter (isOnTablet w) attachments in
  match tabletAttachments with
  | [] => Some (None, w)
  | _ =>
      match batch_attachments h tabletAttachments (gatherInfo h) w with
      | None => None
      | Some (gathered, w1) =>
          let sep := separate (results_of (Batch.successes gathered))
                              (mkSeparated [] [] []) in
          let '(toProcess', w2) := resolve_conflicts h (conflicts sep) (toProcess sep) w1 in
          match batch_objects toProcess' (get_processFile h) w2 with
          | None => None
          | Some (files, w3) =>
              let errors := error_names (Batch.errors gathered)
                            ++ error_names (Batch.errors files) in
              let st1 := fold_left (fun st r => cleanup_result h (destDir p) r st)
                                   (results_of (Batch.successes files))
                                   (mkCleaned [] [], w3) in
              let '(c, w4) := fold_left (fun st a => cleanup_missing a st)
                                        (toCleanup sep) st1 in
              Some (Some (mkRetrieved
                            (mkSummary (List.length (Batch.successes files)) errors)
                            toProcess' (toCleanup sep) (toSaveDB c)
                            (if extractAnnotationsFlag && extractOnSync p
                             then toExtract c else [])),
                    w4)
          end
      end
  end.

(** *** Check modifications *)

Record CheckResult : Type := mkCheckResult {
  cr_attachment : nat;
  cr_isModified : bool;
  cr_hasModifiedTag : bool;
  cr_needsUpdate : bool
}.

(** [checkMod] *)
Definition checkMod (h : Host) (attachment : nat) : M World CheckResult :=
  isMod ← isModified h attachment;
  hasModifiedTag ← gets (fun w => hasTag w attachment (modified (getTags w)));
  ret (mkCheckResult attachment isMod hasModifiedTag
         ((isMod && negb hasModifiedTag) || (negb isMod && hasModifiedTag))).

(** One turn of the loop over [checkResults]. *)
Definition apply_check (result : CheckResult) (st : Z * World) : Z * World :=
  let '(modifiedCount, w) := st in
  if negb (cr_needsUpdate result) then (modifiedCount, w)
  else if cr_isModified result && negb (cr_hasModifiedTag result) then
    ((modifiedCount + 1)%Z, addTabletTag (cr_attachment result) (modified (getTags w)) w)
  else if negb (cr_isModified result) && cr_hasModifiedTag result then
    (modifiedCount, addTabletTag (cr_attachment result) (onTablet (getTags w)) w)
  else (modifiedCount, w).

(** The results of the parallel check, in order. *)
Definition check_results (h : Host) (attachments : list nat) (w : World)
  : option (list CheckResult * World) :=
  match batch_attachments h (List.filter (isOnTablet w) attachments) (checkMod h) w with
  | None => None
  | Some (acc, w1) => Some (results_of (Batch.successes acc), w1)
  end.

(** [checkModifications]: the count of newly modified files. *)
Definition checkModifications (h : Host) (attachments : list nat) (w : World)
  : option (Z * World) :=
  match List.filter (isOnTablet w) attachments with
  | [] => Some (0%Z, w)
  | _ =>
      match check_results h attachments w with
      | None => None
      | Some (checkResults, w1) =>
          Some (fold_left (fun st r => apply_check r st) checkResults (0%Z, w1))
      end
  end.

End SyncManager.

(** ** The status column ([getItemStatus] of the main module) *)

Module Status.
Import Zotero.

(** [item.hasTag(ZT.getPref(key))]: no item has the tag [undefined]. *)
Definition hasTag_pref (w : World) (id : nat) (tag : option string) : bool :=
  match tag with
  | Some t => hasTag w id t
  | None => false
  end.

(** [getItemStatus]; [item] is [None] for a missing item, [reading] is the
    preference [tagReadingList]. *)
Definition getItemStatus (reading : option string) (w : World) (item : option nat) : string :=
  match item with
  | None => ""
  | Some i =>
      if negb (isAttachment (item_of w i)) then ""
      else if hasTag_pref w i (tagModified (prefs w)) then "Modified"
      else if hasTag_pref w i (tagOnTablet (prefs w)) then "On Tablet"
      else if hasTag_pref w i reading then "Reading"
      else ""
  end.

End Status.

(** ** The reading list ([ReadingListModule]) *)

Module ReadingList.
Import Zotero.

(** [getTag]; [reading] is the preference [tagReadingList]. *)
Definition getTag (reading : option string) : string :=
  JS.or_str reading "_reading_list".

(** [item.isAttachment() && !item.isTopLevelItem() ?
     Zotero.Items.get(item.parentItemID) : item] *)
Definition targetItem (w : World) (item : nat) : option nat :=
  if isAttachment (item_of w item) && SyncManager.is_child (item_of w item)
  then Items_get w (parentItemID (item_of w item))
  else Some item.

(** One turn of the loop of [addToReadingList]; the first component is
    [toSave]. *)
Definition add_one (tag : string) (st : list nat * World) (item : nat) : list nat * World :=
  let '(toSave, w) := st in
  match targetItem w item with
  | Some target =>
      if negb (hasTag w target tag)
      then (toSave ++ [target], addTag target tag w)
      else (toSave, w)
  | None => (toSave, w)
  end.

(** [addToReadingList]: the items saved, and the world. *)
Definition addToReadingList (reading : option string) (items : list nat) (w : World)
  : list nat * World :=
  fold_left (add_one (getTag reading)) items ([], w).

(** One turn of the loop of [removeFromReadingList]. *)
Definition remove_one (tag : string) (st : list nat * World) (item : nat) : list nat * World :=
  let '(toSave, w) := st in
  match targetItem w item with
  | Some target =>
      if hasTag w target tag
      then (toSave ++ [target], removeTag target tag w)
      else (toSave, w)
  | None => (toSave, w)
  end.

(** [removeFromReadingList] *)
Definition removeFromReadingList (reading : option string) (items : list nat) (w : World)
  : list nat * World :=
  fold_left (remove_one (getTag reading)) items ([], w).

(** [isInReadingList] *)
Definition isInReadingList (reading : option string) (w : World) (item : nat) : bool :=
  if isAttachment (item_of w item) && SyncManager.is_child (item_of w item)
  then
    match Items_get w (parentItemID (item_of w item)) with
    | Some parent => hasTag w parent (getTag reading)
    | None => false
    end
  else hasTag w item (getTag reading).

(** [toggleReadingList] *)
Definition toggleReadingList (reading : option string) (item : nat) (w : World) : World :=
  if isInReadingList reading w item
  then snd (removeFromReadingList reading [item] w)
  else snd (addToReadingList reading [item] w).

End ReadingList.

(** ** Escaping for the annotation note ([_escapeHtml]) *)

Module AnnotationExtractor.

(** [s.replace(/c/g, rep)] for a one-character pattern and a replacement
    text without dollar sign. *)
Fixpoint replace_char (c : ascii) (rep : string) (s : string) : string :=
  match s with
  | EmptyString => EmptyString
  | String a tl =>
      if Ascii.eqb a c then rep ++ replace_char c rep tl
      else String a (replace_char c rep tl)
  end.

(** [_escapeHtml]; [None] is a missing text. *)
Definition _escapeHtml (text : option string) : string :=
  match text with
  | None => ""
  | Some t =>
      if negb (Str.nonempty t) then ""
      else
        replace_char "'" "&#039;"
          (replace_char SyncManager.dquote "&quot;"
             (replace_char ">" "&gt;"
                (replace_char "<" "&lt;"
                   (replace_char "&" "&amp;" t))))
  end.

End AnnotationExtractor.

(** ** The menu commands on a selection ([UIModule]) *)

Module UI.
Import Zotero SyncManager.

Record Invalid : Type := mkInvalid {
  inv_item : nat;
  inv_reason : string
}.

Record Validated : Type := mkValidated {
  valid : list nat;
  invalid : list Invalid
}.

(** The loop of [validateForGet]. *)
Fixpoint validateForGet_from (w : World) (attachments : list nat) (acc : Validated)
  : Validated :=
  match attachments with
  | [] => acc
  | att :: rest =>
      if negb (isOnTablet w att)
      then validateForGet_from w rest
             (mkValidated (valid acc) (invalid acc ++ [mkInvalid att "Not on tablet"]))
      else validateForGet_from w rest (mkValidated (valid acc ++ [att]) (invalid acc))
  end.

(** [validateForGet] *)
Definition validateForGet (w : World) (attachments : list nat) : Validated :=
  validateForGet_from w attachments (mkValidated [] []).

(** The two preferences of the batch confirmation. *)
Record BatchPrefs : Type := mkBatchPrefs {
  confirmBatch : bool;
  batchThreshold : Z
}.

(** [needsBatchConfirmation] *)
Definition needsBatchConfirmation (b : BatchPrefs) (count : Z) : bool :=
  confirmBatch b && (count >=? batchThreshold b)%Z.

(** What a menu command ends with. *)
Inductive Outcome : Type :=
| ShowInfo (message : string)
| Declined
| Ran (summary : option Retrieved).

(** [_onGetFromTablet] on the selected attachments; [confirmed] is the
    answer to the batch confirmation, if it is asked.  [None] when the pass
    does not return. *)
Definition _onGetFromTablet (h : Host) (b : BatchPrefs) (confirmed : bool)
    (selected : list nat) (w : World) : option (Outcome * World) :=
  let v := validateForGet w selected in
  match valid v with
  | [] =>
      Some (ShowInfo (match invalid v with
                      | i :: _ => inv_reason i
                      | [] => "No attachments selected"
                      end), w)
  | _ =>
      if needsBatchConfirmation b (Z.of_nat (List.length (valid v))) && negb confirmed
      then Some (Declined, w)
      else
        match getFromTablet h (valid v) true w with
        | Some (r, w') => Some (Ran r, w')
        | None => None
        end
  end.

(** [_onCheckModifications] on the selected attachments: the message, or
    the count of the check. *)
Definition _onCheckModifications (h : Host) (selected : list nat) (w : World)
  : option ((string + Z) * World) :=
  let attachments := List.filter (isOnTablet w) selected in
  match attachments with
  | [] => Some (inl "No tablet attachments selected", w)
  | _ =>
      match checkModifications h attachments w with
      | Some (n, w') => Some (inr n, w')
      | None => None
      end
  end.

End UI.

(** * Verification *)

(** ** The batch executor *)

Module BatchFacts.
Section Facts.

Context {Item R W : Type}.
Variable attachmentFilename : Item -> W -> option string.
Variable name : Item -> W -> option string.
Variable result_success : R -> option bool.
Variable result_item : R -> option Item.
Variable processor : @Batch.Processor Item R W.

Local Abbreviation wrap :=
  (Batch.wrap attachmentFilename name result_success result_item processor).
Local Abbreviation run_chunk :=
  (Batch.run_chunk attachmentFilename name result_success result_item processor).
Local Abbreviation loop :=
  (fun fuel => Batch.loop attachmentFilename name result_success result_item fuel processor).

(** The calls [onProgress(c + 1, total)], ..., [onProgress(c + n, total)]. *)
Definition progress_from (c total : Z) (n : nat) : list (Z * Z) :=
  List.map (fun k => ((c + Z.of_nat k)%Z, total)) (seq 1 n).

Lemma run_chunk_app (l1 l2 : list Item) (w : W) :
  run_chunk (l1 ++ l2) w =
  (fst (run_chunk l1 w) ++ fst (run_chunk l2 (snd (run_chunk l1 w))),
   snd (run_chunk l2 (snd (run_chunk l1 w)))).
Proof.
  revert w. induction l1 as [|item l1 IH]; intros w; simpl.
  - now destruct (Batch.run_chunk _ _ _ _ _ l2 w).
  - destruct wrap as [e w1]. rewrite IH.
    destruct (Batch.run_chunk _ _ _ _ _ l1 w1) as [es w2]. simpl.
    now destruct (Batch.run_chunk _ _ _ _ _ l2 w2).
Qed.

Lemma run_chunk_length (l : list Item) (w : W) :
  List.length (fst (run_chunk l w)) = List.length l.
Proof.
  revert w. induction l as [|item l IH]; intros w; simpl; [reflexivity|].
  destruct wrap as [e w1]. specialize (IH w1).
  destruct (Batch.run_chunk _ _ _ _ _ l w1). simpl in *. now rewrite IH.
Qed.

(** The entry of the k-th item is the outcome of the processor on that
    item, in the world the items before it have left. *)
Lemma run_chunk_lookup (l : list Item) (w : W) (k : nat) (item : Item) :
  l !! k = Some item ->
  fst (run_chunk l w) !! k = Some (fst (wrap item (snd (run_chunk (take k l) w)))).
Proof.
  revert w k. induction l as [|x l IH]; intros w k Hk; [discriminate|].
  destruct k as [|k]; simpl in *.
  - injection Hk as ->. destruct wrap as [e w1].
    now destruct (Batch.run_chunk _ _ _ _ _ l w1).
  - destruct wrap as [e w1]. specialize (IH w1 k Hk).
    destruct (Batch.run_chunk _ _ _ _ _ l w1) as [es w2].
    destruct (Batch.run_chunk _ _ _ _ _ (take k l) w1) as [es' w2']. exact IH.
Qed.

Lemma progress_from_S (c total : Z) (n : nat) :
  progress_from c total (S n) = ((c + 1)%Z, total) :: progress_from (c + 1) total n.
Proof.
  unfold progress_from. simpl. f_equal. rewrite <- seq_shift, List.map_map.
  apply List.map_ext. intros k. f_equal. lia.
Qed.

Lemma progress_from_app (c total : Z) (n m : nat) :
  progress_from c total (n + m) =
  progress_from c total n ++ progress_from (c + Z.of_nat n) total m.
Proof.
  revert c. induction n as [|n IH]; intros c.
  - simpl. now rewrite Z.add_0_r.
  - cbn [Nat.add]. rewrite !progress_from_S, IH. simpl. do 3 f_equal. lia.
Qed.

Lemma collect_spec (results : list (@Batch.Entry Item R)) (total : Z) (a : Batch.Acc) :
  Batch.collect results total a =
  Batch.mkAcc
    (Batch.successes a ++ List.filter Batch.entry_success results)
    (Batch.errors a ++ List.filter (fun e => negb (Batch.entry_success e)) results)
    (Batch.completed a + Z.of_nat (List.length results))
    (Batch.progress a ++ progress_from (Batch.completed a) total (List.length results)).
Proof.
  revert a. induction results as [|r rs IH]; intros a.
  - simpl. rewrite !app_nil_r, Z.add_0_r. now destruct a.
  - cbn [Batch.collect List.length]. rewrite IH, progress_from_S.
    destruct (Batch.entry_success r) eqn:E; cbn [List.filter]; rewrite E; simpl;
      rewrite <- !app_assoc; simpl; f_equal; lia.
Qed.

Lemma slice_window (items : list Item) (i c : Z) :
  (0 <= i < Z.of_nat (List.length items))%Z -> (0 < c)%Z ->
  JS.slice items i (i + c) = take (Z.to_nat c) (drop (Z.to_nat i) items).
Proof.
  intros Hi Hc. unfold JS.slice, JS.rel_index.
  destruct (Z.ltb_spec i 0); [lia|]. destruct (Z.ltb_spec (i + c) 0); [lia|].
  rewrite (Z.min_l i) by lia.
  destruct (Z.le_gt_cases (i + c) (Z.of_nat (List.length items))).
  - rewrite Z.min_l by lia. f_equal. lia.
  - rewrite Z.min_r by lia. rewrite !take_ge; [reflexivity | |];
      rewrite length_drop; lia.
Qed.

(** With fuel for the iterations that are left, the loop ends, and it has
    processed the items from [i] on, in order. *)
Lemma loop_enough (items : list Item) (c : Z) (fuel : nat) (i : Z) (a : Batch.Acc) (w : W) :
  (0 < c)%Z -> (0 <= i)%Z ->
  (Z.to_nat (Z.of_nat (List.length items) - i) < fuel)%nat ->
  loop fuel items c i a w =
  Some (Batch.collect (fst (run_chunk (drop (Z.to_nat i) items) w))
                      (Z.of_nat (List.length items)) a,
        snd (run_chunk (drop (Z.to_nat i) items) w)).
Proof.
  intros Hc. revert i a w. induction fuel as [|fuel IH]; intros i a w Hi Hfuel; [lia|].
  cbn [Batch.loop]. destruct (Z.ltb_spec i (Z.of_nat (List.length items))) as [Hlt|Hge].
  - rewrite slice_window by lia.
    set (rest := drop (Z.to_nat i) items).
    assert (Hsplit : rest = take (Z.to_nat c) rest ++ drop (Z.to_nat (i + c)) items).
    { unfold rest. rewrite <- (take_drop (Z.to_nat c) (drop (Z.to_nat i) items)) at 1.
      f_equal. rewrite drop_drop. f_equal. lia. }
    rewrite Hsplit at 2 3. rewrite run_chunk_app. cbn [fst snd].
    destruct (Batch.run_chunk _ _ _ _ _ (take (Z.to_nat c) rest) w) as [results w'] eqn:E.
    cbn [fst snd]. rewrite IH by lia.
    f_equal. f_equal. rewrite !collect_spec. cbn [Batch.successes Batch.errors
      Batch.completed Batch.progress]. rewrite !List.filter_app, !length_app.
    rewrite progress_from_app, <- !app_assoc. f_equal. lia.
  - rewrite drop_ge by lia. reflexivity.
Qed.

(** The executor returns for a positive window, and what it returns is the
    in-order run over all the items. *)
Lemma processInBatches_run (items : list Item) (concurrency : option Z) (w : W) :
  (0 < Batch.effective_concurrency concurrency)%Z ->
  Batch.processInBatches attachmentFilename name result_success result_item
    items processor concurrency w
  = Some (Batch.collect (fst (run_chunk items w)) (Z.of_nat (List.length items)) Batch.acc0,
          snd (run_chunk items w)).
Proof.
  intros Hc. unfold Batch.processInBatches, Batch.processInBatches_fuel.
  rewrite loop_enough by lia. reflexivity.
Qed.

(** A property of the world that every call of the processor keeps is kept
    by the run, and what holds of every entry made holds of all of them. *)
Lemma run_chunk_invariant (P : W -> Prop) (Q : Item -> Batch.Entry -> Prop)
    (items : list Item) (w : W) :
  (forall item w0, In item items -> P w0 ->
     P (snd (wrap item w0)) /\ Q item (fst (wrap item w0))) ->
  P w ->
  P (snd (run_chunk items w)) /\ Forall2 Q items (fst (run_chunk items w)).
Proof.
  revert w. induction items as [|item items IH]; intros w Hstep Hw; simpl.
  - split; [exact Hw | constructor].
  - destruct (Hstep item w (or_introl eq_refl) Hw) as [HP HQ].
    destruct wrap as [e w1]. simpl in HP, HQ.
    destruct (IH w1 (fun i w0 Hi => Hstep i w0 (or_intror Hi)) HP) as [HP' HQ'].
    destruct (Batch.run_chunk _ _ _ _ _ items w1) as [es w2]. simpl in *.
    split; [exact HP' | now constructor].
Qed.

(** What the [try] / [catch] around the processor makes of its outcome. *)
Lemma wrap_thrown (item : Item) (w w' : W) (e : Error) :
  processor item w = (Throw e, w') ->
  wrap item w =
  (Batch.Failed item e
     (JS.or_str (attachmentFilename item w') (JS.or_str (name item w') "unknown")), w').
Proof. intros H. unfold Batch.wrap. now rewrite H. Qed.

Lemma wrap_returned (item : Item) (w w' : W) (r : R) :
  processor item w = (Ok r, w') ->
  wrap item w =
  (Batch.Done (default true (result_success r)) (default item (result_item r)) r, w').
Proof. intros H. unfold Batch.wrap. now rewrite H. Qed.

(** C3.  For every item list, processor and positive concurrency the batch
    executor returns.  Its entries are one per item, in order: the k-th is
    what the processor returned or threw on the k-th item, whatever happened
    to the other items; a throw is caught and recorded with that item.
    [successes] and [errors] split the entries by their [success] flag, so
    each entry is in exactly one of the two lists.  The progress callback is
    called once per item, with the counts 1, 2, ..., n and the total n. *)
Theorem processInBatches_partition (items : list Item) (concurrency : option Z) (w : W) :
  (0 < Batch.effective_concurrency concurrency)%Z ->
  exists acc : Batch.Acc,
    Batch.processInBatches attachmentFilename name result_success result_item
      items processor concurrency w
    = Some (acc, snd (run_chunk items w))
    /\ List.length (fst (run_chunk items w)) = List.length items
    /\ (forall k item, items !! k = Some item ->
          fst (run_chunk items w) !! k
          = Some (fst (wrap item (snd (run_chunk (take k items) w)))))
    /\ (forall item e w1 w2, processor item w1 = (Throw e, w2) ->
          exists filename, fst (wrap item w1) = Batch.Failed item e filename)
    /\ Batch.successes acc = List.filter Batch.entry_success (fst (run_chunk items w))
    /\ Batch.errors acc
       = List.filter (fun e => negb (Batch.entry_success e)) (fst (run_chunk items w))
    /\ (forall e, In e (fst (run_chunk items w)) ->
          (In e (Batch.successes acc) /\ ~ In e (Batch.errors acc))
          \/ (~ In e (Batch.successes acc) /\ In e (Batch.errors acc)))
    /\ Batch.completed acc = Z.of_nat (List.length items)
    /\ Batch.progress acc
       = List.map (fun k => (Z.of_nat k, Z.of_nat (List.length items)))
                  (seq 1 (List.length items)).
Proof.
  intros Hc. eexists. split; [now apply processInBatches_run|].
  rewrite collect_spec. cbn [Batch.successes Batch.errors Batch.completed
    Batch.progress Batch.acc0]. rewrite !run_chunk_length.
  repeat split.
  - intros k item Hk. now apply run_chunk_lookup.
  - intros item e w1 w2 H. rewrite (wrap_thrown _ _ _ _ H). eauto.
  - intros e He. destruct (Batch.entry_success e) eqn:E; [left | right]; split.
    + apply List.filter_In. auto.
    + intros [_ H]%List.filter_In. now rewrite E in H.
    + intros [_ H]%List.filter_In. now rewrite E in H.
    + apply List.filter_In. now rewrite E.
Qed.

End Facts.

(** An instance: four items in windows of two, the second one throws. *)
Definition sample_processor (item : nat) : M unit nat :=
  fun w => if (item =? 2)%nat then (Throw TooManyFiles, w) else (Ok (item * 10), w).

Lemma processInBatches_partition_witness :
  (0 < Batch.effective_concurrency (Some 2%Z))%Z
  /\ exists acc,
       Batch.processInBatches (fun _ _ => None) (fun _ _ => None)
         (fun _ => None) (fun _ => None) [1; 2; 3; 4] sample_processor (Some 2%Z) tt
       = Some (acc, tt)
       /\ List.length (Batch.successes acc) = 3
       /\ List.length (Batch.errors acc) = 1.
Proof.
  split; [reflexivity|].
  destruct (processInBatches_partition (fun _ _ => None) (fun _ _ => None)
              (fun _ => None) (fun _ => None) sample_processor [1; 2; 3; 4]
              (Some 2%Z) tt eq_refl)
    as (acc & Heq & _ & _ & _ & Hs & He & _).
  exists acc. split; [exact Heq|]. rewrite Hs, He. split; reflexivity.
Defined.

End BatchFacts.


(** ** The path and file helpers *)

Module PathFacts.

(** Unfolds the monad of the model. *)
Ltac munfold :=
  unfold mbind, M_bind, Result_bind, bind, mret, M_ret, ret, gets, throw,
    try_catch, modify in *.

Lemma rename_loop_unfold (fs : FS.t) (dest final : string) (k : Z) :
  ZT.rename_loop fs dest final k =
  if FS.io_exists fs final then
    if (k + 1 >? Constants.MAX_RENAME_COUNTER)%Z then Throw TooManyFiles
    else ZT.rename_loop fs dest (ZT.renamed dest k) (k + 1)
  else Ok final.
Proof.
  funelim (ZT.rename_loop fs dest final k).
  - now rewrite e.
  - now rewrite e, e0.
  - now rewrite e, e0.
Qed.

(** The names the loop has found taken before it settles on [renamed dest
    j], when it starts at [final] with the counter at [k]. *)
Definition taken_upto (fs : FS.t) (dest final : string) (k j : Z) : Prop :=
  FS.io_exists fs final = true /\
  forall i, (k <= i < j)%Z -> FS.io_exists fs (ZT.renamed dest i) = true.

(** What the loop returns: the first name that is free among [final],
    [renamed dest k], [renamed dest (k + 1)], ..., the last one tried having
    the suffix [MAX_RENAME_COUNTER - 1]; the error when all are taken. *)
Lemma rename_loop_spec (fs : FS.t) (dest final : string) (k : Z) :
  (k <= Constants.MAX_RENAME_COUNTER)%Z ->
  match ZT.rename_loop fs dest final k with
  | Ok p =>
      FS.io_exists fs p = false /\
      (p = final \/
       exists j, (k <= j < Constants.MAX_RENAME_COUNTER)%Z /\ p = ZT.renamed dest j
                 /\ taken_upto fs dest final k j)
  | Throw e =>
      e = TooManyFiles /\ taken_upto fs dest final k Constants.MAX_RENAME_COUNTER
  end.
Proof.
  intros Hk.
  remember (Z.to_nat (Constants.MAX_RENAME_COUNTER - k)) as n eqn:Hn.
  revert final k Hk Hn. induction n as [|n IH]; intros final k Hk Hn;
    rewrite rename_loop_unfold; destruct (FS.io_exists fs final) eqn:E; auto.
  - destruct (Z.gtb_spec (k + 1) Constants.MAX_RENAME_COUNTER); [|lia].
    split; [reflexivity|]. split; [exact E|]. intros i Hi. lia.
  - destruct (Z.gtb_spec (k + 1) Constants.MAX_RENAME_COUNTER); [lia|].
    specialize (IH (ZT.renamed dest k) (k + 1)%Z ltac:(lia) ltac:(lia)).
    destruct (ZT.rename_loop fs dest (ZT.renamed dest k) (k + 1)) as [p|e].
    + destruct IH as [Hfree [-> | (j & Hj & -> & Ht1 & Ht2)]]; (split; [exact Hfree|]); right.
      * exists k. split; [lia|]. split; [reflexivity|]. split; [exact E|]. intros i Hi. lia.
      * exists j. split; [lia|]. split; [reflexivity|]. split; [exact E|].
        intros i Hi. destruct (Z.eq_dec i k) as [->|]; [exact Ht1|]. apply Ht2. lia.
    + destruct IH as [-> [Ht1 Ht2]]. split; [reflexivity|]. split; [exact E|].
      intros i Hi. destruct (Z.eq_dec i k) as [->|]; [exact Ht1|]. apply Ht2. lia.
Qed.

Lemma rename_loop_free (fs : FS.t) (dest : string) (p : string) :
  ZT.rename_loop fs dest dest 2 = Ok p -> fs !! p = None.
Proof.
  intros H. pose proof (rename_loop_spec fs dest dest 2 ltac:(unfold Constants.MAX_RENAME_COUNTER; lia)) as S.
  rewrite H in S. destruct S as [Hfree _]. unfold FS.io_exists in Hfree.
  apply bool_decide_eq_false in Hfree. now apply eq_None_not_Some.
Qed.

(** [ensureDirectory] only adds directories where nothing was. *)
Lemma mkdir_one_keeps (now : Z) (d : string) (fs : FS.t) (q : string) (n : FS.Node) :
  fs !! q = Some n -> FS.mkdir_one now d fs !! q = Some n.
Proof.
  intros H. unfold FS.mkdir_one. destruct (fs !! d) eqn:E; [exact H|].
  rewrite lookup_insert_ne; [exact H|]. intros ->. congruence.
Qed.

Lemma mkdir_one_new (now : Z) (d : string) (fs : FS.t) (q : string) (n : FS.Node) :
  FS.mkdir_one now d fs !! q = Some n -> fs !! q = Some n \/ (fs !! q = None /\ n = FS.Dir now).
Proof.
  unfold FS.mkdir_one. destruct (fs !! d) eqn:E; [auto|].
  destruct (decide (d = q)) as [->|Hne].
  - rewrite lookup_insert_eq. intros [= <-]. auto.
  - rewrite lookup_insert_ne by done. auto.
Qed.

Lemma mkdirs_keeps (now : Z) (l : list string) (fs : FS.t) :
  (forall q n, fs !! q = Some n -> foldr (FS.mkdir_one now) fs l !! q = Some n) /\
  (forall q n, foldr (FS.mkdir_one now) fs l !! q = Some n ->
     fs !! q = Some n \/ (fs !! q = None /\ n = FS.Dir now)).
Proof.
  induction l as [|x l IH]; simpl; [auto|]. destruct IH as [IH1 IH2]. split.
  - intros q n H. apply mkdir_one_keeps. now apply IH1.
  - intros q n H. apply mkdir_one_new in H. destruct H as [H | [H ->]].
    + now apply IH2.
    + right. split; [|reflexivity]. destruct (fs !! q) eqn:E; [|reflexivity].
      apply IH1 in E. congruence.
Qed.

Lemma ensureDirectory_keeps (h : Host) (now : Z) (dir : option string) (fs fs' : FS.t) r :
  ZT.ensureDirectory h now dir fs = (r, fs') ->
  (forall q n, fs !! q = Some n -> fs' !! q = Some n) /\
  (forall q n, fs' !! q = Some n -> fs !! q = Some n \/ (fs !! q = None /\ n = FS.Dir now)).
Proof.
  unfold ZT.ensureDirectory. destruct dir as [d|]; [|munfold; intros [= _ <-]; auto].
  unfold FS.io_makeDirectory. destruct (FS.is_dir (fs !! d)); [intros [= _ <-]; auto|].
  destruct (existsb _ _); [intros [= _ <-]; auto|]. intros [= _ <-].
  apply (mkdirs_keeps now (d :: FS.ancestors (ZT.getFolderSep h) d) fs).
Qed.

Lemma ensureDirectory_present (h : Host) (now : Z) (d : string) (fs : FS.t) :
  FS.is_dir (fs !! d) = true -> ZT.ensureDirectory h now (Some d) fs = (Ok tt, fs).
Proof. intros H. unfold ZT.ensureDirectory, FS.io_makeDirectory. now rewrite H. Qed.

(** [copyFile] without [overwrite], when it returns: the name it returns
    was free, and the only change besides the directories made for it is
    the new file there. *)
Lemma copyFile_new (h : Host) (now : Z) (src dest : string) (fs fs' : FS.t) (p : string) :
  ZT.copyFile h now src dest false fs = (Ok p, fs') ->
  exists fs1 m content,
    ZT.ensureDirectory h now (ZT.getParentDir h dest) fs = (Ok tt, fs1)
    /\ ZT.rename_loop fs1 dest dest 2 = Ok p
    /\ fs1 !! p = None
    /\ fs1 !! src = Some (FS.File m content)
    /\ fs' = <[p := FS.File now content]> fs1.
Proof.
  unfold ZT.copyFile. munfold.
  destruct (ZT.ensureDirectory h now (ZT.getParentDir h dest) fs) as [[[]|e] fs1] eqn:E1;
    [|discriminate].
  destruct (ZT.rename_loop fs1 dest dest 2) as [q|e] eqn:E2; [|discriminate].
  unfold FS.io_copy. destruct (fs1 !! src) as [[m content|m]|] eqn:E3; try discriminate.
  destruct (FS.is_dir (fs1 !! q)); [discriminate|]. intros [= <- <-].
  exists fs1, m, content. repeat split; auto. now apply rename_loop_free in E2.
Qed.

(** [copyFile] without [overwrite], when too many names are taken: no file
    is written; the file system is as [ensureDirectory] left it. *)
Lemma copyFile_too_many (h : Host) (now : Z) (src dest : string) (fs fs' : FS.t) :
  ZT.copyFile h now src dest false fs = (Throw TooManyFiles, fs') ->
  ZT.ensureDirectory h now (ZT.getParentDir h dest) fs = (Ok tt, fs')
  /\ ZT.rename_loop fs' dest dest 2 = Throw TooManyFiles.
Proof.
  unfold ZT.copyFile. munfold.
  destruct (ZT.ensureDirectory h now (ZT.getParentDir h dest) fs) as [[[]|e] fs1] eqn:E1.
  - destruct (ZT.rename_loop fs1 dest dest 2) as [q|e] eqn:E2.
    + unfold FS.io_copy. destruct (fs1 !! src) as [[m content|m]|]; try discriminate.
      destruct (FS.is_dir (fs1 !! q)); discriminate.
    + intros [= -> <-]. auto.
  - intros [= -> <-]. revert E1. unfold ZT.ensureDirectory, FS.io_makeDirectory. munfold.
    destruct (ZT.getParentDir h dest) as [d|]; [|discriminate].
    destruct (FS.is_dir _); [discriminate|]. destruct (existsb _ _); discriminate.
Qed.

Lemma moveFile_new (h : Host) (now : Z) (src dest : string) (fs fs' : FS.t) (p : string) :
  ZT.moveFile h now src dest fs = (Ok p, fs') ->
  exists fs1 m content,
    ZT.ensureDirectory h now (ZT.getParentDir h dest) fs = (Ok tt, fs1)
    /\ ZT.rename_loop fs1 dest dest 2 = Ok p
    /\ fs1 !! p = None
    /\ fs1 !! src = Some (FS.File m content)
    /\ fs' = <[p := FS.File m content]> (delete src fs1).
Proof.
  unfold ZT.moveFile. munfold.
  destruct (ZT.ensureDirectory h now (ZT.getParentDir h dest) fs) as [[[]|e] fs1] eqn:E1;
    [|discriminate].
  destruct (ZT.rename_loop fs1 dest dest 2) as [q|e] eqn:E2; [|discriminate].
  unfold FS.io_move. destruct (fs1 !! src) as [[m content|m]|] eqn:E3; try discriminate.
  destruct (FS.is_dir (fs1 !! q)); [discriminate|]. intros [= <- <-].
  exists fs1, m, content. repeat split; auto. now apply rename_loop_free in E2.
Qed.

(** Two files copied one after the other to the same destination end at
    two different paths, and both are there afterwards. *)
Lemma copyFile_twice_distinct (h : Host) (now1 now2 : Z) (src1 src2 dest : string)
    (fs fs1 fs2 : FS.t) (p1 p2 : string) :
  ZT.copyFile h now1 src1 dest false fs = (Ok p1, fs1) ->
  ZT.copyFile h now2 src2 dest false fs1 = (Ok p2, fs2) ->
  p1 <> p2 /\ FS.is_file (fs2 !! p1) = true /\ FS.is_file (fs2 !! p2) = true.
Proof.
  intros H1 H2.
  apply copyFile_new in H1 as (g1 & m1 & c1 & _ & _ & _ & _ & ->).
  apply copyFile_new in H2 as (g2 & m2 & c2 & He & _ & Hfree & _ & ->).
  apply ensureDirectory_keeps in He as [Hkeep _].
  assert (Hp1 : g2 !! p1 = Some (FS.File now1 c1)) by (apply Hkeep, lookup_insert_eq).
  assert (p1 <> p2) by (intros ->; congruence).
  split; [assumption|]. rewrite lookup_insert_ne, Hp1, lookup_insert_eq by auto. auto.
Qed.

(** C10.  [getFileModTime] returns an integer for every path and every
    file system: the time stamp of what is there, and 0 whenever the host
    fails to stat the path; the call leaves the file system as it is.  So a
    path that cannot be stat-ed is never newer than a recorded time stamp
    [T] that is not negative. *)
Theorem getFileModTime_total (path : string) (fs : FS.t)
    (other : Json.value -> option Z) (T : Z) :
  (0 <= T)%Z ->
  exists m : Z,
    ZT.getFileModTime path fs = (Ok m, fs)
    /\ (forall m', FS.io_stat path fs = (Ok m', fs) -> m = m')
    /\ (forall e, FS.io_stat path fs = (Throw e, fs) ->
          m = 0%Z /\ Json.gt other m (Some (Json.Num T)) = false)
    /\ (fs !! path = None -> m = 0%Z).
Proof.
  intros HT. unfold ZT.getFileModTime, FS.io_stat. munfold.
  destruct (fs !! path) as [n|] eqn:E.
  - exists (FS.node_mtime n). repeat split; try congruence.
  - exists 0%Z. repeat split; try congruence.
    unfold Json.gt, Json.to_number. destruct (Z.gtb_spec 0 T); [lia | reflexivity].
Qed.

Lemma getFileModTime_total_witness :
  (0 <= 1700000000000)%Z
  /\ ZT.getFileModTime "/tablet/gone.pdf" ∅ = (Ok 0%Z, ∅).
Proof.
  split; [lia|].
  destruct (getFileModTime_total "/tablet/gone.pdf" ∅ (fun _ => None) 1700000000000
              ltac:(lia)) as (m & Hm & _ & _ & H0).
  rewrite Hm. now rewrite (H0 eq_refl).
Defined.

(** A Unix host with [PathUtils] absent: entries whose name starts with a
    dot are hidden, every conflict prompt is cancelled. *)
Definition unix_host : Host :=
  mkHost false (fun p => String.prefix "." (Zotero.basename "/" p)) None
         "/zotero/storage" (fun _ => None) (fun _ => 1%Z).

(** A tablet folder that already holds [paper] and [Paper.PDF]. *)
Definition fs_taken : FS.t :=
  {[ "/tablet" := FS.Dir 1;
     "/tablet/paper" := FS.File 10 "first";
     "/tablet/Paper.PDF" := FS.File 10 "first";
     "/zotero/storage/K2/paper" := FS.File 20 "second";
     "/zotero/storage/K3/Paper.PDF" := FS.File 30 "third" ]}.

(** C4, at the failing inputs.  A destination without extension loses its
    last character and gains a dot: [paper] becomes [pape_2.], not
    [paper_2]; an extension is rewritten in lower case: [Paper.PDF] becomes
    [Paper_2.pdf].  [moveFile] shares the loop. *)
Theorem copyFile_without_extension :
  ZT.copyFile unix_host 100 "/zotero/storage/K2/paper" "/tablet/paper" false fs_taken
  = (Ok "/tablet/pape_2.", <["/tablet/pape_2." := FS.File 100 "second"]> fs_taken)
  /\ ZT.copyFile unix_host 100 "/zotero/storage/K3/Paper.PDF" "/tablet/Paper.PDF" false fs_taken
     = (Ok "/tablet/Paper_2.pdf", <["/tablet/Paper_2.pdf" := FS.File 100 "third"]> fs_taken)
  /\ fst (ZT.moveFile unix_host 100 "/zotero/storage/K2/paper" "/tablet/paper" fs_taken)
     = Ok "/tablet/pape_2.".
Proof. repeat split; vm_compute; reflexivity. Qed.

End PathFacts.

(** ** The sync record and the status checks *)

Module RecordFacts.
Import Zotero SyncManager.
Import PathFacts.

Lemma set_fs_same (w : World) : set_fs (fs w) w = w.
Proof. now destruct w. Qed.

Lemma liftFS_fileExists (p : string) (w : World) :
  liftFS (ZT.fileExists p) w = (Ok (FS.io_exists (fs w) p), w).
Proof. unfold liftFS, ZT.fileExists. munfold. now rewrite set_fs_same. Qed.

(** The time stamp [getFileModTime] reads at a path. *)
Definition mtime_at (f : gmap string FS.Node) (p : string) : Z :=
  match f !! p with
  | Some n => FS.node_mtime n
  | None => 0%Z
  end.

Lemma liftFS_getFileModTime (p : string) (w : World) :
  liftFS (ZT.getFileModTime p) w = (Ok (mtime_at (fs w) p), w).
Proof.
  unfold liftFS, ZT.getFileModTime, FS.io_stat, mtime_at. munfold.
  destruct (fs w !! p); now rewrite set_fs_same.
Qed.

Lemma lookup_set_field (k : string) (v : Json.value) (fields : list (string * Json.value)) :
  Json.lookup_field k (Json.set_field k v fields) = Some v.
Proof.
  induction fields as [|[k' v'] fields IH]; simpl.
  - now rewrite String.eqb_refl.
  - destruct (String.eqb k' k) eqn:E; simpl; [now rewrite String.eqb_refl | now rewrite E].
Qed.

(** The root as [getTabletInfo] uses it: the preference without its
    trailing slashes. *)
Definition current_root (w : World) : string :=
  Str.strip_trailing_slashes (JS.or_str (destDir (prefs w)) "").

(** What [getTabletInfo] makes of a parsed value. *)
Definition resolved (w : World) (v : Json.value) : option Json.value :=
  match v with
  | Json.Null => None
  | Json.Obj fields =>
      match Json.lookup_field "location" fields with
      | Some (Json.Str loc) =>
          if Str.nonempty loc
          then Some (Json.Obj (Json.set_field "location"
                       (Json.Str (Str.replace loc "[BaseFolder]" (current_root w))) fields))
          else Some v
      | Some x => if Json.truthy x then None else Some v
      | None => Some v
      end
  | _ => Some v
  end.

Lemma getTabletInfo_parsed (w : World) (a : nat) (v : Json.value) :
  data_element (note (item_of w a)) = Some (AttrText (Some v)) ->
  getTabletInfo w a = resolved w v.
Proof.
  intros H. unfold getTabletInfo, getTabletInfo_try, note_is_empty. rewrite H.
  rewrite andb_false_r. unfold resolve_location, resolved, current_root. munfold.
  destruct v as [|b|z|s|l|fields]; simpl; try reflexivity.
  destruct (Json.lookup_field "location" fields) as [[|b|z|s|l|fs']|]; simpl; try reflexivity.
  - now destruct b.
  - now destruct (negb (z =? 0)%Z).
  - now destruct (Str.nonempty s).
Qed.

Lemma getTabletInfo_absent (w : World) (a : nat) :
  (forall v, data_element (note (item_of w a)) <> Some (AttrText (Some v))) ->
  getTabletInfo w a = None.
Proof.
  intros H. unfold getTabletInfo, getTabletInfo_try.
  destruct (note_is_empty _); [reflexivity|].
  destruct (data_element (note (item_of w a))) as [[| |[v|]]|]; try reflexivity.
  now destruct (H v).
Qed.

(** A location that [getTabletInfo] returns and that is truthy is a
    non-empty string. *)
Lemma getTabletInfo_location (w : World) (a : nat) (info : Json.value) :
  getTabletInfo w a = Some info ->
  Json.truthy_opt (Json.field info "location") = true ->
  exists loc, Json.field info "location" = Some (Json.Str loc) /\ Str.nonempty loc = true.
Proof.
  intros H Ht.
  destruct (data_element (note (item_of w a))) as [[| |[v|]]|] eqn:E;
    try (rewrite getTabletInfo_absent in H; [discriminate | intros v' Hv'; congruence]).
  rewrite (getTabletInfo_parsed _ _ _ E) in H. unfold resolved in H.
  destruct v as [|b|z|s|l|fields]; try (injection H as <-; discriminate); [discriminate|].
  destruct (Json.lookup_field "location" fields) as [x|] eqn:L.
  - destruct x as [|b|z|s|l|fs']; simpl in H;
      try (injection H as <-; simpl in Ht; rewrite L in Ht; discriminate).
    + destruct b; [discriminate|]. injection H as <-. simpl in Ht. rewrite L in Ht. discriminate.
    + destruct (negb (z =? 0)%Z) eqn:Z0; [discriminate|]. injection H as <-.
      simpl in Ht. rewrite L in Ht. simpl in Ht. congruence.
    + destruct (Str.nonempty s) eqn:Ns.
      * injection H as <-. simpl in *. rewrite lookup_set_field in *. eauto.
      * injection H as <-. simpl in Ht. rewrite L in Ht. simpl in Ht. congruence.
    + discriminate.
    + discriminate.
  - injection H as <-. simpl in Ht. rewrite L in Ht. discriminate.
Qed.

Lemma nonempty_iff (s : string) : Str.nonempty s = true <-> s <> "".
Proof.
  unfold Str.nonempty. destruct (String.eqb_spec s ""); simpl; split; congruence.
Qed.

Lemma field_truthy (info : Json.value) (k : string) (x : Json.value) :
  Json.field info k = Some x -> Json.truthy info = true.
Proof. destruct info; simpl; congruence. Qed.

(** Whether the record of an attachment points to something that exists
    and is newer than the record says. *)
Definition external_newer (h : Host) (w : World) (a : nat) : bool :=
  match getTabletInfo w a with
  | Some info =>
      Json.truthy info &&
      match Json.field info "location" with
      | Some (Json.Str loc) =>
          Str.nonempty loc && FS.io_exists (fs w) loc
          && Json.gt (ToNumber_other h) (mtime_at (fs w) loc) (Json.field info "lastmod")
      | _ => false
      end
  | None => false
  end.

(** [isModified] only reads, and this is what it returns. *)
Lemma isModified_run (h : Host) (w : World) (a : nat) :
  isModified h a w = (Ok (isOnTablet w a && external_newer h w a), w).
Proof.
  unfold isModified, external_newer. munfold.
  destruct (isOnTablet w a) eqn:Hon; simpl; [|reflexivity].
  destruct (getTabletInfo w a) as [info|] eqn:Hinfo; simpl; [|reflexivity].
  destruct (Json.truthy info) eqn:Htr; simpl; [|reflexivity].
  destruct (Json.truthy_opt (Json.field info "location")) eqn:Hloc; simpl.
  - destruct (getTabletInfo_location _ _ _ Hinfo Hloc) as (loc & Hf & Hne).
    rewrite Hf, Hne. simpl. rewrite set_fs_same.
    destruct (FS.io_exists (fs w) loc) eqn:Hex; simpl; [|reflexivity].
    now rewrite liftFS_getFileModTime.
  - destruct (Json.field info "location") as [[|b|z|s|l|fs']|]; simpl in *;
      try reflexivity; try congruence. now rewrite Hloc.
Qed.

(** C6.  [isModified] always returns, and it returns [true] exactly when
    the attachment is tracked, its sync record is there with a location (a
    non-empty string), something exists at that location, and the time
    stamp observed there is strictly greater than the recorded [lastmod]
    (read as a number); in every other case it returns [false].  It changes
    nothing. *)
Theorem isModified_iff (h : Host) (w : World) (a : nat) :
  exists b : bool,
    isModified h a w = (Ok b, w)
    /\ (b = true <->
        isOnTablet w a = true
        /\ exists info loc n lm,
             getTabletInfo w a = Some info
             /\ Json.field info "location" = Some (Json.Str loc)
             /\ loc <> ""
             /\ fs w !! loc = Some n
             /\ Json.to_number (ToNumber_other h) (Json.field info "lastmod") = Some lm
             /\ (lm < FS.node_mtime n)%Z).
Proof.
  unfold isModified. munfold.
  destruct (isOnTablet w a) eqn:Hon; simpl.
  2: { exists false. split; [reflexivity|]. split; [discriminate | intros [? _]; discriminate]. }
  destruct (getTabletInfo w a) as [info|] eqn:Hinfo; simpl.
  2: { exists false. split; [reflexivity|]. split; [discriminate|].
       intros (_ & ? & ? & ? & ? & ? & _). discriminate. }
  destruct (Json.truthy info) eqn:Htr; simpl.
  2: { exists false. split; [reflexivity|]. split; [discriminate|].
       intros (_ & i & loc & n & lm & [= <-] & Hf & _).
       apply field_truthy in Hf. congruence. }
  destruct (Json.truthy_opt (Json.field info "location")) eqn:Hloc; simpl.
  2: { exists false. split; [reflexivity|]. split; [discriminate|].
       intros (_ & i & loc & n & lm & [= <-] & Hf & Hne & _).
       rewrite Hf in Hloc. simpl in Hloc. apply nonempty_iff in Hne. congruence. }
  destruct (getTabletInfo_location _ _ _ Hinfo Hloc) as (loc & Hf & Hne).
  rewrite Hf. simpl. rewrite set_fs_same.
  destruct (FS.io_exists (fs w) loc) eqn:Hex; simpl.
  2: { exists false. split; [reflexivity|]. split; [discriminate|].
       intros (_ & i & loc' & n & lm & [= <-] & Hf' & _ & Hn & _).
       rewrite Hf in Hf'. injection Hf' as <-. unfold FS.io_exists in Hex.
       apply bool_decide_eq_false in Hex. destruct Hex. eauto. }
  rewrite liftFS_getFileModTime. eexists. split; [reflexivity|].
  unfold FS.io_exists in Hex. apply bool_decide_eq_true in Hex. destruct Hex as [n Hn].
  unfold Json.gt, mtime_at. rewrite Hn.
  destruct (Json.to_number (ToNumber_other h) (Json.field info "lastmod")) as [lm|] eqn:Hlm.
  - split.
    + intros Hgt. split; [reflexivity|]. exists info, loc, n, lm.
      repeat split; auto; [now apply nonempty_iff | lia].
    + intros (_ & i & loc' & n' & lm' & [= <-] & Hf' & _ & Hn' & Hlm' & Hlt).
      rewrite Hf in Hf'. injection Hf' as <-. rewrite Hn in Hn'. injection Hn' as <-.
      rewrite Hlm in Hlm'. injection Hlm' as <-. lia.
  - split; [discriminate|].
    intros (_ & i & loc' & n' & lm' & [= <-] & _ & _ & _ & Hlm' & _). congruence.
Qed.

(** *** Malformed records *)

(** A well-formed sync record: an object with a string [location] and a
    numeric [lastmod]. *)
Definition is_sync_record (v : Json.value) : bool :=
  match v with
  | Json.Obj fields =>
      match Json.lookup_field "location" fields, Json.lookup_field "lastmod" fields with
      | Some (Json.Str _), Some (Json.Num _) => true
      | _, _ => false
      end
  | _ => false
  end.

(** An attachment whose data element holds the text [5]. *)
Definition world_with_blob (v : Json.value) : World :=
  mkWorld ∅
    {[ 1 := mkItem true None {[ "_tablet" ]} (mkNote "" (Some (AttrText (Some v))))
                   None "K1" [] None "" "" "" ]}
    (mkPrefs (Some "/tablet") None false false None None None true) 0 [].

(** C7 as stated fails: a blob that parses to the number 5 is no sync
    record, and [getTabletInfo] returns it instead of [null]. *)
Lemma getTabletInfo_malformed_counterexample :
  is_sync_record (Json.Num 5) = false
  /\ getTabletInfo (world_with_blob (Json.Num 5)) 1 = Some (Json.Num 5)
  /\ getTabletInfo (world_with_blob (Json.Str "junk")) 1 = Some (Json.Str "junk")
  /\ getTabletInfo (world_with_blob (Json.Obj [])) 1 = Some (Json.Obj []).
Proof. repeat split; vm_compute; reflexivity. Qed.

(** C7, amended.  [getTabletInfo] never throws: whatever the [try] block
    throws ends as [null].  It returns [null] when the data element or its
    attribute is absent or empty, when the text is not JSON, when it is the
    JSON [null], and when its [location] is truthy and not a string.  Any
    other parsed value is returned as parsed, with the placeholder of a
    non-empty string [location] resolved, whether or not it has the fields
    of a sync record. *)
Theorem getTabletInfo_total (w : World) (a : nat) :
  (forall e, getTabletInfo_try w (note (item_of w a)) = Throw e -> getTabletInfo w a = None)
  /\ ((forall v, data_element (note (item_of w a)) <> Some (AttrText (Some v))) ->
      getTabletInfo w a = None)
  /\ (forall v, data_element (note (item_of w a)) = Some (AttrText (Some v)) ->
      getTabletInfo w a = resolved w v
      /\ (v = Json.Null -> getTabletInfo w a = None)
      /\ (forall fields x, v = Json.Obj fields ->
            Json.lookup_field "location" fields = Some x ->
            Json.truthy x = true -> (forall s, x <> Json.Str s) ->
            getTabletInfo w a = None)
      /\ (forall fields loc, v = Json.Obj fields ->
            Json.lookup_field "location" fields = Some (Json.Str loc) -> loc <> "" ->
            getTabletInfo w a
            = Some (Json.Obj (Json.set_field "location"
                      (Json.Str (Str.replace loc "[BaseFolder]" (current_root w))) fields)))
      /\ (v <> Json.Null -> Json.truthy_opt (Json.field v "location") = false ->
            getTabletInfo w a = Some v)).
Proof.
  split; [|split].
  - intros e He. unfold getTabletInfo. rewrite He. now destruct (note_is_empty _).
  - apply getTabletInfo_absent.
  - intros v Hv. rewrite (getTabletInfo_parsed _ _ _ Hv). split; [reflexivity|].
    split; [now intros ->|]. split; [|split].
    + intros fields x -> Hx Ht Hns. simpl. rewrite Hx.
      destruct x; try (now rewrite Ht). now destruct (Hns s).
    + intros fields loc -> Hl Hne. simpl. rewrite Hl.
      apply nonempty_iff in Hne. now rewrite Hne.
    + intros Hnn Hf. destruct v as [|b|z|s|l|fields]; try reflexivity; [congruence|].
      simpl in *. destruct (Json.lookup_field "location" fields) as [x|]; [|reflexivity].
      simpl in Hf. destruct x; simpl in *; try congruence; now rewrite Hf.
Qed.

End RecordFacts.

(** ** Tags *)

Module TagFacts.
Import Zotero SyncManager.

Lemma item_of_update (id id' : nat) (f : Item -> Item) (w : World) :
  item_of (update_item id f w) id' =
  if decide (id = id') then f (item_of w id) else item_of w id'.
Proof.
  unfold item_of, update_item, set_items. simpl.
  destruct (decide (id = id')) as [->|Hne].
  - now rewrite lookup_insert_eq.
  - now rewrite lookup_insert_ne.
Qed.

Lemma hasTag_addTag (id : nat) (t : string) (w : World) (id' : nat) (t' : string) :
  hasTag (addTag id t w) id' t' =
  if decide (id = id') then bool_decide (t' = t) || hasTag w id' t' else hasTag w id' t'.
Proof.
  unfold hasTag, addTag. rewrite item_of_update.
  destruct (decide (id = id')) as [->|]; [|reflexivity]. simpl.
  rewrite <- bool_decide_or. apply bool_decide_ext. set_solver.
Qed.

Lemma hasTag_removeTag (id : nat) (t : string) (w : World) (id' : nat) (t' : string) :
  hasTag (removeTag id t w) id' t' =
  if decide (id = id') then negb (bool_decide (t' = t)) && hasTag w id' t' else hasTag w id' t'.
Proof.
  unfold hasTag, removeTag. rewrite item_of_update.
  destruct (decide (id = id')) as [->|]; [|reflexivity]. simpl.
  rewrite <- bool_decide_not, <- bool_decide_and. apply bool_decide_ext.
  rewrite elem_of_difference, elem_of_singleton. tauto.
Qed.

Lemma getTags_addTag (id : nat) (t : string) (w : World) : getTags (addTag id t w) = getTags w.
Proof. reflexivity. Qed.

Lemma getTags_removeTag (id : nat) (t : string) (w : World) :
  getTags (removeTag id t w) = getTags w.
Proof. reflexivity. Qed.

Lemma getTags_addTabletTag (a : nat) (tag : string) (w : World) :
  getTags (addTabletTag a tag w) = getTags w.
Proof.
  unfold addTabletTag. destruct (Items_get _ _); [|reflexivity].
  now destruct (negb _).
Qed.

(** The tag that [addTabletTag] takes off when it puts [tag] on. *)
Definition otherTag (w : World) (tag : string) : string :=
  if String.eqb tag (onTablet (getTags w)) then modified (getTags w) else onTablet (getTags w).

(** After [addTabletTag] the attachment has the tag, and it does not have
    the other one as soon as the two differ. *)
Lemma addTabletTag_attachment (a : nat) (tag : string) (w : World) :
  tag <> otherTag w tag ->
  hasTag (addTabletTag a tag w) a tag = true
  /\ hasTag (addTabletTag a tag w) a (otherTag w tag) = false.
Proof.
  intros Hne. unfold addTabletTag. fold (otherTag w tag).
  set (o := otherTag w tag) in *.
  set (w1 := removeTag a o (addTag a tag w)).
  assert (H1 : hasTag w1 a tag = true /\ hasTag w1 a o = false).
  { unfold w1. rewrite !hasTag_removeTag, !hasTag_addTag.
    destruct (decide (a = a)); [|congruence].
    rewrite (bool_decide_eq_false_2 (tag = o)) by exact Hne.
    rewrite (bool_decide_eq_true_2 (tag = tag)) by reflexivity.
    rewrite (bool_decide_eq_true_2 (o = o)) by reflexivity. auto. }
  destruct H1 as [Ht Ho].
  destruct (Items_get w1 (parentItemID (item_of w1 a))) as [p|]; [|auto].
  set (w2 := addTag p tag w1).
  assert (H2 : hasTag w2 a tag = true /\ hasTag w2 a o = false).
  { unfold w2. rewrite !hasTag_addTag. destruct (decide (p = a)); [|auto].
    rewrite Ht, Ho, orb_true_r, orb_false_r.
    rewrite (bool_decide_eq_false_2 (o = tag)) by congruence. auto. }
  destruct H2 as [Ht2 Ho2].
  destruct (negb (other_sibling_has w2 p a o)); [|auto].
  rewrite !hasTag_removeTag. destruct (decide (p = a)); [|auto].
  rewrite Ht2, Ho2, andb_true_r, andb_false_r.
  rewrite (bool_decide_eq_false_2 (tag = o)) by exact Hne. auto.
Qed.

Lemma otherTag_differs (w : World) (tag : string) :
  onTablet (getTags w) <> modified (getTags w) ->
  tag = onTablet (getTags w) \/ tag = modified (getTags w) ->
  tag <> otherTag w tag.
Proof.
  intros Hne Htag. unfold otherTag.
  destruct (String.eqb_spec tag (onTablet (getTags w))); destruct Htag; congruence.
Qed.





End TagFacts.

(** ** The base-folder placeholder *)

Module PlaceholderFacts.
Import Zotero SyncManager.

Lemma prefix_app (p s : string) : String.prefix p (p ++ s) = true.
Proof.
  induction p as [|c p IH]; simpl; [now destruct s|].
  destruct (Ascii.ascii_dec c c); [exact IH | congruence].
Qed.

Lemma sdrop_app (p s : string) : Str.sdrop (String.length p) (p ++ s) = s.
Proof. induction p as [|c p IH]; simpl; [reflexivity | exact IH]. Qed.

Lemma split_at_first_prefix (p s : string) : Str.split_at_first p (p ++ s) = Some ("", s).
Proof.
  pose proof (prefix_app p s) as Hp. pose proof (sdrop_app p s) as Hd.
  destruct p as [|c p]; simpl in *; [now destruct s|].
  now rewrite Hp, Hd.
Qed.

(** A replacement text without dollar is taken as it is. *)
Lemma get_substitution_plain (m b a rep : string) :
  Str.contains "$" rep = false -> Str.get_substitution m b a rep = rep.
Proof.
  induction rep as [|c rep IH]; simpl; [reflexivity|].
  intros H. apply orb_false_elim in H as [Hc Hrest].
  rewrite Hc. now rewrite IH.
Qed.

Lemma replace_prefix (p s rep : string) :
  Str.contains "$" rep = false -> Str.replace (p ++ s) p rep = (rep ++ s)%string.
Proof.
  intros H. unfold Str.replace. rewrite split_at_first_prefix.
  now rewrite get_substitution_plain.
Qed.

(** Where the scheme works: when the path written starts with the root as
    it is configured, the record holds the placeholder and the rest; and when
    the root read back has no dollar in it, the record resolves to the rest
    under that root. *)
Lemma placeholder_relocation (root1 root2 rest : string) :
  Str.contains "$" (Str.strip_trailing_slashes root2) = false ->
  Str.replace (root1 ++ rest) root1 "[BaseFolder]" = ("[BaseFolder]" ++ rest)%string
  /\ Str.replace (Str.replace (root1 ++ rest) root1 "[BaseFolder]") "[BaseFolder]"
       (Str.strip_trailing_slashes root2)
     = (Str.strip_trailing_slashes root2 ++ rest)%string.
Proof.
  intros H. rewrite (replace_prefix root1 rest "[BaseFolder]") by reflexivity.
  split; [reflexivity|]. now apply replace_prefix.
Qed.

(** A library with one PDF and the tablet folder configured with a
    trailing separator. *)
Definition world_slash_root : World :=
  mkWorld
    {[ "/zotero/storage/K1/paper.pdf" := FS.File 50 "pdf"; "/tablet" := FS.Dir 1 ]}
    {[ 1 := mkItem true (Some 10) ∅ (mkNote "" None)
                   (Some "/zotero/storage/K1/paper.pdf") "K1" [] None "" "" "";
       10 := mkItem false None ∅ (mkNote "" None) None "P1" [1] None "" "" "" ]}
    (mkPrefs (Some "/tablet/") None false false None None None true) 100 [].

(** The world after the PDF is sent. *)
Definition world_slash_sent : World :=
  match sendToTablet PathFacts.unix_host [1] "" world_slash_root with
  | Some (_, w) => w
  | None => world_slash_root
  end.

(** The same world after the tablet folder is moved to [/mnt/reader] and
    the preference follows. *)
Definition world_slash_moved : World :=
  mkWorld
    {[ "/zotero/storage/K1/paper.pdf" := FS.File 50 "pdf";
       "/mnt/reader" := FS.Dir 1;
       "/mnt/reader/paper.pdf" := FS.File 100 "pdf" ]}
    (items world_slash_sent)
    (mkPrefs (Some "/mnt/reader") None false false None None None true) 200 [].

(** C2, at the failing input.  With the root configured as [/tablet/] the
    file is written to [/tablet/paper.pdf], the record holds
    [[BaseFolder]paper.pdf], without the separator, and it resolves to
    [/tabletpaper.pdf] under the same root and to [/mnt/readerpaper.pdf]
    after the relocation: retrieve does not find the file, clears the
    tracking and leaves the tablet copy where it is. *)
Theorem trailing_separator_root_loses_file :
  option_map fst (sendToTablet PathFacts.unix_host [1] "" world_slash_root)
  = Some (Some (mkSummary 1 []))
  /\ FS.is_file (fs world_slash_sent !! "/tablet/paper.pdf") = true
  /\ data_element (note (item_of world_slash_sent 1))
     = Some (AttrText (Some (Json.Obj
         [("location", Json.Str "[BaseFolder]paper.pdf"); ("lastmod", Json.Num 100);
          ("mode", Json.Num 1); ("projectFolder", Json.Str "")])))
  /\ (getTabletInfo world_slash_sent 1 ≫= fun i => Json.field i "location")
     = Some (Json.Str "/tabletpaper.pdf")
  /\ (getTabletInfo world_slash_moved 1 ≫= fun i => Json.field i "location")
     = Some (Json.Str "/mnt/readerpaper.pdf")
  /\ fst (getTabletFilePath 1 world_slash_moved) = Ok None
  /\ option_map (fun r => (option_map cleaned (fst r), fs (snd r)))
       (getFromTablet PathFacts.unix_host [1] true world_slash_moved)
     = Some (Some [1], fs world_slash_moved).
Proof. repeat split; vm_compute; reflexivity. Qed.

End PlaceholderFacts.

(** ** Batches of processors that only read *)

Module ReadFacts.
Import Zotero SyncManager.

Lemma run_chunk_pure {I R : Type} (af nm : I -> World -> option string)
    (processor : I -> M World R) (f : I -> R) (items : list I) (w : World) :
  (forall a, processor a w = (Ok (f a), w)) ->
  Batch.run_chunk af nm (fun _ => None) (fun _ => None) processor items w
  = (List.map (fun a => Batch.Done true a (f a)) items, w).
Proof.
  intros H. induction items as [|a items IH]; simpl; [reflexivity|].
  unfold Batch.wrap. rewrite H. simpl. now rewrite IH.
Qed.

Lemma filter_done {I R : Type} (f : I -> R) (items : list I) :
  List.filter Batch.entry_success (List.map (fun a => Batch.Done true a (f a)) items)
  = List.map (fun a => Batch.Done true a (f a)) items
  /\ List.filter (fun e => negb (Batch.entry_success e))
       (List.map (fun a => Batch.Done true a (f a)) items) = [].
Proof.
  induction items as [|a items [IH1 IH2]]; simpl; [auto|]. now rewrite IH1, IH2.
Qed.

Lemma results_of_done {I R : Type} (f : I -> R) (items : list I) :
  results_of (List.map (fun a => Batch.Done true a (f a)) items) = List.map f items.
Proof.
  unfold results_of. induction items as [|a items IH]; [reflexivity|].
  simpl. f_equal. exact IH.
Qed.

(** A batch over attachments with a processor that returns [f a] and
    leaves the world alone returns these results, in order, and no error. *)
Lemma batch_attachments_pure {R : Type} (h : Host) (processor : nat -> M World R)
    (f : nat -> R) (atts : list nat) (w : World) :
  (forall a, processor a w = (Ok (f a), w)) ->
  exists acc,
    batch_attachments h atts processor w = Some (acc, w)
    /\ results_of (Batch.successes acc) = List.map f atts
    /\ Batch.errors acc = [].
Proof.
  intros H. unfold batch_attachments.
  rewrite BatchFacts.processInBatches_run by reflexivity.
  rewrite (run_chunk_pure _ _ _ f _ _ H). simpl. eexists. split; [reflexivity|].
  rewrite BatchFacts.collect_spec. simpl.
  destruct (filter_done f atts) as [-> ->]. split; [apply results_of_done | reflexivity].
Qed.

End ReadFacts.

(** ** Check modifications *)

Module CheckFacts.
Import Zotero SyncManager.
Import RecordFacts TagFacts ReadFacts.

(** Two items that differ at most in their tags. *)
Definition same_but_tags (i j : Item) : Prop := with_tags ∅ i = with_tags ∅ j.

(** [w'] is [w] with some tags changed: the preferences, the file system
    and all of every item but its tags are the same. *)
Definition only_tags (w w' : World) : Prop :=
  prefs w' = prefs w /\ fs w' = fs w
  /\ forall id, same_but_tags (item_of w' id) (item_of w id).

Lemma same_but_tags_note (i j : Item) : same_but_tags i j -> note i = note j.
Proof. intros H. exact (f_equal note H). Qed.

Lemma same_but_tags_parent (i j : Item) : same_but_tags i j -> parentItemID i = parentItemID j.
Proof. intros H. exact (f_equal parentItemID H). Qed.

Lemma only_tags_refl (w : World) : only_tags w w.
Proof. repeat split. Qed.

Lemma only_tags_trans (w1 w2 w3 : World) :
  only_tags w1 w2 -> only_tags w2 w3 -> only_tags w1 w3.
Proof.
  intros (Hp & Hf & Hi) (Hp' & Hf' & Hi'). split; [congruence|]. split; [congruence|].
  intros id. unfold same_but_tags in *. now rewrite Hi', Hi.
Qed.

Lemma only_tags_update (id : nat) (t : gset string -> gset string) (w : World) :
  only_tags w (update_item id (fun i => with_tags (t (tags i)) i) w).
Proof.
  repeat split. intros id'. rewrite item_of_update.
  destruct (decide (id = id')) as [->|]; reflexivity.
Qed.

Lemma only_tags_addTabletTag (a : nat) (tag : string) (w : World) :
  only_tags w (addTabletTag a tag w).
Proof.
  unfold addTabletTag.
  set (o := if String.eqb tag _ then _ else _).
  assert (H1 : only_tags w (removeTag a o (addTag a tag w))).
  { eapply only_tags_trans;
      [apply (only_tags_update a (fun T => {[tag]} ∪ T)) | apply (only_tags_update a (fun T => T ∖ {[o]}))]. }
  destruct (Items_get _ _) as [p|]; [|exact H1].
  assert (H2 : only_tags w (addTag p tag (removeTag a o (addTag a tag w)))).
  { eapply only_tags_trans; [exact H1 | apply (only_tags_update p (fun T => {[tag]} ∪ T))]. }
  destruct (negb _); [|exact H2].
  eapply only_tags_trans; [exact H2 | apply (only_tags_update p (fun T => T ∖ {[o]}))].
Qed.

Lemma Items_get_Some (w : World) (x : option nat) (p : nat) :
  Items_get w x = Some p -> x = Some p.
Proof.
  unfold Items_get. destruct x as [i|]; [|discriminate].
  destruct (bool_decide _); congruence.
Qed.

(** [addTabletTag] touches the attachment and its parent, nothing else. *)
Lemma addTabletTag_others (a : nat) (tag : string) (w : World) (id : nat) :
  id <> a -> parentItemID (item_of w a) <> Some id ->
  item_of (addTabletTag a tag w) id = item_of w id.
Proof.
  intros Hne Hpar. unfold addTabletTag.
  set (o := if String.eqb tag _ then _ else _).
  set (w1 := removeTag a o (addTag a tag w)).
  assert (H1 : forall i, i <> a -> item_of w1 i = item_of w i).
  { intros i Hi. unfold w1, removeTag, addTag. rewrite !item_of_update.
    destruct (decide (a = i)); congruence. }
  assert (Hp : parentItemID (item_of w1 a) = parentItemID (item_of w a)).
  { unfold w1, removeTag, addTag. rewrite !item_of_update.
    destruct (decide (a = a)); [reflexivity | congruence]. }
  destruct (Items_get w1 (parentItemID (item_of w1 a))) as [p|] eqn:E; [|now apply H1].
  apply Items_get_Some in E. rewrite Hp in E.
  assert (p <> id) by congruence.
  destruct (negb _); unfold removeTag, addTag; rewrite !item_of_update;
    destruct (decide (p = id)); try congruence; now apply H1.
Qed.

(** The other tag is off the attachment afterwards, whatever the tags
    are, when the attachment is not its own parent. *)
Lemma addTabletTag_other_off (a : nat) (tag : string) (w : World) :
  parentItemID (item_of w a) <> Some a ->
  hasTag (addTabletTag a tag w) a (otherTag w tag) = false.
Proof.
  intros Hpar. unfold addTabletTag. fold (otherTag w tag).
  set (o := otherTag w tag).
  set (w1 := removeTag a o (addTag a tag w)).
  assert (H1 : hasTag w1 a o = false).
  { unfold w1. rewrite hasTag_removeTag. destruct (decide (a = a)); [|congruence].
    now rewrite (bool_decide_eq_true_2 (o = o)) by reflexivity. }
  assert (Hp : parentItemID (item_of w1 a) = parentItemID (item_of w a)).
  { unfold w1, removeTag, addTag. rewrite !item_of_update.
    destruct (decide (a = a)); [reflexivity | congruence]. }
  destruct (Items_get w1 (parentItemID (item_of w1 a))) as [p|] eqn:E; [|exact H1].
  apply Items_get_Some in E. rewrite Hp in E.
  assert (p <> a) by congruence.
  destruct (negb _); rewrite ?hasTag_removeTag, ?hasTag_addTag;
    destruct (decide (p = a)); try congruence; exact H1.
Qed.

Lemma getTabletInfo_only_tags (w w' : World) (a : nat) :
  only_tags w w' -> getTabletInfo w' a = getTabletInfo w a.
Proof.
  intros (Hp & _ & Hi). unfold getTabletInfo.
  rewrite (same_but_tags_note _ _ (Hi a)).
  unfold getTabletInfo_try, resolve_location. now rewrite Hp.
Qed.

Lemma external_newer_only_tags (h : Host) (w w' : World) (a : nat) :
  only_tags w w' -> external_newer h w' a = external_newer h w a.
Proof.
  intros H. unfold external_newer. rewrite (getTabletInfo_only_tags _ _ _ H).
  destruct H as (_ & Hf & _). now rewrite Hf.
Qed.

Lemma getTags_only_tags (w w' : World) : only_tags w w' -> getTags w' = getTags w.
Proof. intros (Hp & _). unfold getTags. now rewrite Hp. Qed.

(** *** The two phases *)

(** What [checkMod] returns for an attachment. *)
Definition check_of (h : Host) (w : World) (a : nat) : CheckResult :=
  let m := isOnTablet w a && external_newer h w a in
  let t := hasTag w a (modified (getTags w)) in
  mkCheckResult a m t ((m && negb t) || (negb m && t)).

Lemma checkMod_run (h : Host) (w : World) (a : nat) :
  checkMod h a w = (Ok (check_of h w a), w).
Proof.
  unfold checkMod. PathFacts.munfold. now rewrite isModified_run.
Qed.

Lemma check_results_run (h : Host) (atts : list nat) (w : World) :
  check_results h atts w
  = Some (List.map (check_of h w) (List.filter (isOnTablet w) atts), w).
Proof.
  unfold check_results.
  destruct (batch_attachments_pure h (checkMod h) (check_of h w)
              (List.filter (isOnTablet w) atts) w (checkMod_run h w))
    as (acc & -> & -> & _). reflexivity.
Qed.

(** An attachment is settled in [w'] when its modified marker says what
    [isModified] finds: a second check has nothing to update. *)
Definition settled (h : Host) (w w' : World) (a : nat) : Prop :=
  isOnTablet w' a && external_newer h w a = hasTag w' a (modified (getTags w)).

(** The listed items are attachments, and the parent of an attachment is a
    regular item, as in every Zotero library. *)
Definition library_ok (w : World) (atts : list nat) : Prop :=
  forall a, In a atts ->
    isAttachment (item_of w a) = true
    /\ forall p, parentItemID (item_of w a) = Some p -> isAttachment (item_of w p) = false.

Lemma settled_same_item (h : Host) (w w1 w2 : World) (a : nat) :
  prefs w2 = prefs w1 -> item_of w2 a = item_of w1 a ->
  settled h w w1 a -> settled h w w2 a.
Proof.
  unfold settled, isOnTablet, hasTag, getTags. intros -> ->. auto.
Qed.

(** An update settles the attachment it is made for. *)
Lemma apply_check_settles (h : Host) (w w' : World) (b : nat) (n : Z) :
  only_tags w w' -> isOnTablet w b = true ->
  parentItemID (item_of w b) <> Some b ->
  cr_needsUpdate (check_of h w b) = true ->
  settled h w (snd (apply_check (check_of h w b) (n, w'))) b.
Proof.
  intros Hot Hon Hpar Hneed.
  pose proof (getTags_only_tags _ _ Hot) as Hg.
  assert (Hpar' : parentItemID (item_of w' b) <> Some b).
  { destruct Hot as (_ & _ & Hi). now rewrite (same_but_tags_parent _ _ (Hi b)). }
  unfold apply_check. rewrite Hneed.   unfold check_of in *. cbn [cr_needsUpdate cr_isModified cr_hasModifiedTag cr_attachment negb] in *.
  rewrite Hon in *. cbn [andb] in *. unfold settled.
  destruct (external_newer h w b) eqn:E;
    destruct (hasTag w b (modified (getTags w))) eqn:T; cbn [andb orb negb snd] in *;
    try discriminate.
  - (* modified on the tablet, not yet marked *)
    assert (Hne : onTablet (getTags w) <> modified (getTags w)).
    { intros Heq. unfold isOnTablet in Hon. rewrite Heq, T in Hon. discriminate. }
    assert (Hto : modified (getTags w') <> otherTag w' (modified (getTags w'))).
    { apply otherTag_differs; rewrite Hg; auto. }
    destruct (addTabletTag_attachment b _ w' Hto) as [Ht _].
    rewrite Hg in Ht. unfold isOnTablet.
    rewrite getTags_addTabletTag, Hg, Ht. now rewrite orb_true_r.
  - (* marked, and not modified *)
    pose proof (addTabletTag_other_off b (onTablet (getTags w')) w' Hpar') as Ho.
    unfold otherTag in Ho. rewrite String.eqb_refl, Hg in Ho.
    rewrite Hg, Ho. now rewrite andb_false_r.
Qed.

(** What an item that is not updated keeps. *)
Lemma apply_check_others (h : Host) (w w' : World) (b a : nat) (n : Z) :
  only_tags w w' -> a <> b -> parentItemID (item_of w b) <> Some a ->
  item_of (snd (apply_check (check_of h w b) (n, w'))) a = item_of w' a.
Proof.
  intros Hot Hne Hpar.
  assert (Hpar' : parentItemID (item_of w' b) <> Some a).
  { destruct Hot as (_ & _ & Hi). now rewrite (same_but_tags_parent _ _ (Hi b)). }
  unfold apply_check. cbn [cr_needsUpdate cr_isModified cr_hasModifiedTag cr_attachment check_of].
  repeat (match goal with |- context [if ?c then _ else _] => destruct c end);
    simpl; auto using addTabletTag_others.
Qed.

Lemma apply_check_only_tags (h : Host) (w w' : World) (b : nat) (n : Z) :
  only_tags w w' -> only_tags w (snd (apply_check (check_of h w b) (n, w'))).
Proof.
  intros Hot. unfold apply_check.
  repeat (match goal with |- context [if ?c then _ else _] => destruct c end);
    simpl; auto; eapply only_tags_trans; eauto using only_tags_addTabletTag.
Qed.

Lemma isOnTablet_same_item (w w' : World) (a : nat) :
  prefs w' = prefs w -> tags (item_of w' a) = tags (item_of w a) ->
  isOnTablet w' a = isOnTablet w a
  /\ hasTag w' a (modified (getTags w)) = hasTag w a (modified (getTags w)).
Proof. unfold isOnTablet, hasTag, getTags. intros -> ->. auto. Qed.

(** An attachment whose tags are as they were and that needed no update
    is settled. *)
Lemma settled_untouched (h : Host) (w w' : World) (a : nat) :
  only_tags w w' -> tags (item_of w' a) = tags (item_of w a) ->
  (cr_needsUpdate (check_of h w a) = true -> isOnTablet w a = true -> False) ->
  settled h w w' a.
Proof.
  intros (Hp & _) Ht Hno. unfold settled.
  destruct (isOnTablet_same_item w w' a Hp Ht) as [-> ->].
  unfold check_of in Hno. cbn [cr_needsUpdate] in Hno.
  destruct (isOnTablet w a) eqn:Hon.
  - destruct (external_newer h w a), (hasTag w a (modified (getTags w)));
      simpl in *; auto; now destruct Hno.
  - unfold isOnTablet in Hon. apply orb_false_elim in Hon as [_ ->]. reflexivity.
Qed.

Lemma apply_check_skip (r : CheckResult) (st : Z * World) :
  cr_needsUpdate r = false -> apply_check r st = st.
Proof. intros H. unfold apply_check. destruct st. now rewrite H. Qed.

(** The loop over the check results leaves every listed attachment
    settled: the ones it updates by the update, the others because they
    needed none. *)
Lemma apply_checks_settle (h : Host) (w : World) (atts : list nat) :
  library_ok w atts ->
  forall (rest : list nat) (n : Z) (w' : World),
    (forall b, In b rest -> In b atts /\ isOnTablet w b = true) ->
    only_tags w w' ->
    (forall a, In a atts ->
       settled h w w' a
       \/ (tags (item_of w' a) = tags (item_of w a)
           /\ (cr_needsUpdate (check_of h w a) = true -> isOnTablet w a = true -> In a rest))) ->
    only_tags w (snd (fold_left (fun st r => apply_check r st)
                        (List.map (check_of h w) rest) (n, w')))
    /\ forall a, In a atts ->
         settled h w (snd (fold_left (fun st r => apply_check r st)
                             (List.map (check_of h w) rest) (n, w'))) a.
Proof.
  intros Hlib rest. induction rest as [|b rest IH]; intros n w' Hrest Hot Hinv.
  - simpl. split; [exact Hot|]. intros a Ha.
    destruct (Hinv a Ha) as [Hs | [Ht Hp]]; [exact Hs|].
    apply settled_untouched; auto.
  - cbn [List.map fold_left].
    destruct (Hrest b (or_introl eq_refl)) as [Hb Hon].
    destruct (Hlib b Hb) as [Hatt Hparent].
    assert (Hself : parentItemID (item_of w b) <> Some b).
    { intros Hp. apply Hparent in Hp. congruence. }
    pose proof (apply_check_only_tags h w w' b n Hot) as Hot1.
    destruct (apply_check (check_of h w b) (n, w')) as [n1 w1] eqn:E.
    cbn [snd] in Hot1. apply IH; [intros; apply Hrest; now right | exact Hot1 |].
    intros a Ha. destruct (Nat.eq_dec a b) as [->|Hne].
    + destruct (cr_needsUpdate (check_of h w b)) eqn:Hneed.
      * left. pose proof (apply_check_settles h w w' b n Hot Hon Hself Hneed) as Hs.
        now rewrite E in Hs.
      * rewrite apply_check_skip in E by exact Hneed. injection E as <- <-.
        destruct (Hinv b Ha) as [Hs | [Ht Hp]]; [now left | right].
        split; [exact Ht | intros; congruence].
    + assert (Hpa : parentItemID (item_of w b) <> Some a).
      { intros Hp. apply Hparent in Hp. destruct (Hlib a Ha). congruence. }
      pose proof (apply_check_others h w w' b a n Hot Hne Hpa) as Hsame.
      rewrite E in Hsame. cbn [snd] in Hsame.
      assert (Hprefs : prefs w1 = prefs w').
      { destruct Hot as (Hp0 & _), Hot1 as (Hp1 & _). congruence. }
      destruct (Hinv a Ha) as [Hs | [Ht Hp]].
      * left. eapply settled_same_item; eauto.
      * right. split; [now rewrite Hsame|]. intros Hn Ho.
        destruct (Hp Hn Ho) as [<- | Hin]; [congruence | exact Hin].
Qed.

(** What a settled attachment gets at the next check. *)
Lemma settled_no_update (h : Host) (w w1 : World) (a : nat) :
  only_tags w w1 -> settled h w w1 a -> cr_needsUpdate (check_of h w1 a) = false.
Proof.
  intros Hot Hs. unfold check_of. cbn [cr_needsUpdate].
  rewrite (external_newer_only_tags h w w1 a Hot), (getTags_only_tags w w1 Hot).
  unfold settled in Hs. rewrite Hs.
  now destruct (hasTag w1 a (modified (getTags w))).
Qed.

Lemma fold_no_update (rs : list CheckResult) (st : Z * World) :
  Forall (fun r => cr_needsUpdate r = false) rs ->
  fold_left (fun st r => apply_check r st) rs st = st.
Proof.
  intros H. revert st. induction H as [|r rs Hr _ IH]; intros st; simpl; [reflexivity|].
  now rewrite apply_check_skip, IH.
Qed.

(** The first run leaves the attachments settled. *)
Lemma checkModifications_settles (h : Host) (w : World) (atts : list nat) :
  library_ok w atts ->
  exists n1 w1,
    checkModifications h atts w = Some (n1, w1)
    /\ only_tags w w1
    /\ forall a, In a atts -> settled h w w1 a.
Proof.
  intros Hlib. unfold checkModifications. rewrite check_results_run.
  assert (Hpend : forall a, In a atts ->
            settled h w w a
            \/ (tags (item_of w a) = tags (item_of w a)
                /\ (cr_needsUpdate (check_of h w a) = true -> isOnTablet w a = true ->
                     In a (List.filter (isOnTablet w) atts)))).
  { intros a Ha. right. split; [reflexivity|]. intros _ Hon. apply List.filter_In. auto. }
  assert (Hrest : forall b, In b (List.filter (isOnTablet w) atts) ->
            In b atts /\ isOnTablet w b = true).
  { intros b Hb. now apply List.filter_In in Hb. }
  destruct (apply_checks_settle h w atts Hlib _ 0%Z w Hrest (only_tags_refl w) Hpend)
    as [Hot Hs].
  destruct (List.filter (isOnTablet w) atts) as [|x l] eqn:E.
  - exists 0%Z, w. simpl in *. auto.
  - destruct (fold_left _ _ _) as [n1 w1]. exists n1, w1. auto.
Qed.

(** A pass over settled attachments finds nothing to update. *)
Lemma checkModifications_settled (h : Host) (w w1 : World) (atts : list nat) :
  only_tags w w1 -> (forall a, In a atts -> settled h w w1 a) ->
  checkModifications h atts w1 = Some (0%Z, w1)
  /\ exists rs, check_results h atts w1 = Some (rs, w1)
               /\ Forall (fun r => cr_needsUpdate r = false) rs.
Proof.
  intros Hot Hs.
  assert (Hno : Forall (fun r => cr_needsUpdate r = false)
                  (List.map (check_of h w1) (List.filter (isOnTablet w1) atts))).
  { apply List.Forall_forall. intros r Hr. apply List.in_map_iff in Hr as (a & <- & Ha).
    apply List.filter_In in Ha as [Ha _]. eapply settled_no_update; eauto. }
  split.
  - unfold checkModifications. rewrite check_results_run, fold_no_update by exact Hno.
    now destruct (List.filter (isOnTablet w1) atts).
  - eexists. split; [apply check_results_run | exact Hno].
Qed.

(** C5.  For a list of attachments (whose parents are regular items),
    check-modifications returns, and run again on the world it leaves, with
    the file system, the records and the preferences as they are, it finds
    no result that needs an update, calls [addTabletTag] for none, leaves
    the world as it is and returns the count 0. *)
Theorem checkModifications_idempotent (h : Host) (w : World) (atts : list nat) :
  library_ok w atts ->
  exists n1 w1,
    checkModifications h atts w = Some (n1, w1)
    /\ checkModifications h atts w1 = Some (0%Z, w1)
    /\ exists rs, check_results h atts w1 = Some (rs, w1)
                 /\ Forall (fun r => cr_needsUpdate r = false) rs.
Proof.
  intros Hlib.
  destruct (checkModifications_settles h w atts Hlib) as (n1 & w1 & H1 & Hot & Hs).
  exists n1, w1. split; [exact H1|]. now apply (checkModifications_settled h w).
Qed.

(** A tracked attachment whose tablet copy was edited after it was sent. *)
Definition world_edited : World :=
  mkWorld
    {[ "/zotero/storage/K1/paper.pdf" := FS.File 50 "pdf";
       "/tablet" := FS.Dir 1;
       "/tablet/paper.pdf" := FS.File 200 "edited" ]}
    {[ 1 := mkItem true (Some 10) {[ "_tablet" ]}
              (mkNote "" (Some (AttrText (Some (Json.Obj
                 [("location", Json.Str "[BaseFolder]/paper.pdf"); ("lastmod", Json.Num 100);
                  ("mode", Json.Num 1); ("projectFolder", Json.Str "")])))))
              (Some "/zotero/storage/K1/paper.pdf") "K1" [] None "" "" "";
       10 := mkItem false None {[ "_tablet" ]} (mkNote "" None) None "P1" [1] None "" "" "" ]}
    (mkPrefs (Some "/tablet") None false false None None None true) 300 [].

Lemma world_edited_ok : library_ok world_edited [1].
Proof.
  intros a [<- | []]. split; [reflexivity|].
  intros p Hp. vm_compute in Hp. injection Hp as <-. reflexivity.
Qed.

Lemma checkModifications_idempotent_witness :
  library_ok world_edited [1]
  /\ option_map fst (checkModifications PathFacts.unix_host [1] world_edited) = Some 1%Z
  /\ exists w1,
       option_map snd (checkModifications PathFacts.unix_host [1] world_edited) = Some w1
       /\ checkModifications PathFacts.unix_host [1] w1 = Some (0%Z, w1).
Proof.
  split; [exact world_edited_ok|]. split; [vm_compute; reflexivity|].
  destruct (checkModifications_idempotent PathFacts.unix_host world_edited [1] world_edited_ok)
    as (n1 & w1 & H1 & H2 & _).
  exists w1. rewrite H1. split; [reflexivity | exact H2].
Defined.

End CheckFacts.

(** ** What the file operations leave alone *)

Module FrameFacts.
Import PathFacts.

Lemma removeFile_frame (h : Host) (q p : string) (fs : FS.t) :
  p <> q -> snd (ZT.removeFile h q fs) !! p = fs !! p.
Proof.
  intros Hne. unfold ZT.removeFile, FS.io_remove. munfold.
  destruct (fs !! q) as [[m c|m]|]; simpl; [| |reflexivity].
  - now rewrite lookup_delete_ne.
  - destruct (bool_decide _); simpl; [now rewrite lookup_delete_ne | reflexivity].
Qed.




Lemma removeEmptyDirs_unfold (h : Host) (fs : FS.t) (d : string) (base : option string) :
  ZT.removeEmptyDirs h fs d base =
  if negb (Str.nonempty d) || bool_decide (Some d = base) then fs
  else if negb (FS.is_dir (fs !! d)) then fs
  else if FS.has_visible_entry (ZT.getFolderSep h) (isHidden h) fs d then fs
  else
    match ZT.getParentDir h d with
    | Some parent =>
        if bool_decide (Some parent ≠ base)
        then ZT.removeEmptyDirs h (FS.remove_tree (ZT.getFolderSep h) fs d) parent base
        else FS.remove_tree (ZT.getFolderSep h) fs d
    | None => FS.remove_tree (ZT.getFolderSep h) fs d
    end.
Proof.
  funelim (ZT.removeEmptyDirs h fs d base).
  - now rewrite e.
  - now rewrite e.
Qed.

(** Every directory on the way to [p] is entered through an entry that is
    not hidden. *)
Definition visible_path (h : Host) (p : string) : Prop :=
  forall d, FS.under (ZT.getFolderSep h) d p = true ->
    isHidden h (FS.entry_of (ZT.getFolderSep h) d p) = false.

(** A directory that is removed as empty does not hold a file with a
    visible path. *)
Lemma remove_tree_frame (h : Host) (fs : FS.t) (d p : string) (m : Z) (c : string) :
  fs !! p = Some (FS.File m c) -> visible_path h p ->
  FS.is_dir (fs !! d) = true ->
  FS.has_visible_entry (ZT.getFolderSep h) (isHidden h) fs d = false ->
  FS.remove_tree (ZT.getFolderSep h) fs d !! p = fs !! p.
Proof.
  intros Hp Hvis Hd Hempty. unfold FS.remove_tree.
  rewrite Hp. apply map_lookup_filter_Some. split; [exact Hp|]. simpl. split.
  - intros ->. rewrite Hp in Hd. discriminate.
  - destruct (FS.under (ZT.getFolderSep h) d p) eqn:U; [|reflexivity].
    unfold FS.has_visible_entry in Hempty. apply bool_decide_eq_false in Hempty.
    destruct Hempty. exists p, (FS.File m c). split; [exact Hp|]. split; [exact U|].
    now apply Hvis.
Qed.

(** [removeEmptyDirs] never takes a file with a visible path. *)
Lemma removeEmptyDirs_frame (h : Host) (base : option string) (p : string) (m : Z) (c : string)
    (d : string) (fs : FS.t) :
  fs !! p = Some (FS.File m c) -> visible_path h p ->
  ZT.removeEmptyDirs h fs d base !! p = fs !! p.
Proof.
  intros Hp Hvis.
  remember (String.length d) as n eqn:Hn. revert d fs Hn Hp.
  induction n as [n IH] using lt_wf_ind. intros d fs Hn Hp.
  rewrite removeEmptyDirs_unfold.
  destruct (negb (Str.nonempty d) || bool_decide (Some d = base)); [reflexivity|].
  destruct (FS.is_dir (fs !! d)) eqn:Hd; simpl; [|reflexivity].
  destruct (FS.has_visible_entry _ _ fs d) eqn:Hv; [reflexivity|].
  pose proof (remove_tree_frame h fs d p m c Hp Hvis Hd Hv) as Hrm.
  destruct (ZT.getParentDir h d) as [parent|] eqn:Hpar; [|exact Hrm].
  destruct (bool_decide (Some parent ≠ base)); [|exact Hrm].
  rewrite <- Hrm. apply (IH (String.length parent)); [|reflexivity|congruence].
  subst n. now apply FS.parent_dir_shorter in Hpar.
Qed.

End FrameFacts.

(** ** Get from tablet *)

Module RetrieveFacts.
Import Zotero SyncManager.
Import PathFacts RecordFacts TagFacts ReadFacts FrameFacts.

(** What [getTabletFilePath] returns. *)
Definition tablet_path (w : World) (a : nat) : option string :=
  match getTabletInfo w a with
  | Some info =>
      if negb (Json.truthy info) then None
      else if Json.is_num (Json.field info "mode") Constants.MODE_FOREGROUND
      then getFilePathAsync w a
      else
        match Json.field info "location" with
        | Some (Json.Str loc) =>
            if Str.nonempty loc && FS.io_exists (fs w) loc then Some loc else None
        | _ => None
        end
  | None => None
  end.

Lemma getTabletFilePath_run (w : World) (a : nat) :
  getTabletFilePath a w = (Ok (tablet_path w a), w).
Proof.
  unfold getTabletFilePath, tablet_path. munfold.
  destruct (getTabletInfo w a) as [info|] eqn:Hinfo; simpl; [|reflexivity].
  destruct (Json.truthy info) eqn:Htr; simpl; [|reflexivity].
  destruct (Json.is_num _ _); [reflexivity|].
  destruct (Json.truthy_opt (Json.field info "location")) eqn:Hloc; simpl.
  - destruct (getTabletInfo_location _ _ _ Hinfo Hloc) as (loc & Hf & Hne).
    rewrite Hf, Hne. simpl. rewrite set_fs_same.
    now destruct (FS.io_exists (fs w) loc).
  - destruct (Json.field info "location") as [[|b|z|s|l|fs']|]; simpl in *;
      try reflexivity; try congruence. now rewrite Hloc.
Qed.

(** What [gatherInfo] returns. *)
Definition gathered (h : Host) (w : World) (a : nat) : Gathered :=
  match getTabletInfo w a with
  | None => Skipped "no_info" None false
  | Some info =>
      if negb (Json.truthy info) then Skipped "no_info" None false
      else
        match tablet_path w a with
        | None => Skipped "no_file" (Some a) true
        | Some tp =>
            let zp := getFilePathAsync w a in
            let saved := Json.or_zero (Json.field info "lastmod") in
            let tm := Json.gt (ToNumber_other h) (mtime_at (fs w) tp) (Some saved) in
            let zm := Json.gt (ToNumber_other h)
                        (match zp with Some z => mtime_at (fs w) z | None => 0%Z end)
                        (Some saved) in
            Found (mkFileInfo a info tp zp tm zm (tm && zm) None)
        end
  end.

(** The first pass only reads: it returns and leaves the world as it is. *)
Lemma gatherInfo_run (h : Host) (w : World) (a : nat) :
  gatherInfo h a w = (Ok (gathered h w a), w).
Proof.
  unfold gatherInfo, gathered. munfold.
  destruct (getTabletInfo w a) as [info|] eqn:Hinfo; [|reflexivity].
  destruct (Json.truthy info) eqn:Htr; simpl; [|reflexivity].
  rewrite getTabletFilePath_run.
  destruct (tablet_path w a) as [tp|]; [|reflexivity].
  rewrite liftFS_getFileModTime.
  destruct (getFilePathAsync w a) as [z|]; [|reflexivity].
  now rewrite liftFS_getFileModTime.
Qed.

(** The separation of the gathered results. *)
Definition found_with (c : bool) (g : Gathered) : option FileInfo :=
  match g with
  | Found fi => if Bool.eqb (fi_hasConflict fi) c then Some fi else None
  | Skipped _ _ _ => None
  end.

Definition missing (g : Gathered) : option nat :=
  match g with
  | Skipped _ (Some a) true => Some a
  | _ => None
  end.

Lemma separate_spec (l : list Gathered) (s : Separated) :
  separate l s =
  mkSeparated (toProcess s ++ omap (found_with false) l)
              (toCleanup s ++ omap missing l)
              (conflicts s ++ omap (found_with true) l).
Proof.
  revert s. induction l as [|g l IH]; intros s.
  - simpl. rewrite !app_nil_r. now destruct s.
  - destruct g as [reason [b|] [|]|fi]; cbn [separate]; rewrite IH; simpl;
      try reflexivity.
    + now rewrite <- app_assoc.
    + destruct (fi_hasConflict fi); simpl; now rewrite <- app_assoc.
Qed.

(** The conflict loop. *)
Definition prompt_of (c : FileInfo) : Prompt :=
  mkPrompt (fi_attachment c) (fi_tabletPath c) (fi_zoteroPath c).

(** What the answer to the prompt number [k] keeps of the conflict [c]. *)
Definition answer_kept (h : Host) (k : nat) (c : FileInfo) : option FileInfo :=
  if (confirmEx h k =? 0)%Z then Some (with_useTablet true c)
  else if (confirmEx h k =? 2)%Z then Some (with_useTablet false c)
  else None.

Fixpoint kept_from (h : Host) (k : nat) (cs : list FileInfo) : list FileInfo :=
  match cs with
  | [] => []
  | c :: rest =>
      match answer_kept h k c with
      | Some c' => c' :: kept_from h (S k) rest
      | None => kept_from h (S k) rest
      end
  end.

Definition with_prompts (ps : list Prompt) (w : World) : World :=
  mkWorld (fs w) (items w) (prefs w) (now w) (prompts w ++ ps).

(** Each conflict is asked about once, in order; nothing but the list of
    prompts changes, and what is kept is what was not cancelled. *)
Lemma resolve_conflicts_spec (h : Host) (cs : list FileInfo) (tp : list FileInfo) (w : World) :
  resolve_conflicts h cs tp w =
  (tp ++ kept_from h (List.length (prompts w)) cs,
   with_prompts (List.map prompt_of cs) w).
Proof.
  revert tp w. induction cs as [|c cs IH]; intros tp w.
  - simpl. unfold with_prompts. rewrite !app_nil_r. now destruct w.
  - cbn [resolve_conflicts kept_from List.map]. unfold _resolveConflict, answer_kept.
    assert (Hw : forall w0 : World,
      w0 = add_prompt (prompt_of c) w ->
      List.length (prompts w0) = S (List.length (prompts w))
      /\ with_prompts (List.map prompt_of cs) w0
         = with_prompts (prompt_of c :: List.map prompt_of cs) w).
    { intros w0 ->. unfold add_prompt, with_prompts. simpl. split.
      - rewrite length_app. simpl. lia.
      - now rewrite <- app_assoc. }
    destruct (Hw _ eq_refl) as [Hlen Hwp]. fold (prompt_of c).
    destruct (confirmEx h (List.length (prompts w)) =? 0)%Z.
    + rewrite IH, Hlen, Hwp, <- app_assoc. reflexivity.
    + destruct (confirmEx h (List.length (prompts w)) =? 2)%Z.
      * rewrite IH, Hlen, Hwp, <- app_assoc. reflexivity.
      * rewrite IH, Hlen, Hwp. reflexivity.
Qed.



(** The phases of [getFromTablet] on a world [w]. *)
Definition on_tablet (w : World) (atts : list nat) : list nat :=
  List.filter (isOnTablet w) atts.

Definition separated (h : Host) (w : World) (atts : list nat) : Separated :=
  separate (List.map (gathered h w) (on_tablet w atts)) (mkSeparated [] [] []).

Definition asked (h : Host) (w : World) (atts : list nat) : World :=
  with_prompts (List.map prompt_of (conflicts (separated h w atts))) w.

Definition kept (h : Host) (w : World) (atts : list nat) : list FileInfo :=
  toProcess (separated h w atts)
  ++ kept_from h (List.length (prompts w)) (conflicts (separated h w atts)).

Definition applied (h : Host) (w : World) (atts : list nat)
  : list (@Batch.Entry FileInfo GetResult) * World :=
  Batch.run_chunk (fun _ _ => None) (fun _ _ => None) (fun _ => None) (fun _ => None)
    (get_processFile h) (kept h w atts) (asked h w atts).

Definition file_results (h : Host) (w : World) (atts : list nat) : list GetResult :=
  results_of (List.filter Batch.entry_success (fst (applied h w atts))).

Definition cleaned_up (h : Host) (w : World) (atts : list nat) : Cleaned * World :=
  fold_left (fun st a => cleanup_missing a st) (toCleanup (separated h w atts))
    (fold_left (fun st r => cleanup_result h (destDir (prefs w)) r st)
       (file_results h w atts) (mkCleaned [] [], snd (applied h w atts))).


(** A file moved to the tablet and edited there. *)
Definition world_move_mode : World :=
  mkWorld
    {[ "/tablet" := FS.Dir 1;
       "/tablet/paper.pdf" := FS.File 200 "edited" ]}
    {[ 1 := mkItem true (Some 10) {[ "_tablet" ]}
              (mkNote "" (Some (AttrText (Some (Json.Obj
                 [("location", Json.Str "[BaseFolder]/paper.pdf"); ("lastmod", Json.Num 100);
                  ("mode", Json.Num 2); ("projectFolder", Json.Str "")])))))
              (Some "/tablet/paper.pdf") "K1" [] None "" "" "";
       10 := mkItem false None {[ "_tablet" ]} (mkNote "" None) None "P1" [1] None "" "" "" ]}
    (mkPrefs (Some "/tablet") (Some 2%Z) false false None None None true) 300 [].

Definition world_move_root : World :=
  mkWorld
    {[ "/zotero/storage/K1/paper.pdf" := FS.File 50 "pdf"; "/tablet" := FS.Dir 1 ]}
    {[ 1 := mkItem true (Some 10) ∅ (mkNote "" None)
                   (Some "/zotero/storage/K1/paper.pdf") "K1" [] None "" "" "";
       10 := mkItem false None ∅ (mkNote "" None) None "P1" [1] None "" "" "" ]}
    (mkPrefs (Some "/tablet") (Some 2%Z) false false None None None true) 100 [].

Definition world_move_sent : World :=
  match sendToTablet unix_host [1] "" world_move_root with
  | Some (_, w) => w
  | None => world_move_root
  end.

Definition world_move_edited : World :=
  set_fs (<[ "/tablet/paper.pdf" := FS.File 500 "edited" ]> (fs world_move_sent))
         world_move_sent.

(** C1.  The code reports a conflict for a file in Move (Foreground) mode.
    A file is sent with the mode preference 2: it is moved to the tablet
    folder and the attachment is linked to it there, with [lastmod] 50.  It
    is then edited once, on the tablet.  For the retrieve pass the external
    and the internal path are the same file, so both time stamps exceed
    [lastmod]: [gatherInfo] sets [hasConflict] although the record's mode is
    not Copy, and the pass prompts for it. *)
Theorem conflict_reported_in_move_mode :
  option_map fst (sendToTablet unix_host [1] "" world_move_root)
  = Some (Some (mkSummary 1 []))
  /\ (getTabletInfo world_move_edited 1 ≫= fun i => Json.field i "mode")
     = Some (Json.Num Constants.MODE_FOREGROUND)
  /\ fst (gatherInfo unix_host 1 world_move_edited)
     = Ok (Found (mkFileInfo 1
             (Json.Obj [("location", Json.Str "/tablet/paper.pdf"); ("lastmod", Json.Num 50);
                        ("mode", Json.Num 2); ("projectFolder", Json.Str "")])
             "/tablet/paper.pdf" (Some "/tablet/paper.pdf") true true true None))
  /\ option_map (fun r => prompts (snd r))
       (getFromTablet unix_host [1] true world_move_edited)
     = Some [mkPrompt 1 "/tablet/paper.pdf" (Some "/tablet/paper.pdf")].
Proof. vm_compute. repeat split; reflexivity. Qed.

(** *** What a pass leaves alone *)

Definition shape (i : Item) : bool * option nat := (isAttachment i, parentItemID i).











Lemma liftFS_run {A : Type} (m : M (gmap string FS.Node) A) (w0 : World) :
  liftFS m w0 = (fst (m (fs w0)), set_fs (snd (m (fs w0))) w0).
Proof. unfold liftFS. now destruct (m (fs w0)). Qed.


Section Skip.

Variable h : Host.
Variable w : World.
Variable a : nat.
Variable paths : list string.
Hypothesis Hattachment : isAttachment (item_of w a) = true.
Hypothesis Hfiles : forall p, In p paths -> FS.is_file (fs w !! p) = true.
Hypothesis Hvisible : forall p, In p paths -> visible_path h p.

(** The world [w0] has the attachment [a] and the files at [paths] as the
    world [w] has them. *)
Definition preserved (w0 : World) : Prop :=
  prefs w0 = prefs w
  /\ item_of w0 a = item_of w a
  /\ (forall id, shape (item_of w0 id) = shape (item_of w id))
  /\ (forall p, In p paths -> fs w0 !! p = fs w !! p).

(** Another attachment of the library: its parent is a regular item. *)
Definition other (b : nat) : Prop :=
  b <> a
  /\ forall p, parentItemID (item_of w b) = Some p -> isAttachment (item_of w p) = false.

Lemma preserved_refl : preserved w.
Proof. now repeat split. Qed.












End Skip.

(** Where the entries of the lists come from. *)
Lemma gathered_found (h : Host) (w : World) (b : nat) (fi : FileInfo) :
  gathered h w b = Found fi ->
  fi_attachment fi = b
  /\ tablet_path w b = Some (fi_tabletPath fi)
  /\ fi_zoteroPath fi = getFilePathAsync w b.
Proof.
  unfold gathered. destruct (getTabletInfo w b); [|discriminate].
  destruct (negb _); [discriminate|].
  destruct (tablet_path w b); [|discriminate]. intros [= <-]. simpl. auto.
Qed.


Lemma separated_spec (h : Host) (w : World) (atts : list nat) :
  separated h w atts =
  mkSeparated (omap (found_with false) (List.map (gathered h w) (on_tablet w atts)))
              (omap missing (List.map (gathered h w) (on_tablet w atts)))
              (omap (found_with true) (List.map (gathered h w) (on_tablet w atts))).
Proof. unfold separated. now rewrite separate_spec. Qed.



(** The conflicts a pass finds, in the order of the prompts. *)
Definition conflicts_found (h : Host) (atts : list nat) (w : World) : list FileInfo :=
  match batch_attachments h (List.filter (isOnTablet w) atts) (gatherInfo h) w with
  | Some (g, _) => conflicts (separate (results_of (Batch.successes g)) (mkSeparated [] [] []))
  | None => []
  end.

Lemma conflicts_found_eq (h : Host) (atts : list nat) (w : World) :
  conflicts_found h atts w = conflicts (separated h w atts).
Proof.
  unfold conflicts_found. fold (on_tablet w atts).
  destruct (batch_attachments_pure h (gatherInfo h) (gathered h w) (on_tablet w atts) w
              (gatherInfo_run h w)) as (acc & -> & -> & _).
  reflexivity.
Qed.






(** Two files in Copy mode: the first was edited on both sides, the second
    on the tablet only. *)
Definition world_conflict : World :=
  mkWorld
    {[ "/zotero/storage/K1/paper.pdf" := FS.File 150 "annotated";
       "/zotero/storage/K2/notes.pdf" := FS.File 50 "pdf";
       "/tablet" := FS.Dir 1;
       "/tablet/paper.pdf" := FS.File 200 "edited";
       "/tablet/notes.pdf" := FS.File 250 "edited" ]}
    {[ 1 := mkItem true (Some 10) {[ "_tablet" ]}
              (mkNote "" (Some (AttrText (Some (Json.Obj
                 [("location", Json.Str "[BaseFolder]/paper.pdf"); ("lastmod", Json.Num 100);
                  ("mode", Json.Num 1); ("projectFolder", Json.Str "")])))))
              (Some "/zotero/storage/K1/paper.pdf") "K1" [] None "" "" "";
       2 := mkItem true (Some 10) {[ "_tablet" ]}
              (mkNote "" (Some (AttrText (Some (Json.Obj
                 [("location", Json.Str "[BaseFolder]/notes.pdf"); ("lastmod", Json.Num 100);
                  ("mode", Json.Num 1); ("projectFolder", Json.Str "")])))))
              (Some "/zotero/storage/K2/notes.pdf") "K2" [] None "" "" "";
       10 := mkItem false None {[ "_tablet" ]} (mkNote "" None) None "P1" [1; 2] None "" "" "" ]}
    (mkPrefs (Some "/tablet") None false false None None None true) 300 [].




End RetrieveFacts.

(** ** More on the file helpers *)

Module FileFacts.
Import PathFacts FrameFacts.

Lemma mkdirs_dirs (now : Z) (l : list string) (fs : FS.t) :
  (forall d, In d l -> FS.is_file (fs !! d) = false) ->
  forall d, In d l -> FS.is_dir (foldr (FS.mkdir_one now) fs l !! d) = true.
Proof.
  induction l as [|x l IH]; intros Hfree d Hd; [destruct Hd|].
  cbn [foldr]. destruct (mkdirs_keeps now l fs) as [Hkeep Hnew].
  destruct (decide (x = d)) as [->|Hne].
  - assert (Hat : forall fs0 : FS.t,
              (forall n, fs0 !! d = Some n -> FS.is_dir (Some n) = true) ->
              FS.is_dir (FS.mkdir_one now d fs0 !! d) = true).
    { intros fs0 H0. unfold FS.mkdir_one.
      destruct (fs0 !! d) as [n|] eqn:E0; [rewrite E0; auto | now rewrite lookup_insert_eq]. }
    apply Hat. intros n E. destruct (Hnew d n E) as [Hold | [_ ->]]; [|reflexivity].
    specialize (Hfree d (or_introl eq_refl)). rewrite Hold in Hfree. now destruct n.
  - destruct Hd as [Hd|Hd]; [contradiction|].
    specialize (IH (fun d' Hd' => Hfree d' (or_intror Hd')) d Hd).
    destruct (foldr (FS.mkdir_one now) fs l !! d) as [n|] eqn:E; [|discriminate].
    now rewrite (mkdir_one_keeps now x _ d n E).
Qed.

(** X1.  When no file is in the way (at the path or at a directory above
    it), [ensureDirectory] returns; afterwards the path and every directory
    above it are directories, everything that existed is as it was, and
    whatever is new is a directory stamped with the time of the call. *)
Theorem ensureDirectory_creates (h : Host) (now : Z) (d : string) (fs : FS.t) :
  existsb (fun q => FS.is_file (fs !! q)) (d :: FS.ancestors (ZT.getFolderSep h) d) = false ->
  exists fs',
    ZT.ensureDirectory h now (Some d) fs = (Ok tt, fs')
    /\ FS.is_dir (fs' !! d) = true
    /\ (FS.is_dir (fs !! d) = true -> fs' = fs)
    /\ (FS.is_dir (fs !! d) = false ->
        forall q, In q (FS.ancestors (ZT.getFolderSep h) d) -> FS.is_dir (fs' !! q) = true)
    /\ (forall q n, fs !! q = Some n -> fs' !! q = Some n)
    /\ (forall q n, fs' !! q = Some n -> fs !! q = None -> n = FS.Dir now).
Proof.
  intros Hfree.
  destruct (ZT.ensureDirectory h now (Some d) fs) as [r fs'] eqn:E.
  pose proof (ensureDirectory_keeps _ _ _ _ _ _ E) as [Hkeep Hnew].
  assert (Hall : forall q, In q (d :: FS.ancestors (ZT.getFolderSep h) d) ->
            FS.is_file (fs !! q) = false).
  { intros q Hq. destruct (FS.is_file (fs !! q)) eqn:Eq; [|reflexivity].
    assert (existsb (fun q => FS.is_file (fs !! q))
              (d :: FS.ancestors (ZT.getFolderSep h) d) = true)
      by (apply existsb_exists; eauto).
    congruence. }
  unfold ZT.ensureDirectory, FS.io_makeDirectory in E.
  destruct (FS.is_dir (fs !! d)) eqn:Ed.
  - injection E as <- <-. exists fs. split; [reflexivity|]. split; [exact Ed|].
    split; [reflexivity|]. split; [discriminate|].
    split; [auto | intros q n H1 H2; congruence].
  - rewrite Hfree in E. injection E as <- <-. eexists. split; [reflexivity|].
    pose proof (mkdirs_dirs now (d :: FS.ancestors (ZT.getFolderSep h) d) fs Hall) as Hdirs.
    split; [apply Hdirs; now left|].
    split; [discriminate|].
    split; [intros _ q Hq; apply Hdirs; now right|].
    split; [exact Hkeep|]. intros q n H1 H2. destruct (Hnew q n H1) as [?|[_ ?]]; congruence.
Qed.

Definition fs_storage : FS.t :=
  {[ "/zotero" := FS.Dir 1;
     "/zotero/storage/K1/paper.pdf" := FS.File 50 "pdf" ]}.

Lemma ensureDirectory_creates_witness :
  exists fs',
    ZT.ensureDirectory unix_host 7 (Some "/tablet/Smith/2020") fs_storage = (Ok tt, fs')
    /\ FS.is_dir (fs' !! "/tablet/Smith/2020") = true
    /\ fs' !! "/zotero/storage/K1/paper.pdf" = Some (FS.File 50 "pdf").
Proof.
  destruct (ensureDirectory_creates unix_host 7 "/tablet/Smith/2020" fs_storage)
    as (fs' & Hrun & Hdir & _ & _ & Hkeep & _); [vm_compute; reflexivity|].
  exists fs'. split; [exact Hrun|]. split; [exact Hdir|]. now apply Hkeep.
Defined.

(** A copy without [overwrite] lands on a free path and keeps what was
    there. *)
Lemma copyFile_fresh (h : Host) (now : Z) (src dest : string)
    (fs fs' : FS.t) (p : string) :
  ZT.copyFile h now src dest false fs = (Ok p, fs') ->
  fs !! p = None
  /\ (exists m c, fs !! src = Some (FS.File m c) /\ fs' !! p = Some (FS.File now c))
  /\ (forall q n, fs !! q = Some n -> fs' !! q = Some n)
  /\ (forall q n, fs' !! q = Some n -> q <> p -> fs !! q = None -> n = FS.Dir now).
Proof.
  intros H. apply copyFile_new in H as (fs1 & m & c & He & _ & Hfree & Hsrc & ->).
  apply ensureDirectory_keeps in He as [Hkeep Hnew].
  assert (Hp : fs !! p = None).
  { destruct (fs !! p) as [n|] eqn:E; [|reflexivity]. apply Hkeep in E. congruence. }
  split; [exact Hp|]. split; [|split].
  - exists m, c. split; [|apply lookup_insert_eq].
    destruct (Hnew src _ Hsrc) as [?|[_ ?]]; [assumption | discriminate].
  - intros q n Hq. rewrite lookup_insert_ne; [now apply Hkeep|]. intros <-. congruence.
  - intros q n Hq Hne Hold. rewrite lookup_insert_ne in Hq by congruence.
    destruct (Hnew q n Hq) as [?|[_ ?]]; congruence.
Qed.

(** X2.  [copyFile] without [overwrite], when it returns a path: nothing
    was at that path before, the source is a file and its content is now at
    the path, stamped with the time of the call; everything that existed
    before is still there unchanged (the source too), and whatever else is
    new is a directory created for the destination. *)
Theorem copyFile_never_overwrites (h : Host) (now : Z) (src dest : string)
    (fs fs' : FS.t) (p : string) :
  ZT.copyFile h now src dest false fs = (Ok p, fs') ->
  fs !! p = None
  /\ (exists m c, fs !! src = Some (FS.File m c) /\ fs' !! p = Some (FS.File now c))
  /\ (forall q n, fs !! q = Some n -> fs' !! q = Some n)
  /\ (forall q n, fs' !! q = Some n -> q <> p -> fs !! q = None -> n = FS.Dir now).
Proof. exact (copyFile_fresh h now src dest fs fs' p). Qed.

Lemma copyFile_never_overwrites_witness :
  fs_taken !! "/tablet/Paper_2.pdf" = None
  /\ fs_taken !! "/tablet/Paper.PDF" = Some (FS.File 10 "first").
Proof.
  destruct (copyFile_never_overwrites unix_host 100 "/zotero/storage/K3/Paper.PDF"
              "/tablet/Paper.PDF" fs_taken
              (<["/tablet/Paper_2.pdf" := FS.File 100 "third"]> fs_taken)
              "/tablet/Paper_2.pdf") as (Hfree & _ & _ & _); [vm_compute; reflexivity|].
  split; [exact Hfree | vm_compute; reflexivity].
Defined.

(** X3.  Two files copied one after the other to the same destination
    (without [overwrite]) end at two different paths; after the second copy
    each path holds the content of its own source. *)
Theorem copyFile_same_destination (h : Host) (now1 now2 : Z) (src1 src2 dest : string)
    (fs fs1 fs2 : FS.t) (p1 p2 : string) :
  ZT.copyFile h now1 src1 dest false fs = (Ok p1, fs1) ->
  ZT.copyFile h now2 src2 dest false fs1 = (Ok p2, fs2) ->
  p1 <> p2
  /\ exists m1 c1 m2 c2,
       fs !! src1 = Some (FS.File m1 c1) /\ fs1 !! src2 = Some (FS.File m2 c2)
       /\ fs2 !! p1 = Some (FS.File now1 c1) /\ fs2 !! p2 = Some (FS.File now2 c2).
Proof.
  intros H1 H2.
  apply copyFile_fresh in H1 as (_ & (m1 & c1 & Hs1 & Hp1) & _ & _).
  apply copyFile_fresh in H2 as (Hfree & (m2 & c2 & Hs2 & Hp2) & Hkeep & _).
  split; [intros ->; congruence|].
  exists m1, c1, m2, c2. repeat split; auto.
Qed.

Definition fs_sent_once : FS.t :=
  snd (ZT.copyFile unix_host 100 "/zotero/storage/K1/paper.pdf" "/tablet/paper.pdf" false
         fs_storage).

Lemma copyFile_same_destination_witness :
  "/tablet/paper.pdf" <> "/tablet/paper_2.pdf".
Proof.
  refine (proj1 (copyFile_same_destination unix_host 100 200
            "/zotero/storage/K1/paper.pdf" "/zotero/storage/K1/paper.pdf" "/tablet/paper.pdf"
            fs_storage fs_sent_once
            (snd (ZT.copyFile unix_host 200 "/zotero/storage/K1/paper.pdf"
                    "/tablet/paper.pdf" false fs_sent_once))
            "/tablet/paper.pdf" "/tablet/paper_2.pdf" _ _)); vm_compute; reflexivity.
Defined.

(** X4.  [moveFile], when it returns a path: nothing was at that path
    before, the source was a file and is gone, its content and time stamp
    are at the path, and everything else that existed is unchanged. *)
Theorem moveFile_moves (h : Host) (now : Z) (src dest : string) (fs fs' : FS.t) (p : string) :
  ZT.moveFile h now src dest fs = (Ok p, fs') ->
  fs !! p = None
  /\ p <> src
  /\ fs' !! src = None
  /\ (exists m c, fs !! src = Some (FS.File m c) /\ fs' !! p = Some (FS.File m c))
  /\ (forall q n, q <> src -> fs !! q = Some n -> fs' !! q = Some n).
Proof.
  intros H. apply moveFile_new in H as (fs1 & m & c & He & _ & Hfree & Hsrc & ->).
  apply ensureDirectory_keeps in He as [Hkeep Hnew].
  assert (Hne : p <> src) by (intros ->; congruence).
  split; [|split; [exact Hne|split; [|split]]].
  - destruct (fs !! p) as [n|] eqn:E; [|reflexivity]. apply Hkeep in E. congruence.
  - rewrite lookup_insert_ne by exact Hne. apply lookup_delete_eq.
  - exists m, c. split; [|apply lookup_insert_eq].
    destruct (Hnew src _ Hsrc) as [?|[_ ?]]; [assumption | discriminate].
  - intros q n Hq Hold. apply Hkeep in Hold.
    rewrite lookup_insert_ne by (intros <-; congruence).
    now rewrite lookup_delete_ne by congruence.
Qed.

Lemma moveFile_moves_witness :
  fs_storage !! "/tablet/paper.pdf" = None
  /\ "/tablet/paper.pdf" <> "/zotero/storage/K1/paper.pdf".
Proof.
  destruct (moveFile_moves unix_host 100 "/zotero/storage/K1/paper.pdf" "/tablet/paper.pdf"
              fs_storage
              (snd (ZT.moveFile unix_host 100 "/zotero/storage/K1/paper.pdf"
                      "/tablet/paper.pdf" fs_storage))
              "/tablet/paper.pdf") as (H1 & H2 & _); [vm_compute; reflexivity|].
  split; assumption.
Defined.

(** X5.  [copyFile] with [overwrite] removes the destination before it
    copies.  When the copy step then has no source file to read (the source
    is missing or a directory, or it is the destination itself), the call
    throws and the file that was at the destination is gone. *)
Theorem copyFile_overwrite_loses_destination (h : Host) (now : Z) (src dest : string)
    (fs fs1 : FS.t) (m : Z) (c : string) :
  ZT.ensureDirectory h now (ZT.getParentDir h dest) fs = (Ok tt, fs1) ->
  fs !! dest = Some (FS.File m c) ->
  src = dest \/ FS.is_file (fs !! src) = false ->
  ZT.copyFile h now src dest true fs
  = (Throw (HostError "copy: no such file"), delete dest fs1)
  /\ delete dest fs1 !! dest = None.
Proof.
  intros He Hdest Hsrc. split; [|apply lookup_delete_eq].
  pose proof (ensureDirectory_keeps _ _ _ _ _ _ He) as [Hkeep Hnew].
  pose proof (Hkeep _ _ Hdest) as Hdest1.
  unfold ZT.copyFile. munfold. rewrite He. unfold ZT.fileExists. munfold.
  unfold FS.io_exists. rewrite Hdest1.
  rewrite bool_decide_eq_true_2 by eauto.
  unfold ZT.removeFile, FS.io_remove. munfold. rewrite Hdest1.
  unfold FS.io_copy.
  assert (Hno : FS.is_file (delete dest fs1 !! src) = false).
  { destruct Hsrc as [->|Hsrc]; [now rewrite lookup_delete_eq|].
    destruct (decide (dest = src)) as [->|Hne]; [now rewrite lookup_delete_eq|].
    rewrite lookup_delete_ne by exact Hne.
    destruct (fs1 !! src) as [n|] eqn:E; [|reflexivity].
    destruct (Hnew src n E) as [Hold|[_ ->]]; [|reflexivity].
    now rewrite Hold in Hsrc. }
  destruct (delete dest fs1 !! src) as [[m' c'|m']|]; [discriminate| |]; reflexivity.
Qed.

Lemma copyFile_overwrite_loses_destination_witness :
  ZT.copyFile unix_host 100 "/tablet/paper" "/tablet/paper" true fs_taken
  = (Throw (HostError "copy: no such file"), delete "/tablet/paper" fs_taken).
Proof.
  refine (proj1 (copyFile_overwrite_loses_destination unix_host 100 "/tablet/paper"
                   "/tablet/paper" fs_taken fs_taken 10 "first" _ _ _)).
  - vm_compute. reflexivity.
  - vm_compute. reflexivity.
  - now left.
Defined.

Lemma remove_tree_only_removes (sep : ascii) (fs : FS.t) (d q : string) (n : FS.Node) :
  FS.remove_tree sep fs d !! q = Some n -> fs !! q = Some n.
Proof. unfold FS.remove_tree. intros H. now apply map_lookup_filter_Some in H as [H _]. Qed.

Lemma remove_tree_gone (sep : ascii) (fs : FS.t) (d q : string) :
  q = d \/ FS.under sep d q = true -> FS.remove_tree sep fs d !! q = None.
Proof.
  intros Hq. unfold FS.remove_tree. apply map_lookup_filter_None. right.
  intros n _ [Hne Hun]. simpl in *. destruct Hq as [->|Hq]; congruence.
Qed.

Lemma removeEmptyDirs_only_removes (h : Host) (base : option string) (q : string) (n : FS.Node)
    (d : string) (fs : FS.t) :
  ZT.removeEmptyDirs h fs d base !! q = Some n -> fs !! q = Some n.
Proof.
  remember (String.length d) as k eqn:Hk. revert d fs Hk.
  induction k as [k IH] using lt_wf_ind. intros d fs Hk.
  rewrite removeEmptyDirs_unfold.
  destruct (negb (Str.nonempty d) || bool_decide (Some d = base)); [auto|].
  destruct (negb (FS.is_dir (fs !! d))); [auto|].
  destruct (FS.has_visible_entry _ _ fs d); [auto|].
  destruct (ZT.getParentDir h d) as [parent|] eqn:Hpar;
    [|apply remove_tree_only_removes].
  destruct (bool_decide (Some parent ≠ base)); [|apply remove_tree_only_removes].
  intros H. apply (IH (String.length parent)) in H; [|subst k|reflexivity].
  - now apply remove_tree_only_removes in H.
  - now apply FS.parent_dir_shorter in Hpar.
Qed.

(** X6.  [removeEmptyDirs] only removes: whatever is there afterwards was
    there before, unchanged.  It never takes a file whose path is reached
    through entries that are not hidden, and it does nothing at all when the
    directory is the base path. *)
Theorem removeEmptyDirs_keeps_visible (h : Host) (fs : FS.t) (d : string)
    (base : option string) :
  (forall q n, ZT.removeEmptyDirs h fs d base !! q = Some n -> fs !! q = Some n)
  /\ (forall p m c, fs !! p = Some (FS.File m c) -> visible_path h p ->
        ZT.removeEmptyDirs h fs d base !! p = Some (FS.File m c))
  /\ (Some d = base -> ZT.removeEmptyDirs h fs d base = fs).
Proof.
  split; [|split].
  - intros q n. apply removeEmptyDirs_only_removes.
  - intros p m c Hp Hvis. now rewrite (removeEmptyDirs_frame h base p m c d fs Hp Hvis).
  - intros Hbase. rewrite removeEmptyDirs_unfold.
    rewrite (bool_decide_eq_true_2 _ Hbase). now rewrite orb_true_r.
Qed.

(** X7.  A directory (not the base path) in which every entry is hidden
    counts as empty: [removeEmptyDirs] removes it together with everything
    below it, hidden files included. *)
Theorem removeEmptyDirs_takes_hidden (h : Host) (fs : FS.t) (d : string)
    (base : option string) :
  Str.nonempty d = true -> Some d <> base ->
  FS.is_dir (fs !! d) = true ->
  FS.has_visible_entry (ZT.getFolderSep h) (isHidden h) fs d = false ->
  ZT.removeEmptyDirs h fs d base !! d = None
  /\ forall q, FS.under (ZT.getFolderSep h) d q = true ->
       ZT.removeEmptyDirs h fs d base !! q = None.
Proof.
  intros Hne Hbase Hdir Hvis.
  assert (Hgone : forall q, q = d \/ FS.under (ZT.getFolderSep h) d q = true ->
            ZT.removeEmptyDirs h fs d base !! q = None).
  { intros q Hq. rewrite removeEmptyDirs_unfold, Hne, Hdir, Hvis.
    rewrite (bool_decide_eq_false_2 _ Hbase). cbn [negb orb].
    pose proof (remove_tree_gone (ZT.getFolderSep h) fs d q Hq) as Hrm.
    destruct (ZT.getParentDir h d) as [parent|]; [|exact Hrm].
    destruct (bool_decide (Some parent ≠ base)); [|exact Hrm].
    destruct (ZT.removeEmptyDirs h _ parent base !! q) as [n|] eqn:E; [|reflexivity].
    apply removeEmptyDirs_only_removes in E. congruence. }
  split; [apply Hgone; now left | intros q Hq; apply Hgone; now right].
Qed.

Definition fs_hidden_only : FS.t :=
  {[ "/tablet" := FS.Dir 1;
     "/tablet/Smith" := FS.Dir 2;
     "/tablet/Smith/.annotations" := FS.File 3 "marks";
     "/tablet/other.pdf" := FS.File 4 "pdf" ]}.

Lemma removeEmptyDirs_takes_hidden_witness :
  ZT.removeEmptyDirs unix_host fs_hidden_only "/tablet/Smith" (Some "/tablet")
    !! "/tablet/Smith/.annotations" = None.
Proof.
  refine (proj2 (removeEmptyDirs_takes_hidden unix_host fs_hidden_only "/tablet/Smith"
                   (Some "/tablet") _ _ _ _) "/tablet/Smith/.annotations" _);
    try (vm_compute; reflexivity).
  discriminate.
Defined.

(** Two separators in a row somewhere in [s]. *)
Fixpoint has_double (sep : ascii) (s : string) : bool :=
  match s with
  | String a ((String b _) as tl) => (Ascii.eqb a sep && Ascii.eqb b sep) || has_double sep tl
  | _ => false
  end.

Lemma collapse_head (sep b : ascii) (rest : string) :
  exists r, Str.collapse sep (String b rest) = String b r.
Proof.
  revert b. induction rest as [|c rest IH]; intros b; [now exists EmptyString|].
  cbn [Str.collapse]. destruct (Ascii.eqb b sep && Ascii.eqb c sep) eqn:E.
  - apply andb_prop in E as [Eb Ec]. apply Ascii.eqb_eq in Eb, Ec. subst b c.
    destruct (IH sep) as [r Hr]. exists r. exact Hr.
  - eexists. reflexivity.
Qed.

Lemma collapse_no_double (sep : ascii) (s : string) :
  has_double sep (Str.collapse sep s) = false.
Proof.
  induction s as [|a [|b rest] IH]; [reflexivity | reflexivity |].
  change (Str.collapse sep (String a (String b rest)))
    with (if Ascii.eqb a sep && Ascii.eqb b sep then Str.collapse sep (String b rest)
          else String a (Str.collapse sep (String b rest))).
  destruct (Ascii.eqb a sep && Ascii.eqb b sep) eqn:E; [exact IH|].
  destruct (collapse_head sep b rest) as [r Hr]. rewrite Hr in *.
  change (has_double sep (String a (String b r)))
    with ((Ascii.eqb a sep && Ascii.eqb b sep) || has_double sep (String b r)).
  now rewrite E, IH.
Qed.

(** X8.  Without [PathUtils], [joinPath] skips the empty parts and never
    returns a path with two separators in a row, whatever the parts hold. *)
Theorem joinPath_no_double_separator (h : Host) (parts1 parts2 : list string) :
  PathUtils_join h = None ->
  has_double (ZT.getFolderSep h) (ZT.joinPath h (parts1 ++ parts2)) = false
  /\ ZT.joinPath h (parts1 ++ "" :: parts2) = ZT.joinPath h (parts1 ++ parts2).
Proof.
  intros Hno. unfold ZT.joinPath. rewrite Hno. split; [apply collapse_no_double|].
  now rewrite !List.filter_app.
Qed.

Lemma joinPath_no_double_separator_witness :
  has_double "/" (ZT.joinPath unix_host ["/tablet/"; "/Smith//2020"]) = false.
Proof.
  exact (proj1 (joinPath_no_double_separator unix_host ["/tablet/"] ["/Smith//2020"] eq_refl)).
Defined.

End FileFacts.

(** ** The batch executor at its bounds *)

Module BatchEdgeFacts.

(** X9.  With a negative window the loop of [processInBatches] never ends
    on a list that is not empty: the index only goes down, so the loop
    condition holds for ever and the call does not return. *)
Theorem processInBatches_negative_window {Item R W : Type}
    (af nm : Item -> W -> option string) (rs : R -> option bool) (ri : R -> option Item)
    (processor : Item -> M W R) (items : list Item) (c : Z) (w : W) :
  items <> [] -> (c < 0)%Z ->
  forall fuel,
    Batch.processInBatches_fuel af nm rs ri fuel items processor (Some c) w = None.
Proof.
  intros Hne Hc fuel. unfold Batch.processInBatches_fuel, Batch.effective_concurrency.
  assert (Hor : JS.or_num (Some c) Constants.CONCURRENCY = c).
  { unfold JS.or_num. destruct (Z.eqb_spec c 0); [lia | reflexivity]. }
  rewrite Hor. generalize (@Batch.acc0 Item R).
  assert (H0 : (0 <= 0)%Z) by lia. revert H0. generalize 0%Z at 1 3 as i. revert w.
  induction fuel as [|fuel IH]; intros w i Hi a; [reflexivity|].
  cbn [Batch.loop].
  assert (Hlt : (i <? Z.of_nat (List.length items))%Z = true).
  { apply Z.ltb_lt. destruct items; [contradiction | cbn [List.length]; lia]. }
  rewrite Hlt. destruct (Batch.run_chunk _ _ _ _ _ _ _) as [results w'].
  apply IH. lia.
Qed.

Lemma processInBatches_negative_window_witness :
  Batch.processInBatches_fuel (W := unit) (fun _ _ => None) (fun _ _ => None)
    (fun _ => None) (fun _ => None) 1000 [1; 2; 3] BatchFacts.sample_processor (Some (-1)%Z) tt
  = None.
Proof.
  apply (processInBatches_negative_window (W := unit)); [discriminate | lia].
Defined.

End BatchEdgeFacts.

(** ** The sync record, written and read *)

Module RoundTripFacts.
Import Zotero SyncManager.
Import PathFacts RecordFacts TagFacts PlaceholderFacts CheckFacts.

Lemma item_of_setTabletInfo (a b : nat) (info : Json.value) (w : World) :
  item_of (setTabletInfo a info w) b =
  if decide (a = b)
  then with_note (mkNote (other_html (note (item_of w a))) (Some (AttrText (Some info))))
                 (item_of w a)
  else item_of w b.
Proof. unfold setTabletInfo. now rewrite item_of_update. Qed.

Lemma getTabletInfo_other_item (w w' : World) (b : nat) :
  prefs w' = prefs w -> item_of w' b = item_of w b ->
  getTabletInfo w' b = getTabletInfo w b.
Proof.
  intros Hp Hi. unfold getTabletInfo, getTabletInfo_try, resolve_location. now rewrite Hi, Hp.
Qed.

(** X10.  What [sendToTablet] records for a sent file is read back as
    written: when the root has no trailing separator and no dollar sign and
    the final path lies under it, [getTabletInfo] returns the record with
    the final path as location, the recorded time stamp, mode and project
    folder.  The records of the other attachments are not touched. *)
Theorem sent_record_read_back (p : Prefs) (root rest projectFolder : string)
    (r : SendResult) (w : World) :
  destDir (prefs w) = Some root ->
  Str.strip_trailing_slashes root = root ->
  Str.contains "$" root = false ->
  sr_finalPath r = (root ++ rest)%string ->
  getTabletInfo (send_record p root projectFolder r w) (sr_attachment r)
  = Some (Json.Obj [("location", Json.Str (sr_finalPath r));
                    ("lastmod", Json.Num (sr_modTime r));
                    ("mode", Json.Num (JS.or_num (mode p) Constants.MODE_BACKGROUND));
                    ("projectFolder", Json.Str projectFolder)])
  /\ forall b, b <> sr_attachment r ->
       getTabletInfo (send_record p root projectFolder r w) b = getTabletInfo w b.
Proof.
  intros Hroot Hstrip Hdollar Hpath. unfold send_record.
  set (w1 := setTabletInfo (sr_attachment r) (sent_info p root projectFolder r) w).
  assert (Htags : getTags w1 = getTags w) by reflexivity.
  pose proof (only_tags_addTabletTag (sr_attachment r) (onTablet (getTags w)) w1) as Honly.
  split.
  - rewrite (getTabletInfo_only_tags _ _ _ Honly).
    rewrite (getTabletInfo_parsed w1 _ (sent_info p root projectFolder r)).
    2: { unfold w1. rewrite item_of_setTabletInfo. now destruct (decide _). }
    unfold resolved, sent_info. cbn [Json.lookup_field String.eqb Ascii.eqb Bool.eqb].
    rewrite Hpath. rewrite (replace_prefix root rest "[BaseFolder]" eq_refl).
    change (Str.nonempty ("[BaseFolder]" ++ rest)) with true. cbv iota.
    assert (Hcur : current_root w1 = root).
    { unfold current_root, w1. cbn [prefs setTabletInfo update_item set_items].
      rewrite Hroot. unfold JS.or_str.
      destruct (String.eqb_spec root "") as [E|_]; [rewrite E; reflexivity | exact Hstrip]. }
    rewrite Hcur, (replace_prefix "[BaseFolder]" rest root Hdollar). reflexivity.
  - intros b Hb. rewrite (getTabletInfo_only_tags _ _ _ Honly).
    apply getTabletInfo_other_item; [reflexivity|].
    unfold w1. rewrite item_of_setTabletInfo.
    destruct (decide (sr_attachment r = b)) as [E|]; [now destruct Hb | reflexivity].
Qed.

Lemma sent_record_read_back_witness :
  (getTabletInfo
     (send_record (prefs world_edited) "/tablet" ""
        (mkSendResult 1 "/tablet/paper.pdf" 300 "paper.pdf") world_edited) 1
   ≫= fun i => Json.field i "location") = Some (Json.Str "/tablet/paper.pdf").
Proof.
  pose proof (proj1 (sent_record_read_back (prefs world_edited) "/tablet" "/paper.pdf" ""
              (mkSendResult 1 "/tablet/paper.pdf" 300 "paper.pdf") world_edited
              eq_refl eq_refl eq_refl eq_refl)) as H.
  cbn [sr_attachment] in H. rewrite H. reflexivity.
Defined.

(** X11.  After [clearTabletInfo] the attachment has no sync record:
    [getTabletInfo] returns [null].  The rest of its note, its tags and the
    records of the other attachments stay; a second call changes nothing;
    and clearing a record that was just set gives back the note without the
    data element. *)
Theorem clearTabletInfo_clears (a : nat) (w : World) :
  getTabletInfo (clearTabletInfo a w) a = None
  /\ other_html (note (item_of (clearTabletInfo a w) a)) = other_html (note (item_of w a))
  /\ tags (item_of (clearTabletInfo a w) a) = tags (item_of w a)
  /\ (forall b, b <> a -> getTabletInfo (clearTabletInfo a w) b = getTabletInfo w b)
  /\ clearTabletInfo a (clearTabletInfo a w) = clearTabletInfo a w
  /\ (forall info,
        note (item_of (clearTabletInfo a (setTabletInfo a info w)) a)
        = mkNote (other_html (note (item_of w a))) None).
Proof.
  assert (Hcases :
    (clearTabletInfo a w = w
     /\ (note_is_empty (note (item_of w a)) = true \/ data_element (note (item_of w a)) = None))
    \/ (clearTabletInfo a w
        = update_item a (with_note (mkNote (other_html (note (item_of w a))) None)) w)).
  { unfold clearTabletInfo. destruct (note_is_empty (note (item_of w a))) eqn:E; [auto|].
    destruct (data_element (note (item_of w a))); auto. }
  split; [|split; [|split; [|split; [|split]]]].
  - destruct Hcases as [[-> [He|Hd]] | ->].
    + unfold getTabletInfo. now rewrite He.
    + apply getTabletInfo_absent. intros v. congruence.
    + apply getTabletInfo_absent. intros v. rewrite item_of_update.
      destruct (decide (a = a)); [discriminate | contradiction].
  - destruct Hcases as [[-> _] | ->]; [reflexivity|]. rewrite item_of_update.
    now destruct (decide (a = a)).
  - destruct Hcases as [[-> _] | ->]; [reflexivity|]. rewrite item_of_update.
    now destruct (decide (a = a)).
  - intros b Hb. destruct Hcases as [[-> _] | ->]; [reflexivity|].
    apply getTabletInfo_other_item; [reflexivity|]. rewrite item_of_update.
    destruct (decide (a = b)); [congruence | reflexivity].
  - destruct Hcases as [[Heq _] | ->]; [now rewrite !Heq|].
    unfold clearTabletInfo at 1. rewrite item_of_update.
    destruct (decide (a = a)); [|contradiction]. cbn [note with_note data_element].
    now destruct (note_is_empty _).
  - intros info. unfold clearTabletInfo. rewrite item_of_setTabletInfo.
    destruct (decide (a = a)); [|contradiction].
    cbn [note with_note data_element other_html note_is_empty].
    unfold note_is_empty. cbn [data_element]. rewrite andb_false_r. rewrite item_of_update.
    destruct (decide (a = a)); [|contradiction].
    rewrite item_of_setTabletInfo. destruct (decide (a = a)); [|contradiction]. reflexivity.
Qed.

End RoundTripFacts.

(** ** The markers of a parent item *)

Module ParentTagFacts.
Import Zotero SyncManager.
Import TagFacts.

(** The child attachments of [p] that the store has. *)
Definition children (w : World) (p : nat) : list nat :=
  Items_get_all w (attachments (item_of w p)).

(** The parent carries the tag exactly when one of its children does. *)
Definition parent_reflects (w : World) (p : nat) (t : string) : Prop :=
  hasTag w p t = existsb (fun c => hasTag w c t) (children w p).

(** Whether a child other than [a] carries the tag. *)
Definition sibling_has (w : World) (p a : nat) (t : string) : bool :=
  existsb (fun c => negb (c =? a)%nat && hasTag w c t) (children w p).

(** Two worlds with the same items, up to their tags. *)
Definition same_library (w w' : World) : Prop :=
  (forall c, is_Some (items w' !! c) <-> is_Some (items w !! c))
  /\ (forall c, attachments (item_of w' c) = attachments (item_of w c))
  /\ (forall c, parentItemID (item_of w' c) = parentItemID (item_of w c)).

Lemma same_library_refl (w : World) : same_library w w.
Proof. now repeat split. Qed.

Lemma same_library_trans (w1 w2 w3 : World) :
  same_library w1 w2 -> same_library w2 w3 -> same_library w1 w3.
Proof.
  intros (H1 & H2 & H3) (H1' & H2' & H3'). split; [|split].
  - intros c. now rewrite H1', H1.
  - intros c. now rewrite H2', H2.
  - intros c. now rewrite H3', H3.
Qed.

Lemma same_library_update (id : nat) (t : gset string -> gset string) (w : World) :
  is_Some (items w !! id) ->
  same_library w (update_item id (fun i => with_tags (t (tags i)) i) w).
Proof.
  intros Hid. split; [|split].
  - intros c. unfold update_item. cbn [items set_items].
    destruct (decide (id = c)) as [->|Hne].
    + rewrite lookup_insert_eq. split; eauto.
    + now rewrite lookup_insert_ne.
  - intros c. rewrite item_of_update. now destruct (decide (id = c)) as [->|].
  - intros c. rewrite item_of_update. now destruct (decide (id = c)) as [->|].
Qed.

Lemma same_library_children (w w' : World) (p : nat) :
  same_library w w' -> children w' p = children w p.
Proof.
  intros (H1 & H2 & _). unfold children, Items_get_all. rewrite H2.
  apply filter_ext. intros c. apply bool_decide_ext, H1.
Qed.

Lemma same_library_Items_get (w w' : World) (x : option nat) :
  same_library w w' -> Items_get w' x = Items_get w x.
Proof.
  intros (H1 & _). destruct x as [c|]; [|reflexivity]. unfold Items_get.
  now rewrite (bool_decide_ext _ _ (H1 c)).
Qed.

Lemma existsb_ext_in {A : Type} (f g : A -> bool) (l : list A) :
  (forall x, In x l -> f x = g x) -> existsb f l = existsb g l.
Proof.
  induction l as [|x l IH]; intros H; [reflexivity|]. simpl.
  rewrite (H x (or_introl eq_refl)), IH; auto. intros y Hy. apply H. now right.
Qed.

Section Child.

Variable w : World.
Variables a p : nat.
Hypothesis Hparent : parentItemID (item_of w a) = Some p.
Hypothesis Hp : is_Some (items w !! p).
Hypothesis Ha : is_Some (items w !! a).
Hypothesis Hnot_child : ~ In p (attachments (item_of w p)).
Hypothesis Hchild : In a (attachments (item_of w p)).

Lemma child_not_parent : a <> p.
Proof. intros ->. contradiction. Qed.

Lemma child_listed : In a (children w p).
Proof.
  unfold children, Items_get_all. apply List.filter_In. split; [exact Hchild|].
  now apply bool_decide_eq_true_2.
Qed.

Lemma parent_not_listed : ~ In p (children w p).
Proof.
  unfold children, Items_get_all. intros H%List.filter_In. now destruct H.
Qed.

(** What [removeTabletTag] does to the tags of a child attachment, of its
    parent and of the other items. *)
Lemma removeTabletTag_tags (tag : string) :
  same_library w (removeTabletTag a tag w)
  /\ forall id t,
       hasTag (removeTabletTag a tag w) id t =
       if decide (id = a)
       then negb (bool_decide (t = tag)) && hasTag w a t
       else if decide (id = p)
       then (if bool_decide (t = tag) then sibling_has w p a tag && hasTag w p t
             else hasTag w p t)
       else hasTag w id t.
Proof.
  pose proof child_not_parent as Hap.
  unfold removeTabletTag. set (w1 := removeTag a tag w).
  assert (Hlib1 : same_library w w1)
    by apply (same_library_update a (fun ts => ts ∖ {[tag]}) w Ha).
  assert (Hget : Items_get w1 (parentItemID (item_of w1 a)) = Some p).
  { rewrite (proj2 (proj2 Hlib1)), Hparent, (same_library_Items_get _ _ _ Hlib1).
    unfold Items_get. now rewrite bool_decide_eq_true_2. }
  rewrite Hget.
  assert (Htag1 : forall id t,
    hasTag w1 id t =
    if decide (id = a) then negb (bool_decide (t = tag)) && hasTag w a t else hasTag w id t).
  { intros id t. unfold w1. rewrite hasTag_removeTag.
    destruct (decide (a = id)) as [->|Hn]; destruct (decide _); congruence. }
  assert (Hsib : other_sibling_has w1 p a tag = sibling_has w p a tag).
  { unfold other_sibling_has, sibling_has. fold (children w1 p).
    rewrite (same_library_children _ _ _ Hlib1). apply existsb_ext_in.
    intros c Hc. destruct (Nat.eqb_spec c a) as [->|Hca]; [reflexivity|]. cbn [negb andb].
    rewrite Htag1. destruct (decide (c = a)); [contradiction | reflexivity]. }
  assert (Hptag : hasTag w1 p tag = hasTag w p tag).
  { rewrite Htag1. destruct (decide (p = a)); [congruence | reflexivity]. }
  rewrite Hsib, Hptag.
  assert (Hrm : forall id t,
    hasTag (removeTag p tag w1) id t =
    if decide (id = p) then negb (bool_decide (t = tag)) && hasTag w p t
    else hasTag w1 id t).
  { intros id t. rewrite hasTag_removeTag, Htag1.
    destruct (decide (id = p)) as [->|Hn].
    - destruct (decide (p = p)); [|contradiction].
      destruct (decide (p = a)); [congruence | reflexivity].
    - destruct (decide (p = id)); [congruence | reflexivity]. }
  split.
  - destruct (hasTag w p tag); [|exact Hlib1].
    destruct (negb (sibling_has w p a tag)); [|exact Hlib1].
    eapply same_library_trans; [exact Hlib1|].
    apply (same_library_update p (fun ts => ts ∖ {[tag]})). now apply (proj1 Hlib1).
  - intros id t.
    destruct (decide (id = a)) as [->|Hida].
    + destruct (hasTag w p tag); [destruct (negb (sibling_has w p a tag))|];
        rewrite ?Hrm, ?Htag1; destruct (decide (a = p)); try congruence;
        destruct (decide (a = a)); congruence.
    + destruct (decide (id = p)) as [->|Hidp].
      * destruct (hasTag w p tag) eqn:Et.
        -- destruct (sibling_has w p a tag); cbn [negb].
           ++ rewrite Htag1. destruct (decide (p = a)); [congruence|].
              destruct (bool_decide (t = tag)) eqn:E; [|reflexivity].
              apply bool_decide_eq_true in E. subst t. now rewrite Et.
           ++ rewrite Hrm. destruct (decide (p = p)); [|contradiction].
              now destruct (bool_decide (t = tag)).
        -- rewrite Htag1. destruct (decide (p = a)); [congruence|].
           destruct (bool_decide (t = tag)) eqn:E; [|reflexivity].
           apply bool_decide_eq_true in E. subst t. rewrite Et. now rewrite andb_false_r.
      * destruct (hasTag w p tag); [destruct (negb (sibling_has w p a tag))|];
          rewrite ?Hrm, ?Htag1; destruct (decide (id = p)); try congruence;
          destruct (decide (id = a)); congruence.
Qed.

Lemma sibling_has_child (t : string) :
  sibling_has w p a t = true -> existsb (fun c => hasTag w c t) (children w p) = true.
Proof.
  unfold sibling_has. intros H. apply existsb_exists in H as (c & Hc & H).
  apply andb_prop in H as [_ H]. apply existsb_exists. eauto.
Qed.

End Child.

Section AnyMarkers.

Variable w : World.
Variables a p : nat.
Hypothesis Hparent : parentItemID (item_of w a) = Some p.
Hypothesis Hp : is_Some (items w !! p).
Hypothesis Ha : is_Some (items w !! a).
Hypothesis Hnot_child : ~ In p (attachments (item_of w p)).
Hypothesis Hchild : In a (attachments (item_of w p)).

(** What [addTabletTag] does to the tags, whatever the two markers are:
    the removals come after the additions. *)
Lemma addTabletTag_tags_any (tag : string) :
  same_library w (addTabletTag a tag w)
  /\ forall id t,
       hasTag (addTabletTag a tag w) id t =
       if decide (id = a)
       then negb (bool_decide (t = otherTag w tag)) && (bool_decide (t = tag) || hasTag w a t)
       else if decide (id = p)
       then (sibling_has w p a (otherTag w tag) || negb (bool_decide (t = otherTag w tag)))
            && (bool_decide (t = tag) || hasTag w p t)
       else hasTag w id t.
Proof.
  assert (Hap : a <> p) by (eapply child_not_parent; eauto).
  unfold addTabletTag. fold (otherTag w tag). set (o := otherTag w tag) in *.
  set (w1 := removeTag a o (addTag a tag w)).
  assert (Hlib1 : same_library w w1).
  { eapply same_library_trans.
    - apply (same_library_update a (fun ts => {[tag]} ∪ ts) w Ha).
    - apply (same_library_update a (fun ts => ts ∖ {[o]})).
      apply (proj1 (same_library_update a (fun ts => {[tag]} ∪ ts) w Ha)). exact Ha. }
  assert (Hget : Items_get w1 (parentItemID (item_of w1 a)) = Some p).
  { rewrite (proj2 (proj2 Hlib1)), Hparent, (same_library_Items_get _ _ _ Hlib1).
    unfold Items_get. now rewrite bool_decide_eq_true_2. }
  rewrite Hget.
  set (w2 := addTag p tag w1).
  assert (Hlib2 : same_library w w2).
  { eapply same_library_trans; [exact Hlib1|].
    apply (same_library_update p (fun ts => {[tag]} ∪ ts)). now apply (proj1 Hlib1). }
  assert (Htag1 : forall id t,
    hasTag w1 id t =
    if decide (id = a)
    then negb (bool_decide (t = o)) && (bool_decide (t = tag) || hasTag w a t)
    else hasTag w id t).
  { intros id t. unfold w1. rewrite hasTag_removeTag, hasTag_addTag.
    destruct (decide (a = id)) as [->|Hn]; destruct (decide _); congruence. }
  assert (Htag2 : forall id t,
    hasTag w2 id t =
    if decide (id = p) then bool_decide (t = tag) || hasTag w p t else hasTag w1 id t).
  { intros id t. unfold w2. rewrite hasTag_addTag.
    destruct (decide (p = id)) as [->|Hn].
    - destruct (decide (id = id)); [|contradiction]. rewrite Htag1.
      destruct (decide (id = a)); [congruence | reflexivity].
    - destruct (decide (id = p)); [congruence | reflexivity]. }
  assert (Hsib : other_sibling_has w2 p a o = sibling_has w p a o).
  { unfold other_sibling_has, sibling_has. fold (children w2 p).
    rewrite (same_library_children _ _ _ Hlib2). apply existsb_ext_in.
    intros c Hc. destruct (Nat.eqb_spec c a) as [->|Hca]; [reflexivity|]. cbn [negb andb].
    rewrite Htag2. destruct (decide (c = p)) as [->|Hcp].
    - exfalso. eapply parent_not_listed; eauto.
    - rewrite Htag1. destruct (decide (c = a)); [contradiction | reflexivity]. }
  rewrite Hsib. split.
  - destruct (negb (sibling_has w p a o)); [|exact Hlib2].
    eapply same_library_trans; [exact Hlib2|].
    apply (same_library_update p (fun ts => ts ∖ {[o]})). now apply (proj1 Hlib2).
  - intros id t. destruct (sibling_has w p a o); cbn [negb orb].
    + rewrite Htag2, Htag1. destruct (decide (id = p)) as [->|Hidp].
      * destruct (decide (p = a)); [congruence | reflexivity].
      * reflexivity.
    + rewrite hasTag_removeTag, Htag2, Htag1. destruct (decide (id = p)) as [->|Hidp].
      * destruct (decide (p = p)); [|contradiction].
        destruct (decide (p = a)); [congruence | reflexivity].
      * destruct (decide (p = id)); [congruence | reflexivity].
Qed.

Lemma children_but (t : string) (f : nat -> bool) :
  (forall c, In c (children w p) -> c <> a -> f c = hasTag w c t) ->
  f a = false ->
  existsb f (children w p) = sibling_has w p a t.
Proof.
  intros Hf Hfa. unfold sibling_has. apply existsb_ext_in. intros c Hc.
  destruct (Nat.eqb_spec c a) as [->|Hca]; [exact Hfa|]. cbn [negb andb]. now apply Hf.
Qed.

End AnyMarkers.

(** X12.  The markers of a parent follow its children, whatever the two
    marker strings are.  For a child attachment [a] of a parent [p] in the
    store: after [addTabletTag] the parent carries the added tag exactly
    when one of its children does, and every other tag that the parent
    carried exactly when one of its children did is still carried exactly
    when one of them does; after [removeTabletTag] the same holds of every
    tag.  When the added tag is not its own opposite marker, the attachment
    and the parent carry it afterwards; when it is (both preferences hold
    the added string), the attachment does not. *)
Theorem parent_markers_follow_children (w : World) (a p : nat) (tag : string) :
  parentItemID (item_of w a) = Some p ->
  is_Some (items w !! p) -> is_Some (items w !! a) ->
  ~ In p (attachments (item_of w p)) -> In a (attachments (item_of w p)) ->
  (forall t, t = tag \/ parent_reflects w p t ->
     parent_reflects (addTabletTag a tag w) p t)
  /\ (forall t, parent_reflects w p t -> parent_reflects (removeTabletTag a tag w) p t)
  /\ (tag <> otherTag w tag ->
      hasTag (addTabletTag a tag w) a tag = true
      /\ hasTag (addTabletTag a tag w) p tag = true)
  /\ (tag = otherTag w tag -> hasTag (addTabletTag a tag w) a tag = false).
Proof.
  intros Hparent Hp Ha Hnot Hchild.
  assert (Hap : a <> p) by (eapply child_not_parent; eauto).
  assert (Hlisted : In a (children w p)) by (eapply child_listed; eauto).
  assert (Hpl : ~ In p (children w p)) by (eapply parent_not_listed; eauto).
  destruct (addTabletTag_tags_any w a p Hparent Hp Ha Hnot Hchild tag) as [Hlib Htags].
  assert (Hpa : forall t, hasTag (addTabletTag a tag w) p t
                = (sibling_has w p a (otherTag w tag) || negb (bool_decide (t = otherTag w tag)))
                  && (bool_decide (t = tag) || hasTag w p t)).
  { intros t. rewrite Htags. destruct (decide (p = a)); [congruence|].
    destruct (decide (p = p)); [reflexivity | contradiction]. }
  assert (Haa : forall t, hasTag (addTabletTag a tag w) a t
                = negb (bool_decide (t = otherTag w tag))
                  && (bool_decide (t = tag) || hasTag w a t)).
  { intros t. rewrite Htags. destruct (decide (a = a)); [reflexivity | contradiction]. }
  assert (Hother : forall c t, In c (children w p) -> c <> a ->
            hasTag (addTabletTag a tag w) c t = hasTag w c t).
  { intros c t Hc Hca. rewrite Htags. destruct (decide (c = a)); [contradiction|].
    destruct (decide (c = p)) as [->|]; [contradiction | reflexivity]. }
  split; [|split; [|split]].
  - intros t Ht. unfold parent_reflects.
    rewrite (same_library_children _ _ _ Hlib), Hpa.
    destruct (bool_decide (t = otherTag w tag)) eqn:Eo; cbn [negb].
    + apply bool_decide_eq_true in Eo. subst t. rewrite orb_false_r.
      rewrite (children_but w a p (otherTag w tag)
                 (fun c => hasTag (addTabletTag a tag w) c (otherTag w tag))).
      2: { intros c Hc Hca. now apply Hother. }
      2: { rewrite Haa. now rewrite bool_decide_eq_true_2. }
      destruct (sibling_has w p a (otherTag w tag)) eqn:Es; [|reflexivity].
      cbn [andb]. apply orb_true_iff.
      destruct (bool_decide (otherTag w tag = tag)) eqn:Et; [now left | right].
      destruct Ht as [E|Hinv]; [rewrite bool_decide_eq_true_2 in Et; congruence|].
      unfold parent_reflects in Hinv. rewrite Hinv. eapply sibling_has_child; eauto.
    + rewrite orb_true_r. cbn [andb].
      destruct (bool_decide (t = tag)) eqn:Et; cbn [orb].
      * symmetry. apply existsb_exists. exists a. split; [exact Hlisted|].
        rewrite Haa, Eo, Et. reflexivity.
      * destruct Ht as [->|Hinv]; [now rewrite bool_decide_eq_true_2 in Et|].
        unfold parent_reflects in Hinv. rewrite Hinv. apply existsb_ext_in.
        intros c Hc. destruct (decide (c = a)) as [->|Hca].
        -- rewrite Haa, Eo, Et. reflexivity.
        -- symmetry. now apply Hother.
  - intros t Hinv.
    edestruct (removeTabletTag_tags w a p) as [Hlib' Htags']; eauto.
    unfold parent_reflects in *. rewrite (same_library_children _ _ _ Hlib'), Htags'.
    destruct (decide (p = a)); [congruence|]. destruct (decide (p = p)); [|contradiction].
    destruct (bool_decide (t = tag)) eqn:Et.
    + apply bool_decide_eq_true in Et. subst t.
      rewrite (children_but w a p tag (fun c => hasTag (removeTabletTag a tag w) c tag)).
      2: { intros c Hc Hca. rewrite Htags'. destruct (decide (c = a)); [contradiction|].
           destruct (decide (c = p)) as [->|]; [contradiction | reflexivity]. }
      2: { rewrite Htags'. destruct (decide (a = a)); [|contradiction].
           now rewrite bool_decide_eq_true_2. }
      destruct (sibling_has w p a tag) eqn:Es; [|reflexivity]. cbn [andb].
      rewrite Hinv. eapply sibling_has_child; eauto.
    + rewrite Hinv. apply existsb_ext_in. intros c Hc. rewrite Htags'.
      destruct (decide (c = a)) as [->|Hca]; [now rewrite Et|].
      destruct (decide (c = p)) as [->|]; [contradiction | reflexivity].
  - intros Hne. split.
    + rewrite Haa. rewrite (bool_decide_eq_false_2 (tag = otherTag w tag)) by exact Hne.
      now rewrite bool_decide_eq_true_2.
    + rewrite Hpa. rewrite (bool_decide_eq_false_2 (tag = otherTag w tag)) by exact Hne.
      rewrite orb_true_r. now rewrite bool_decide_eq_true_2.
  - intros He. rewrite Haa. now rewrite (bool_decide_eq_true_2 (tag = otherTag w tag)).
Qed.

Lemma parent_markers_follow_children_witness :
  parent_reflects (addTabletTag 1 "_tablet_modified" RetrieveFacts.world_conflict) 10
    "_tablet_modified"
  /\ parent_reflects (addTabletTag 1 "_tablet_modified" RetrieveFacts.world_conflict) 10
       "_tablet"
  /\ hasTag (addTabletTag 1 "_tablet_modified" RetrieveFacts.world_conflict) 10
       "_tablet_modified" = true.
Proof.
  destruct (parent_markers_follow_children RetrieveFacts.world_conflict 1 10
              "_tablet_modified") as (H & _ & Hc & _).
  { vm_compute. reflexivity. }
  { eexists. vm_compute. reflexivity. }
  { eexists. vm_compute. reflexivity. }
  { vm_compute. intros [E|[E|[]]]; discriminate. }
  { vm_compute. auto. }
  assert (Hne : "_tablet_modified" <> otherTag RetrieveFacts.world_conflict "_tablet_modified")
    by (vm_compute; discriminate).
  split; [apply H; now left|]. split; [apply H; right; vm_compute; reflexivity|].
  apply (Hc Hne).
Defined.

End ParentTagFacts.

(** ** More on check-modifications *)

Module CheckMoreFacts.
Import Zotero SyncManager.
Import PathFacts RecordFacts TagFacts ReadFacts CheckFacts.

Lemma isOnTablet_item (w w' : World) (a : nat) :
  prefs w' = prefs w -> item_of w' a = item_of w a -> isOnTablet w' a = isOnTablet w a.
Proof. unfold isOnTablet, hasTag, getTags. now intros -> ->. Qed.

Lemma addTabletTag_tracked (b : nat) (tag : string) (w : World) :
  onTablet (getTags w) <> modified (getTags w) ->
  tag = onTablet (getTags w) \/ tag = modified (getTags w) ->
  isOnTablet (addTabletTag b tag w) b = true.
Proof.
  intros Hne Htag.
  destruct (addTabletTag_attachment b tag w (otherTag_differs w tag Hne Htag)) as [Ht _].
  unfold isOnTablet. rewrite getTags_addTabletTag.
  destruct Htag as [E|E]; rewrite <- E, Ht; [reflexivity | apply orb_true_r].
Qed.

(** A tracked attachment of the list is still tracked after the loop over
    the check results. *)
Lemma apply_checks_tracked (h : Host) (w : World) (atts : list nat) :
  library_ok w atts ->
  onTablet (getTags w) <> modified (getTags w) ->
  forall (rest : list nat) (n : Z) (w' : World),
    (forall b, In b rest -> In b atts) ->
    only_tags w w' ->
    (forall a, In a atts -> isOnTablet w a = true -> isOnTablet w' a = true) ->
    forall a, In a atts -> isOnTablet w a = true ->
      isOnTablet (snd (fold_left (fun st r => apply_check r st)
                         (List.map (check_of h w) rest) (n, w'))) a = true.
Proof.
  intros Hlib Hne rest. induction rest as [|b rest IH]; intros n w' Hrest Hot Hinv; [exact Hinv|].
  cbn [List.map fold_left].
  pose proof (apply_check_only_tags h w w' b n Hot) as Hot1.
  pose proof (getTags_only_tags _ _ Hot) as Hg.
  assert (Hstep : forall a, In a atts -> isOnTablet w a = true ->
            isOnTablet (snd (apply_check (check_of h w b) (n, w'))) a = true).
  { intros a Ha Hon. destruct (Nat.eq_dec a b) as [->|Hab].
    - unfold apply_check. cbn [cr_needsUpdate cr_isModified cr_hasModifiedTag cr_attachment
                                check_of].
      repeat (match goal with |- context [if ?c then _ else _] => destruct c end);
        cbn [snd]; auto; apply addTabletTag_tracked; rewrite ?Hg; auto.
    - assert (Hpa : parentItemID (item_of w b) <> Some a).
      { intros Hp. destruct (Hlib b (Hrest b (or_introl eq_refl))) as [_ Hpar].
        apply Hpar in Hp. destruct (Hlib a Ha). congruence. }
      pose proof (apply_check_others h w w' b a n Hot Hab Hpa) as Hsame.
      rewrite (isOnTablet_item w' _ a); [auto| |exact Hsame].
      destruct Hot as (Hp0 & _), Hot1 as (Hp1 & _). congruence. }
  destruct (apply_check (check_of h w b) (n, w')) as [n1 w1]. cbn [snd] in *.
  apply IH; auto. intros; apply Hrest; now right.
Qed.

(** What the check leaves: markers in line with [isModified]. *)
Lemma check_marks (h : Host) (w : World) (atts : list nat) :
  library_ok w atts ->
  onTablet (getTags w) <> modified (getTags w) ->
  exists n w1,
    checkModifications h atts w = Some (n, w1)
    /\ fs w1 = fs w /\ prefs w1 = prefs w
    /\ (forall id, note (item_of w1 id) = note (item_of w id))
    /\ forall a, In a atts -> isOnTablet w a = true ->
         isOnTablet w1 a = true
         /\ exists b, isModified h a w = (Ok b, w)
                      /\ hasTag w1 a (modified (getTags w)) = b.
Proof.
  intros Hlib Hne.
  destruct (checkModifications_settles h w atts Hlib) as (n & w1 & Hrun & Hot & Hs).
  exists n, w1. split; [exact Hrun|].
  destruct Hot as (Hp & Hf & Hi). split; [exact Hf|]. split; [exact Hp|].
  split; [intros id; apply same_but_tags_note, Hi|].
  intros a Ha Hon.
  assert (Htracked : isOnTablet w1 a = true).
  { revert Hrun. unfold checkModifications. rewrite check_results_run.
    destruct (List.filter (isOnTablet w) atts) as [|x l] eqn:E.
    - intros [= _ <-]. exact Hon.
    - rewrite <- E. intros Hrun.
      pose proof (apply_checks_tracked h w atts Hlib Hne (List.filter (isOnTablet w) atts)
                    0%Z w) as Ht.
      injection Hrun as Hrun. rewrite Hrun in Ht. cbn [snd] in Ht.
      apply Ht; auto using only_tags_refl.
      intros b Hb. now apply List.filter_In in Hb. }
  split; [exact Htracked|].
  exists (isOnTablet w a && external_newer h w a). split; [apply isModified_run|].
  specialize (Hs a Ha). unfold settled in Hs. rewrite Htracked in Hs.
  rewrite Hon. cbn [andb] in *. now rewrite Hs.
Qed.

(** X13.  Check-modifications brings the modified marker in line with
    [isModified].  On a library whose attachments have regular items as
    parents and with two different marker strings, it returns; it changes no
    file, no preference and no note; every listed attachment that was
    tracked is still tracked, and afterwards it carries the modified marker
    exactly when [isModified] found its tablet copy newer than recorded. *)
Theorem checkModifications_marks (h : Host) (w : World) (atts : list nat) :
  library_ok w atts ->
  onTablet (getTags w) <> modified (getTags w) ->
  exists n w1,
    checkModifications h atts w = Some (n, w1)
    /\ fs w1 = fs w /\ prefs w1 = prefs w
    /\ (forall id, note (item_of w1 id) = note (item_of w id))
    /\ forall a, In a atts -> isOnTablet w a = true ->
         isOnTablet w1 a = true
         /\ exists b, isModified h a w = (Ok b, w)
                      /\ hasTag w1 a (modified (getTags w)) = b.
Proof. exact (check_marks h w atts). Qed.

Lemma checkModifications_marks_witness :
  exists w1,
    option_map snd (checkModifications unix_host [1] world_edited) = Some w1
    /\ hasTag w1 1 "_tablet_modified" = true.
Proof.
  destruct (checkModifications_marks unix_host world_edited [1] world_edited_ok)
    as (n & w1 & Hrun & _ & _ & _ & Hmark); [vm_compute; discriminate|].
  exists w1. rewrite Hrun. split; [reflexivity|].
  destruct (Hmark 1) as (_ & b & Hb & Htag); [now left | vm_compute; reflexivity |].
  change (modified (getTags world_edited)) with "_tablet_modified" in Htag.
  rewrite Htag. vm_compute in Hb. now injection Hb as <-.
Defined.

(** Whether the check finds the attachment modified and not yet marked. *)
Definition newly_modified (h : Host) (w : World) (a : nat) : bool :=
  match fst (isModified h a w) with
  | Ok b => b && negb (hasTag w a (modified (getTags w)))
  | Throw _ => false
  end.

Lemma apply_checks_count (rs : list CheckResult) :
  forall (n : Z) (w' : World),
    fst (fold_left (fun st r => apply_check r st) rs (n, w'))
    = (n + Z.of_nat (List.length
             (List.filter (fun r => cr_needsUpdate r && cr_isModified r
                                    && negb (cr_hasModifiedTag r)) rs)))%Z.
Proof.
  induction rs as [|r rs IH]; intros n w'; [simpl; lia|].
  cbn [fold_left List.filter]. unfold apply_check at 2.
  destruct (cr_needsUpdate r); cbn [negb andb].
  - destruct (cr_isModified r && negb (cr_hasModifiedTag r)) eqn:E.
    + rewrite IH. cbn [List.length]. lia.
    + destruct (negb (cr_isModified r) && cr_hasModifiedTag r); rewrite IH; lia.
  - rewrite IH. lia.
Qed.

(** X14.  Check-modifications always returns, and the count it returns is
    the number of entries of the list that are tracked, found modified by
    [isModified] and not yet marked as modified, each counted as often as it
    is listed. *)
Theorem checkModifications_count (h : Host) (w : World) (atts : list nat) :
  exists w1,
    checkModifications h atts w
    = Some (Z.of_nat (List.length (List.filter (newly_modified h w)
                                     (List.filter (isOnTablet w) atts))), w1).
Proof.
  unfold checkModifications. rewrite check_results_run.
  destruct (List.filter (isOnTablet w) atts) as [|x l] eqn:E; [now exists w|].
  rewrite <- E. clear E.
  destruct (fold_left _ _ _) as [n w1] eqn:Ef. exists w1. f_equal. f_equal.
  pose proof (apply_checks_count (List.map (check_of h w) (List.filter (isOnTablet w) atts))
                0%Z w) as Hc.
  rewrite Ef in Hc. cbn [fst] in Hc. rewrite Hc, Z.add_0_l. f_equal.
  generalize (List.filter (isOnTablet w) atts) as l'. intros l'.
  induction l' as [|a l' IH]; [reflexivity|].
  cbn [List.map List.filter].
  assert (Hsame : (cr_needsUpdate (check_of h w a) && cr_isModified (check_of h w a)
                   && negb (cr_hasModifiedTag (check_of h w a)))
                  = newly_modified h w a).
  { unfold newly_modified. rewrite isModified_run. cbn [fst check_of cr_needsUpdate
      cr_isModified cr_hasModifiedTag].
    destruct (isOnTablet w a && external_newer h w a), (hasTag w a (modified (getTags w)));
      reflexivity. }
  rewrite Hsame. destruct (newly_modified h w a); cbn [List.length]; now rewrite IH.
Qed.

End CheckMoreFacts.

(** ** More on get-from-tablet *)

Module RetrieveMoreFacts.
Import Zotero SyncManager.
Import PathFacts RecordFacts TagFacts ReadFacts FrameFacts RetrieveFacts FileFacts.

(** [getFromTablet] with all that it returns. *)
Lemma getFromTablet_phases (h : Host) (atts : list nat) (flag : bool) (w : World) :
  on_tablet w atts <> [] ->
  getFromTablet h atts flag w
  = Some (Some (mkRetrieved
                  (mkSummary
                     (List.length (List.filter Batch.entry_success (fst (applied h w atts))))
                     (error_names (List.filter (fun e => negb (Batch.entry_success e))
                                     (fst (applied h w atts)))))
                  (kept h w atts) (toCleanup (separated h w atts))
                  (toSaveDB (fst (cleaned_up h w atts)))
                  (if flag && extractOnSync (prefs w)
                   then toExtract (fst (cleaned_up h w atts)) else [])),
          snd (cleaned_up h w atts)).
Proof.
  intros Hne. unfold getFromTablet. fold (on_tablet w atts).
  destruct (on_tablet w atts) as [|b l] eqn:Hl; [congruence|]. rewrite <- Hl.
  destruct (batch_attachments_pure h (gatherInfo h) (gathered h w) (on_tablet w atts) w
              (gatherInfo_run h w)) as (acc & -> & -> & ->).
  fold (separated h w atts). rewrite resolve_conflicts_spec.
  fold (asked h w atts). fold (kept h w atts).
  unfold batch_objects. rewrite BatchFacts.processInBatches_run by reflexivity.
  fold (applied h w atts). rewrite BatchFacts.collect_spec.
  cbn [Batch.successes Batch.errors Batch.acc0 app error_names omap].
  fold (file_results h w atts). fold (cleaned_up h w atts).
  now destruct (cleaned_up h w atts) as [c w4].
Qed.

(** *** What the clean-up leaves of the tracking *)

(** The attachment carries neither marker and has no data element. *)
Definition cleared (tg : Tags) (w : World) (a : nat) : Prop :=
  hasTag w a (onTablet tg) = false
  /\ hasTag w a (modified tg) = false
  /\ data_element (note (item_of w a)) = None.

Lemma removeTag_shrinks (b : nat) (tag : string) (w : World) (id : nat) (t : string) :
  hasTag w id t = false -> hasTag (removeTag b tag w) id t = false.
Proof.
  intros H. rewrite hasTag_removeTag. destruct (decide (b = id)); [|exact H].
  rewrite H. apply andb_false_r.
Qed.

Lemma removeTag_note (b : nat) (tag : string) (w : World) (id : nat) :
  note (item_of (removeTag b tag w) id) = note (item_of w id).
Proof.
  unfold removeTag. rewrite item_of_update. now destruct (decide (b = id)) as [->|].
Qed.

Lemma removeTabletTag_shrinks (b : nat) (tag : string) (w : World) (id : nat) (t : string) :
  hasTag w id t = false -> hasTag (removeTabletTag b tag w) id t = false.
Proof.
  intros H. unfold removeTabletTag.
  repeat (match goal with |- context [match ?x with _ => _ end] => destruct x end);
    auto using removeTag_shrinks.
Qed.

Lemma removeTabletTag_off (b : nat) (tag : string) (w : World) :
  hasTag (removeTabletTag b tag w) b tag = false.
Proof.
  assert (H : hasTag (removeTag b tag w) b tag = false).
  { rewrite hasTag_removeTag. destruct (decide (b = b)); [|contradiction].
    now rewrite bool_decide_eq_true_2. }
  unfold removeTabletTag.
  repeat (match goal with |- context [match ?x with _ => _ end] => destruct x end);
    auto using removeTag_shrinks.
Qed.

Lemma removeTabletTag_note (b : nat) (tag : string) (w : World) (id : nat) :
  note (item_of (removeTabletTag b tag w) id) = note (item_of w id).
Proof.
  unfold removeTabletTag.
  repeat (match goal with |- context [match ?x with _ => _ end] => destruct x end);
    rewrite ?removeTag_note; reflexivity.
Qed.

Lemma clearTabletInfo_hasTag (b : nat) (w : World) (id : nat) (t : string) :
  hasTag (clearTabletInfo b w) id t = hasTag w id t.
Proof.
  unfold clearTabletInfo, hasTag.
  repeat (match goal with |- context [match ?x with _ => _ end] => destruct x end);
    try reflexivity.
  rewrite item_of_update. now destruct (decide (b = id)) as [->|].
Qed.

Lemma clearTabletInfo_data (b : nat) (w : World) (id : nat) :
  id = b \/ data_element (note (item_of w id)) = None ->
  data_element (note (item_of (clearTabletInfo b w) id)) = None.
Proof.
  intros H. unfold clearTabletInfo.
  destruct (note_is_empty (note (item_of w b))) eqn:E.
  - destruct H as [->|H]; [|exact H]. unfold note_is_empty in E.
    destruct (data_element (note (item_of w b))); [|reflexivity].
    now rewrite andb_false_r in E.
  - destruct (data_element (note (item_of w b))) eqn:Ed.
    + rewrite item_of_update. destruct (decide (b = id)) as [->|Hne]; [reflexivity|].
      destruct H as [->|H]; [contradiction | exact H].
    + destruct H as [->|H]; [exact Ed | exact H].
Qed.

Lemma untrack_cleared (b : nat) (w : World) (a : nat) :
  a = b \/ cleared (getTags w) w a -> cleared (getTags w) (untrack b w) a.
Proof.
  intros H. unfold untrack, cleared. rewrite !clearTabletInfo_hasTag.
  split; [|split].
  - apply removeTabletTag_shrinks. destruct H as [->|(H & _)].
    + apply removeTabletTag_off.
    + now apply removeTabletTag_shrinks.
  - destruct H as [->|(_ & H & _)].
    + apply removeTabletTag_off.
    + now do 2 apply removeTabletTag_shrinks.
  - apply clearTabletInfo_data. destruct H as [->|(_ & _ & H)]; [now left | right].
    now rewrite !removeTabletTag_note.
Qed.

Lemma untrack_prefs (b : nat) (w : World) : prefs (untrack b w) = prefs w.
Proof.
  unfold untrack, clearTabletInfo, removeTabletTag.
  repeat (match goal with |- context [match ?x with _ => _ end] => destruct x end);
    reflexivity.
Qed.

Lemma untrack_prompts (b : nat) (w : World) : prompts (untrack b w) = prompts w.
Proof.
  unfold untrack, clearTabletInfo, removeTabletTag.
  repeat (match goal with |- context [match ?x with _ => _ end] => destruct x end);
    reflexivity.
Qed.

Lemma cleared_set_fs (tg : Tags) (f : gmap string FS.Node) (w : World) (a : nat) :
  cleared tg (set_fs f w) a <-> cleared tg w a.
Proof. reflexivity. Qed.

(** The world a turn of the first clean-up loop untracks in. *)
Definition swept (h : Host) (base : option string) (r : GetResult) (w : World) : World :=
  match gr_tabletPath r with
  | Some tabletPath =>
      removeEmptyDirs_from h (ZT.getParentDir h tabletPath) base
        (snd (liftFS (ZT.removeFile h tabletPath) w))
  | None => w
  end.

Lemma cleanup_result_eq (h : Host) (base : option string) (r : GetResult) (c : Cleaned)
    (w : World) :
  cleanup_result h base r (c, w)
  = (mkCleaned (toSaveDB c ++ [gr_attachment r])
               (if gr_shouldExtract r then toExtract c ++ [gr_attachment r] else toExtract c),
     untrack (gr_attachment r) (swept h base r w)).
Proof. reflexivity. Qed.

Lemma swept_items (h : Host) (base : option string) (r : GetResult) (w : World) :
  items (swept h base r w) = items w /\ prefs (swept h base r w) = prefs w
  /\ prompts (swept h base r w) = prompts w.
Proof.
  unfold swept, removeEmptyDirs_from. destruct (gr_tabletPath r) as [t|]; [|auto].
  rewrite liftFS_run. cbn [snd]. now destruct (ZT.getParentDir h t).
Qed.

Lemma cleared_swept (tg : Tags) (h : Host) (base : option string) (r : GetResult) (w : World)
    (a : nat) :
  cleared tg (swept h base r w) a <-> cleared tg w a.
Proof.
  destruct (swept_items h base r w) as (Hi & _). unfold cleared, hasTag, item_of.
  now rewrite Hi.
Qed.

Lemma cleanup_results_cleared (h : Host) (base : option string) (tg : Tags)
    (rs : list GetResult) :
  forall (c : Cleaned) (w : World),
    getTags w = tg ->
    (forall a, In a (toSaveDB c) -> cleared tg w a) ->
    getTags (snd (fold_left (fun st r => cleanup_result h base r st) rs (c, w))) = tg
    /\ forall a, In a (toSaveDB (fst (fold_left (fun st r => cleanup_result h base r st)
                                        rs (c, w)))) ->
         cleared tg (snd (fold_left (fun st r => cleanup_result h base r st) rs (c, w))) a.
Proof.
  induction rs as [|r rs IH]; intros c w Hg Hc; [auto|].
  cbn [fold_left]. rewrite cleanup_result_eq.
  destruct (swept_items h base r w) as (_ & Hp & _).
  assert (Hg' : getTags (swept h base r w) = tg) by (unfold getTags in *; now rewrite Hp).
  apply IH.
  - unfold getTags in *. now rewrite untrack_prefs.
  - cbn [toSaveDB]. intros a Ha. rewrite <- Hg'. apply untrack_cleared. rewrite Hg'.
    apply in_app_or in Ha as [Ha|[<-|[]]]; [right | now left].
    apply cleared_swept. now apply Hc.
Qed.

Lemma cleanup_missing_cleared (tg : Tags) (bs : list nat) :
  forall (c : Cleaned) (w : World),
    getTags w = tg ->
    (forall a, In a (toSaveDB c) -> cleared tg w a) ->
    getTags (snd (fold_left (fun st b => cleanup_missing b st) bs (c, w))) = tg
    /\ forall a, In a (toSaveDB (fst (fold_left (fun st b => cleanup_missing b st)
                                        bs (c, w)))) ->
         cleared tg (snd (fold_left (fun st b => cleanup_missing b st) bs (c, w))) a.
Proof.
  induction bs as [|b bs IH]; intros c w Hg Hc; [auto|].
  cbn [fold_left cleanup_missing]. apply IH.
  - unfold getTags in *. now rewrite untrack_prefs.
  - cbn [toSaveDB]. intros a Ha. rewrite <- Hg. apply untrack_cleared. rewrite Hg.
    apply in_app_or in Ha as [Ha|[<-|[]]]; [right; now apply Hc | now left].
Qed.

Lemma get_processFile_prefs (h : Host) (item : FileInfo) (w0 : World) :
  prefs (snd (get_processFile h item w0)) = prefs w0
  /\ prompts (snd (get_processFile h item w0)) = prompts w0.
Proof.
  unfold get_processFile. munfold.
  destruct (Json.is_num _ Constants.MODE_BACKGROUND).
  - destruct (_ || _); [|auto]. destruct (fi_zoteroPath item); [|auto].
    rewrite liftFS_run. now destruct (ZT.copyFile _ _ _ _ _ _) as [[u|e] f1].
  - rewrite liftFS_run. destruct (ZT.ensureDirectory _ _ _ _) as [[u|e] f1]; [|auto].
    cbn [fst snd]. rewrite liftFS_run.
    destruct (ZT.moveFile _ _ _ _ _) as [[q|e] f2]; [|auto]. cbn [fst snd].
    unfold relinkAttachmentFile. now destruct (FS.io_exists _ _).
Qed.

Lemma applied_prefs (h : Host) (items : list FileInfo) (w0 : World) :
  prefs (snd (Batch.run_chunk (fun _ _ => None) (fun _ _ => None) (fun _ => None)
                (fun _ => None) (get_processFile h) items w0)) = prefs w0
  /\ prompts (snd (Batch.run_chunk (fun _ _ => None) (fun _ _ => None) (fun _ => None)
                     (fun _ => None) (get_processFile h) items w0)) = prompts w0.
Proof.
  destruct (BatchFacts.run_chunk_invariant
              (fun _ _ => None) (fun _ _ => None) (fun _ => None) (fun _ => None)
              (get_processFile h)
              (fun w1 => prefs w1 = prefs w0 /\ prompts w1 = prompts w0)
              (fun _ _ => True) items w0) as [HP _]; auto.
  intros item w1 _ [Hp Hq]. unfold Batch.wrap.
  destruct (get_processFile_prefs h item w1) as [Hp1 Hq1].
  destruct (get_processFile h item w1) as [[r|e] w2]; cbn [fst snd] in *;
    (split; [split; congruence | exact I]).
Qed.

(** X15.  [getFromTablet] always returns, and every attachment it hands
    over for saving (the files retrieved and the ones whose tablet file was
    missing) is untracked in the world it leaves: no marker, no sync
    record. *)
Theorem retrieved_are_untracked (h : Host) (atts : list nat) (flag : bool) (w : World) :
  exists res w',
    getFromTablet h atts flag w = Some (res, w')
    /\ forall r, res = Some r ->
         forall a, In a (saved r) ->
           isOnTablet w' a = false /\ getTabletInfo w' a = None.
Proof.
  destruct (decide (on_tablet w atts = [])) as [Hempty|Hne].
  - exists None, w. split; [|discriminate].
    unfold getFromTablet. fold (on_tablet w atts). now rewrite Hempty.
  - rewrite (getFromTablet_phases h atts flag w Hne). eexists _, _. split; [reflexivity|].
    intros r [= <-] a Ha. cbn [saved] in Ha. revert Ha. unfold cleaned_up.
    destruct (applied_prefs h (kept h w atts) (asked h w atts)) as [Hp _].
    fold (applied h w atts) in Hp.
    assert (Hg : getTags (snd (applied h w atts)) = getTags w)
      by (unfold getTags; now rewrite Hp).
    destruct (cleanup_results_cleared h (destDir (prefs w)) (getTags w)
                (file_results h w atts) (mkCleaned [] []) (snd (applied h w atts)) Hg)
      as [Hg1 Hc1]; [intros ? []|].
    destruct (fold_left _ (file_results h w atts) _) as [c3 w3]. cbn [fst snd] in *.
    destruct (cleanup_missing_cleared (getTags w) (toCleanup (separated h w atts)) c3 w3
                Hg1 Hc1) as [Hg2 Hc2].
    intros Ha. destruct (Hc2 a Ha) as (Hon & Hmod & Hdata). split.
    + unfold isOnTablet. now rewrite Hg2, Hon, Hmod.
    + apply getTabletInfo_absent. intros v. congruence.
Qed.

Lemma cleanup_results_prompts (h : Host) (base : option string) (rs : list GetResult) :
  forall (c : Cleaned) (w : World),
    prompts (snd (fold_left (fun st r => cleanup_result h base r st) rs (c, w))) = prompts w.
Proof.
  induction rs as [|r rs IH]; intros c w; [reflexivity|].
  cbn [fold_left]. rewrite cleanup_result_eq, IH, untrack_prompts.
  apply swept_items.
Qed.

Lemma cleanup_missing_prompts (bs : list nat) :
  forall (c : Cleaned) (w : World),
    prompts (snd (fold_left (fun st b => cleanup_missing b st) bs (c, w))) = prompts w.
Proof.
  induction bs as [|b bs IH]; intros c w; [reflexivity|].
  cbn [fold_left cleanup_missing]. now rewrite IH, untrack_prompts.
Qed.

(** The conflict [gatherInfo] finds for an attachment, if it finds one. *)
Definition conflict_of (h : Host) (w : World) (a : nat) : option FileInfo :=
  match fst (gatherInfo h a w) with
  | Ok (Found fi) => if fi_hasConflict fi then Some fi else None
  | _ => None
  end.

Lemma omap_map {A B C : Type} (f : B -> option C) (g : A -> B) (l : list A) :
  omap f (List.map g l) = omap (fun x => f (g x)) l.
Proof. induction l as [|x l IH]; [reflexivity|]. cbn. now rewrite IH. Qed.

Lemma omap_pointwise {A B : Type} (f g : A -> option B) (l : list A) :
  (forall x, f x = g x) -> omap f l = omap g l.
Proof. intros H. induction l as [|x l IH]; [reflexivity|]. cbn. now rewrite H, IH. Qed.

Lemma conflicts_found_spec (h : Host) (atts : list nat) (w : World) :
  conflicts_found h atts w = omap (conflict_of h w) (List.filter (isOnTablet w) atts).
Proof.
  rewrite conflicts_found_eq, separated_spec. cbn [conflicts]. rewrite omap_map.
  unfold on_tablet. apply omap_pointwise. intros a. unfold conflict_of.
  rewrite gatherInfo_run. cbn [fst]. destruct (gathered h w a) as [|fi]; [reflexivity|].
  cbn [found_with]. now destruct (fi_hasConflict fi).
Qed.

(** X16.  [getFromTablet] asks about each conflict once.  The prompts of a
    pass are, in the order of the list, one for every listed attachment that
    is tracked and for which [gatherInfo] reports a conflict (as often as it
    is listed), each with that file's two paths; no other prompt is
    shown. *)
Theorem one_prompt_per_conflict (h : Host) (atts : list nat) (flag : bool) (w : World) :
  exists res w',
    getFromTablet h atts flag w = Some (res, w')
    /\ prompts w'
       = prompts w
         ++ List.map (fun c => mkPrompt (fi_attachment c) (fi_tabletPath c) (fi_zoteroPath c))
              (omap (conflict_of h w) (List.filter (isOnTablet w) atts)).
Proof.
  rewrite <- conflicts_found_spec.
  destruct (decide (on_tablet w atts = [])) as [Hempty|Hne].
  - exists None, w. split.
    + unfold getFromTablet. fold (on_tablet w atts). now rewrite Hempty.
    + rewrite conflicts_found_spec. fold (on_tablet w atts). rewrite Hempty.
      cbn. now rewrite app_nil_r.
  - rewrite (getFromTablet_phases h atts flag w Hne). eexists _, _. split; [reflexivity|].
    unfold cleaned_up.
    destruct (fold_left _ (file_results h w atts) _) as [c3 w3] eqn:E.
    rewrite cleanup_missing_prompts.
    assert (prompts w3 = prompts (snd (applied h w atts))) as ->.
    { pose proof (cleanup_results_prompts h (destDir (prefs w)) (file_results h w atts)
                    (mkCleaned [] []) (snd (applied h w atts))) as H.
      now rewrite E in H. }
    unfold applied.
    rewrite (proj2 (applied_prefs h (kept h w atts) (asked h w atts))).
    rewrite conflicts_found_eq. reflexivity.
Qed.

(** A copy with [overwrite] from a file to another path. *)
Lemma copyFile_overwrite_ok (h : Host) (now : Z) (src dest : string)
    (fs fs1 : FS.t) (m : Z) (c : string) :
  ZT.ensureDirectory h now (ZT.getParentDir h dest) fs = (Ok tt, fs1) ->
  fs !! src = Some (FS.File m c) -> src <> dest ->
  FS.is_dir (fs1 !! dest) = false ->
  ZT.copyFile h now src dest true fs = (Ok dest, <[dest := FS.File now c]> fs1)
  /\ forall q n, q <> dest -> fs !! q = Some n ->
       <[dest := FS.File now c]> fs1 !! q = Some n.
Proof.
  intros He Hsrc Hne Hdir.
  pose proof (ensureDirectory_keeps _ _ _ _ _ _ He) as [Hkeep _].
  pose proof (Hkeep _ _ Hsrc) as Hsrc1. split.
  - unfold ZT.copyFile. munfold. rewrite He. unfold ZT.fileExists. munfold.
    unfold FS.io_exists. destruct (fs1 !! dest) as [[m' c'|m']|] eqn:Ed; [| discriminate |].
    + rewrite bool_decide_eq_true_2 by eauto.
      unfold ZT.removeFile, FS.io_remove. munfold. rewrite Ed.
      unfold FS.io_copy. rewrite lookup_delete_ne by congruence. rewrite Hsrc1.
      rewrite lookup_delete_eq. cbn [FS.is_dir]. now rewrite insert_delete_eq.
    + rewrite bool_decide_eq_false_2 by (intros [? ?]; discriminate).
      unfold FS.io_copy. rewrite Hsrc1, Ed. reflexivity.
  - intros q n Hq Hold. rewrite lookup_insert_ne by congruence. now apply Hkeep.
Qed.

Lemma ancestors_unfold (sep : ascii) (p : string) :
  FS.ancestors sep p
  = match FS.parent_dir sep p with
    | Some q => q :: FS.ancestors sep q
    | None => []
    end.
Proof.
  funelim (FS.ancestors sep p).
  - now rewrite e.
  - now rewrite e.
Qed.

(** The directories above a path have shorter names. *)
Lemma ancestors_shorter (sep : ascii) (n : nat) :
  forall d q, (String.length d <= n)%nat -> In q (FS.ancestors sep d) ->
    (String.length q < String.length d)%nat.
Proof.
  induction n as [|n IH]; intros d q Hn Hq; rewrite ancestors_unfold in Hq;
    destruct (FS.parent_dir sep d) as [par|] eqn:E; try (now destruct Hq);
    pose proof (FS.parent_dir_shorter _ _ _ E) as Hs; [lia|].
  destruct Hq as [<-|Hq]; [exact Hs|].
  assert (String.length q < String.length par)%nat by (apply IH; [lia | exact Hq]). lia.
Qed.

Lemma mkdirs_only (now : Z) (l : list string) (fs : FS.t) (q : string) :
  is_Some (foldr (FS.mkdir_one now) fs l !! q) -> is_Some (fs !! q) \/ In q l.
Proof.
  induction l as [|x l IH]; [now left|]. cbn [foldr]. unfold FS.mkdir_one at 1.
  destruct (foldr (FS.mkdir_one now) fs l !! x) eqn:E.
  - intros H. destruct (IH H); [now left | right; now right].
  - destruct (decide (x = q)) as [->|Hne]; [right; now left|].
    rewrite lookup_insert_ne by exact Hne.
    intros H. destruct (IH H); [now left | right; now right].
Qed.

(** Making the folder of a path does not make the path itself. *)
Lemma ensureDirectory_not_child (h : Host) (now : Z) (dest : string) (fs fs1 : FS.t) r :
  ZT.ensureDirectory h now (ZT.getParentDir h dest) fs = (r, fs1) ->
  fs1 !! dest = fs !! dest.
Proof.
  unfold ZT.ensureDirectory, ZT.getParentDir.
  destruct (FS.parent_dir (ZT.getFolderSep h) dest) as [d|] eqn:Ed;
    [|PathFacts.munfold; now intros [= _ <-]].
  pose proof (FS.parent_dir_shorter _ _ _ Ed) as Hs.
  unfold FS.io_makeDirectory. destruct (FS.is_dir (fs !! d)); [now intros [= _ <-]|].
  destruct (existsb _ _); [now intros [= _ <-]|]. intros [= _ <-].
  set (l := d :: FS.ancestors (ZT.getFolderSep h) d).
  change (foldr (FS.mkdir_one now) fs l !! dest = fs !! dest).
  destruct (fs !! dest) as [n|] eqn:E.
  - now apply (proj1 (mkdirs_keeps now l fs)).
  - destruct (foldr (FS.mkdir_one now) fs l !! dest) as [n|] eqn:E1; [|reflexivity]. exfalso.
    destruct (mkdirs_only now l fs dest) as [[x Hx]|Hin];
      [rewrite E1; now exists n | congruence |].
    destruct Hin as [->|Hin]; [lia|].
    pose proof (ancestors_shorter _ _ d dest (le_n _) Hin). lia.
Qed.

(** When no file is in the way, the folder can be made. *)
Lemma ensureDirectory_returns (h : Host) (now : Z) (d : string) (fs : FS.t) :
  existsb (fun q => FS.is_file (fs !! q)) (d :: FS.ancestors (ZT.getFolderSep h) d) = false ->
  exists fs1, ZT.ensureDirectory h now (Some d) fs = (Ok tt, fs1).
Proof.
  intros Hfree. unfold ZT.ensureDirectory, FS.io_makeDirectory.
  destruct (FS.is_dir (fs !! d)); [eauto|]. rewrite Hfree. eauto.
Qed.

(** X17.  [copyFile] with [overwrite] replaces the destination.  When the
    destination has a folder and no file is in the way of making it (at the
    folder or at a directory above it), the source is a file other than the
    destination and the destination is not a directory: the call returns the
    destination, which now holds the content of the source, stamped with the
    time of the call; everything else that existed is unchanged, and
    whatever else is new is a directory made for the destination. *)
Theorem copyFile_overwrite_replaces (h : Host) (now : Z) (src dest d : string)
    (fs : FS.t) (m : Z) (c : string) :
  ZT.getParentDir h dest = Some d ->
  existsb (fun q => FS.is_file (fs !! q)) (d :: FS.ancestors (ZT.getFolderSep h) d) = false ->
  fs !! src = Some (FS.File m c) -> src <> dest ->
  FS.is_dir (fs !! dest) = false ->
  exists fs',
    ZT.copyFile h now src dest true fs = (Ok dest, fs')
    /\ fs' !! dest = Some (FS.File now c)
    /\ (forall q n, q <> dest -> fs !! q = Some n -> fs' !! q = Some n)
    /\ (forall q n, q <> dest -> fs' !! q = Some n -> fs !! q = None -> n = FS.Dir now).
Proof.
  intros Hd Hfree Hsrc Hne Hdir.
  destruct (ensureDirectory_returns h now d fs Hfree) as [fs1 He]. rewrite <- Hd in He.
  assert (Hdir1 : FS.is_dir (fs1 !! dest) = false)
    by now rewrite (ensureDirectory_not_child h now dest fs fs1 _ He).
  destruct (copyFile_overwrite_ok h now src dest fs fs1 m c He Hsrc Hne Hdir1) as [Hrun Hkeep].
  exists (<[dest := FS.File now c]> fs1). split; [exact Hrun|].
  split; [apply lookup_insert_eq|]. split; [exact Hkeep|].
  intros q n Hq Hn Hold. rewrite lookup_insert_ne in Hn by congruence.
  destruct (proj2 (ensureDirectory_keeps _ _ _ _ _ _ He) q n Hn) as [?|[_ ?]]; congruence.
Qed.

Lemma copyFile_overwrite_replaces_witness :
  exists fs',
    ZT.copyFile unix_host 100 "/zotero/storage/K2/paper" "/tablet/paper" true fs_taken
    = (Ok "/tablet/paper", fs')
    /\ fs_taken !! "/tablet/paper" = Some (FS.File 10 "first")
    /\ fs' !! "/tablet/paper" = Some (FS.File 100 "second").
Proof.
  destruct (copyFile_overwrite_replaces unix_host 100 "/zotero/storage/K2/paper"
              "/tablet/paper" "/tablet" fs_taken 20 "second")
    as (fs' & Hrun & Hdest & _); try (vm_compute; reflexivity); [discriminate|].
  exists fs'. split; [exact Hrun|]. split; [vm_compute; reflexivity | exact Hdest].
Defined.

Lemma untrack_fs (b : nat) (w : World) : fs (untrack b w) = fs w.
Proof.
  unfold untrack, clearTabletInfo, removeTabletTag.
  repeat (match goal with |- context [match ?x with _ => _ end] => destruct x end);
    reflexivity.
Qed.

(** [processFile] of [getFromTablet] on a Copy-mode file that is modified
    on the tablet. *)
Lemma get_processFile_copy (h : Host) (x : FileInfo) (z : string) (w0 : World) (fs2 : FS.t) :
  Json.is_num (Json.field (fi_info x) "mode") Constants.MODE_BACKGROUND = true ->
  fi_tabletModified x = true ->
  fi_zoteroPath x = Some z ->
  ZT.copyFile h (now w0) (fi_tabletPath x) z true (fs w0) = (Ok z, fs2) ->
  get_processFile h x w0
  = (Ok (mkGetResult (fi_attachment x) true (Some (fi_tabletPath x))), set_fs fs2 w0).
Proof.
  intros Hmode Htm Hz Hcopy. unfold get_processFile. munfold.
  rewrite Hmode, Htm, Hz. cbn [orb]. rewrite liftFS_run, Hcopy. reflexivity.
Qed.

(** X18.  A Copy-mode file that was modified on the tablet is brought
    back by [getFromTablet [a]]: when the file is not in conflict, or is in
    conflict and the prompt is answered with either of the two versions
    (button 0, the tablet version, or button 2, the Zotero version), the
    Zotero copy ends with the content of the tablet copy, the tablet copy is
    removed, and the attachment is untracked.  Both copies are files at
    different paths, the folder of the Zotero copy can be ensured, and the
    Zotero copy is reached through entries that are not hidden. *)
Theorem retrieve_copies_back (h : Host) (w : World) (a : nat) (flag : bool) (fi : FileInfo)
    (z : string) (tm zm : Z) (tc zc : string) (fs1 : FS.t) :
  isOnTablet w a = true ->
  fst (gatherInfo h a w) = Ok (Found fi) ->
  Json.is_num (Json.field (fi_info fi) "mode") Constants.MODE_BACKGROUND = true ->
  fi_tabletModified fi = true ->
  fi_zoteroPath fi = Some z ->
  (fi_hasConflict fi = true ->
   confirmEx h (List.length (prompts w)) = 0%Z \/ confirmEx h (List.length (prompts w)) = 2%Z) ->
  fs w !! fi_tabletPath fi = Some (FS.File tm tc) ->
  fs w !! z = Some (FS.File zm zc) ->
  z <> fi_tabletPath fi ->
  ZT.ensureDirectory h (now w) (ZT.getParentDir h z) (fs w) = (Ok tt, fs1) ->
  visible_path h z ->
  exists r w',
    getFromTablet h [a] flag w = Some (Some r, w')
    /\ retrieved r = mkSummary 1 []
    /\ saved r = [a]
    /\ fs w' !! z = Some (FS.File (now w) tc)
    /\ fs w' !! fi_tabletPath fi = None
    /\ isOnTablet w' a = false
    /\ getTabletInfo w' a = None.
Proof.
  intros Hon Hg Hmode Htm Hz Hans Htp Hzf Hne He Hvis.
  rewrite gatherInfo_run in Hg. cbn [fst] in Hg. injection Hg as Hg.
  destruct (gathered_found _ _ _ _ Hg) as (Hatt & _ & _).
  assert (Hlist : on_tablet w [a] = [a]) by (unfold on_tablet; cbn; now rewrite Hon).
  assert (Hkept : exists x,
            kept h w [a] = [x] /\ toCleanup (separated h w [a]) = []
            /\ fi_attachment x = a /\ fi_info x = fi_info fi
            /\ fi_tabletPath x = fi_tabletPath fi /\ fi_zoteroPath x = Some z
            /\ fi_tabletModified x = true).
  { unfold kept, separated. rewrite Hlist. cbn [List.map separate]. rewrite Hg.
    cbn [separate]. destruct (fi_hasConflict fi) eqn:Hc;
      cbn [toProcess toCleanup conflicts app kept_from].
    - unfold answer_kept.
      destruct (Hans eq_refl) as [E|E]; rewrite E; cbn [Z.eqb Pos.eqb];
        eexists; (split; [reflexivity|]); cbn; repeat split; auto.
    - exists fi. repeat split; auto. }
  destruct Hkept as (x & Hkept & Hclean & Hxa & Hxi & Hxt & Hxz & Hxm).
  assert (Hne0 : on_tablet w [a] <> []) by (rewrite Hlist; discriminate).
  rewrite (getFromTablet_phases h [a] flag w Hne0).
  destruct (copyFile_overwrite_ok h (now w) (fi_tabletPath fi) z (fs w) fs1 tm tc
              He Htp (not_eq_sym Hne)) as [Hcopy Hkeep].
  { pose proof (ensureDirectory_keeps _ _ _ _ _ _ He) as [Hk _].
    now rewrite (Hk _ _ Hzf). }
  set (fs2 := <[z := FS.File (now w) tc]> fs1) in *.
  set (r := mkGetResult a true (Some (fi_tabletPath fi))).
  assert (Happlied : applied h w [a]
                     = ([Batch.Done true x r], set_fs fs2 (asked h w [a]))).
  { unfold applied. rewrite Hkept. cbn [Batch.run_chunk]. unfold Batch.wrap.
    rewrite (get_processFile_copy h x z (asked h w [a]) fs2).
    - unfold r. now rewrite Hxa, Hxt.
    - now rewrite Hxi.
    - exact Hxm.
    - exact Hxz.
    - rewrite Hxt. exact Hcopy. }
  assert (Hresults : file_results h w [a] = [r]).
  { unfold file_results. now rewrite Happlied. }
  assert (Hcleaned : cleaned_up h w [a]
            = (mkCleaned [a] [a],
               untrack a (swept h (destDir (prefs w)) r (set_fs fs2 (asked h w [a]))))).
  { unfold cleaned_up. rewrite Hresults, Hclean, Happlied. cbn [fold_left snd].
    now rewrite cleanup_result_eq. }
  rewrite Hcleaned, Happlied. cbn [fst snd List.filter Batch.entry_success List.length
    error_names omap negb toSaveDB].
  eexists _, _. split; [reflexivity|]. cbn [retrieved saved].
  split; [reflexivity|]. split; [reflexivity|].
  set (w3 := set_fs fs2 (asked h w [a])).
  assert (Hfs3 : fs (swept h (destDir (prefs w)) r w3) !! z = Some (FS.File (now w) tc)
                 /\ fs (swept h (destDir (prefs w)) r w3) !! fi_tabletPath fi = None).
  { unfold swept, r. cbn [gr_tabletPath]. rewrite liftFS_run. cbn [snd].
    unfold w3 at 1 2. cbn [fs set_fs].
    assert (Hz3 : snd (ZT.removeFile h (fi_tabletPath fi) fs2) !! z
                  = Some (FS.File (now w) tc)).
    { rewrite removeFile_frame by exact Hne. unfold fs2. apply lookup_insert_eq. }
    assert (Ht3 : snd (ZT.removeFile h (fi_tabletPath fi) fs2) !! fi_tabletPath fi = None).
    { unfold ZT.removeFile, FS.io_remove. munfold.
      assert (E : fs2 !! fi_tabletPath fi = Some (FS.File tm tc)) by (apply Hkeep; auto).
      rewrite E. cbn [snd]. apply lookup_delete_eq. }
    unfold removeEmptyDirs_from.
    destruct (ZT.getParentDir h (fi_tabletPath fi)) as [d|]; cbn [fs set_fs]; [|auto].
    split.
    - now rewrite (removeEmptyDirs_frame h _ z (now w) tc d _ Hz3 Hvis).
    - destruct (ZT.removeEmptyDirs h _ d _ !! fi_tabletPath fi) as [n|] eqn:E; [|reflexivity].
      apply removeEmptyDirs_only_removes in E. change (fs w3) with fs2 in E. congruence. }
  rewrite untrack_fs. split; [apply Hfs3|]. split; [apply Hfs3|].
  destruct (swept_items h (destDir (prefs w)) r w3) as (_ & Hp & _).
  pose proof (untrack_cleared a (swept h (destDir (prefs w)) r w3) a (or_introl eq_refl))
    as (Hc1 & Hc2 & Hc3).
  split.
  - unfold isOnTablet.
    assert (Hgt : getTags (untrack a (swept h (destDir (prefs w)) r w3))
                  = getTags (swept h (destDir (prefs w)) r w3))
      by (unfold getTags; now rewrite untrack_prefs).
    now rewrite Hgt, Hc1, Hc2.
  - apply getTabletInfo_absent. intros v. congruence.
Qed.

(** A host whose user chooses the Zotero version at every prompt. *)
Definition zotero_version_host : Host :=
  mkHost false (fun _ => false) None "/zotero/storage" (fun _ => None) (fun _ => 2%Z).

Lemma retrieve_copies_back_witness :
  exists r w',
    getFromTablet zotero_version_host [1] true world_conflict = Some (Some r, w')
    /\ fs world_conflict !! "/zotero/storage/K1/paper.pdf" = Some (FS.File 150 "annotated")
    /\ fs w' !! "/zotero/storage/K1/paper.pdf" = Some (FS.File 300 "edited")
    /\ fs w' !! "/tablet/paper.pdf" = None.
Proof.
  edestruct (retrieve_copies_back zotero_version_host world_conflict 1 true)
    as (r & w' & Hrun & _ & _ & Hz & Ht & _).
  - vm_compute. reflexivity.
  - vm_compute. reflexivity.
  - reflexivity.
  - reflexivity.
  - reflexivity.
  - intros _. now right.
  - vm_compute. reflexivity.
  - vm_compute. reflexivity.
  - discriminate.
  - vm_compute. reflexivity.
  - intros d _. reflexivity.
  - exists r, w'. split; [exact Hrun|]. split; [vm_compute; reflexivity|].
    split; [exact Hz | exact Ht].
Defined.

End RetrieveMoreFacts.

(** ** Send to tablet *)

Module SendFacts.
Import Zotero SyncManager.
Import PathFacts RecordFacts TagFacts ReadFacts CheckFacts FrameFacts RetrieveFacts FileFacts.

(** Everything that is in [f] is in [f'], unchanged. *)
Definition grows (f f' : gmap string FS.Node) : Prop :=
  forall q n, f !! q = Some n -> f' !! q = Some n.

Lemma grows_refl (f : gmap string FS.Node) : grows f f.
Proof. now intros q n. Qed.

Lemma grows_trans (f1 f2 f3 : gmap string FS.Node) : grows f1 f2 -> grows f2 f3 -> grows f1 f3.
Proof. intros H1 H2 q n H. now apply H2, H1. Qed.

Lemma ensureDirectory_grows (h : Host) (now : Z) (d : option string) (f : FS.t) :
  grows f (snd (ZT.ensureDirectory h now d f)).
Proof.
  destruct (ZT.ensureDirectory h now d f) as [r f'] eqn:E.
  now apply ensureDirectory_keeps in E as [Hk _].
Qed.

Lemma copyFile_grows (h : Host) (now : Z) (src dest : string) (f : FS.t) :
  grows f (snd (ZT.copyFile h now src dest false f)).
Proof.
  unfold ZT.copyFile. munfold.
  pose proof (ensureDirectory_grows h now (ZT.getParentDir h dest) f) as H1.
  destruct (ZT.ensureDirectory h now (ZT.getParentDir h dest) f) as [[[]|e] f1];
    cbn [snd] in *; [|exact H1].
  destruct (ZT.rename_loop f1 dest dest 2) as [p|e] eqn:E; cbn [snd]; [|exact H1].
  apply rename_loop_free in E.
  unfold FS.io_copy. destruct (f1 !! src) as [[m c|m]|]; cbn [snd]; try exact H1.
  destruct (FS.is_dir (f1 !! p)); cbn [snd]; [exact H1|].
  intros q n Hq. rewrite lookup_insert_ne; [now apply H1|].
  intros <-. apply H1 in Hq. congruence.
Qed.

Lemma send_record_fs (p : Prefs) (root projectFolder : string) (r : SendResult) (w : World) :
  fs (send_record p root projectFolder r w) = fs w
  /\ prefs (send_record p root projectFolder r w) = prefs w.
Proof.
  pose proof (only_tags_addTabletTag (sr_attachment r) (onTablet (getTags w))
                (setTabletInfo (sr_attachment r) (sent_info p root projectFolder r) w))
    as (Hp & Hf & _).
  unfold send_record. now rewrite Hp, Hf.
Qed.

Lemma send_records_fs (p : Prefs) (root projectFolder : string) (rs : list SendResult) :
  forall w,
    fs (fold_left (fun w' r => send_record p root projectFolder r w') rs w) = fs w
    /\ prefs (fold_left (fun w' r => send_record p root projectFolder r w') rs w) = prefs w.
Proof.
  induction rs as [|r rs IH]; intros w; [auto|]. cbn [fold_left].
  destruct (IH (send_record p root projectFolder r w)) as [-> ->].
  apply send_record_fs.
Qed.

(** [processFile] of [sendToTablet] in Copy mode: what it does to the
    world. *)
Lemma send_processFile_copy (h : Host) (p : Prefs) (root projectFolder : string) (a : nat)
    (w0 : World) :
  (JS.or_num (mode p) Constants.MODE_BACKGROUND =? Constants.MODE_BACKGROUND)%Z = true ->
  let w1 := snd (send_processFile h p root projectFolder a w0) in
  grows (fs w0) (fs w1) /\ items w1 = items w0 /\ prefs w1 = prefs w0 /\ now w1 = now w0.
Proof.
  intros Hmode. unfold send_processFile. munfold. rewrite Hmode.
  destruct (getFilePathAsync w0 a) as [src|]; [|cbn; auto using grows_refl].
  rewrite liftFS_fileExists.
  destruct (FS.io_exists (fs w0) src); cbn [negb]; [|cbn; auto using grows_refl].
  rewrite liftFS_run.
  match goal with |- context [ZT.ensureDirectory h (now w0) ?d (fs w0)] =>
    pose proof (ensureDirectory_grows h (now w0) d (fs w0)) as H1;
    destruct (ZT.ensureDirectory h (now w0) d (fs w0)) as [[[]|e] f1]
  end; cbn [fst snd] in *; [|auto].
  rewrite liftFS_run. cbn [fs set_fs].
  match goal with |- context [ZT.copyFile h (now w0) ?s ?d false f1] =>
    pose proof (copyFile_grows h (now w0) s d f1) as H2;
    destruct (ZT.copyFile h (now w0) s d false f1) as [[q|e] f2]
  end; cbn [fst snd] in *.
  - rewrite liftFS_getFileModTime. cbn. eauto using grows_trans.
  - cbn. eauto using grows_trans.
Qed.

(** X19.  In Copy mode [sendToTablet] always returns, and it never changes
    or removes anything that exists: every file and directory that was
    there is there afterwards, with the same content and time stamp, and the
    preferences are as they were. *)
Theorem send_copy_mode_keeps_files (h : Host) (atts : list nat) (projectFolder : string)
    (w : World) :
  (JS.or_num (mode (prefs w)) Constants.MODE_BACKGROUND =? Constants.MODE_BACKGROUND)%Z = true ->
  exists res w',
    sendToTablet h atts projectFolder w = Some (res, w')
    /\ prefs w' = prefs w
    /\ forall q n, fs w !! q = Some n -> fs w' !! q = Some n.
Proof.
  intros Hmode. unfold sendToTablet.
  destruct (destDir (prefs w)) as [root|]; [|exists None, w; auto].
  destruct (negb (Str.nonempty root)); [exists None, w; auto|].
  destruct (List.filter _ atts) as [|x l] eqn:E; [exists None, w; auto|]. rewrite <- E.
  unfold batch_attachments. rewrite BatchFacts.processInBatches_run by reflexivity.
  eexists _, _. split; [reflexivity|].
  match goal with |- context [Batch.run_chunk ?af ?nm ?rs ?ri ?proc ?items w] =>
    destruct (BatchFacts.run_chunk_invariant af nm rs ri proc
                (fun w1 => grows (fs w) (fs w1) /\ prefs w1 = prefs w)
                (fun _ _ => True) items w) as [[Hg Hp] _]
  end.
  - intros a w1 _ [Hg Hp]. unfold Batch.wrap.
    pose proof (send_processFile_copy h (prefs w) root projectFolder a w1 Hmode)
      as (Hg1 & _ & Hp1 & _).
    destruct (send_processFile h (prefs w) root projectFolder a w1) as [[r|e] w2];
      cbn [fst snd] in *; (split; [split; [eauto using grows_trans | congruence] | exact I]).
  - split; [apply grows_refl | reflexivity].
  - match goal with |- context [fold_left ?f ?rs ?w1] =>
      destruct (send_records_fs (prefs w) root projectFolder rs w1) as [-> ->]
    end.
    split; [exact Hp | exact Hg].
Qed.

Lemma send_copy_mode_keeps_files_witness :
  exists w',
    option_map snd (sendToTablet unix_host [1] "" PlaceholderFacts.world_slash_root) = Some w'
    /\ fs w' !! "/zotero/storage/K1/paper.pdf" = Some (FS.File 50 "pdf").
Proof.
  destruct (send_copy_mode_keeps_files unix_host [1] "" PlaceholderFacts.world_slash_root
              eq_refl) as (res & w' & Hrun & _ & Hkeep).
  exists w'. rewrite Hrun. split; [reflexivity|]. apply Hkeep. vm_compute. reflexivity.
Defined.

(** [processFile] of [sendToTablet] in Copy mode, when it returns. *)
Lemma send_processFile_copy_ok (h : Host) (p : Prefs) (root projectFolder : string) (a : nat)
    (w0 w1 : World) (r : SendResult) :
  (JS.or_num (mode p) Constants.MODE_BACKGROUND =? Constants.MODE_BACKGROUND)%Z = true ->
  send_processFile h p root projectFolder a w0 = (Ok r, w1) ->
  exists src dest f1,
    getFilePathAsync w0 a = Some src
    /\ grows (fs w0) f1
    /\ (forall q n, f1 !! q = Some n -> fs w0 !! q = None -> n = FS.Dir (now w0))
    /\ ZT.copyFile h (now w0) src dest false f1 = (Ok (sr_finalPath r), fs w1)
    /\ sr_attachment r = a
    /\ sr_modTime r = mtime_at (fs w1) (sr_finalPath r)
    /\ items w1 = items w0 /\ prefs w1 = prefs w0.
Proof.
  intros Hmode. unfold send_processFile. munfold. rewrite Hmode.
  destruct (getFilePathAsync w0 a) as [src|]; [|discriminate].
  rewrite liftFS_fileExists.
  destruct (FS.io_exists (fs w0) src); cbn [negb]; [|discriminate].
  rewrite liftFS_run.
  match goal with |- context [ZT.ensureDirectory h (now w0) ?d (fs w0)] =>
    destruct (ZT.ensureDirectory h (now w0) d (fs w0)) as [[[]|e] f1] eqn:E1
  end; cbn [fst snd] in *; [|discriminate].
  apply ensureDirectory_keeps in E1 as [Hk Hn].
  rewrite liftFS_run. cbn [fs set_fs].
  match goal with |- context [ZT.copyFile h (now w0) ?s ?d false f1] =>
    destruct (ZT.copyFile h (now w0) s d false f1) as [[q|e] f2] eqn:E2
  end; cbn [fst snd] in *; [|discriminate].
  rewrite liftFS_getFileModTime. intros [= <- <-].
  eexists src, _, f1. cbn [sr_finalPath sr_attachment sr_modTime fs set_fs items prefs].
  split; [reflexivity|]. split; [exact Hk|]. split.
  - intros q' n H1 H2. destruct (Hn q' n H1) as [?|[_ ?]]; congruence.
  - split; [exact E2|]. repeat split; reflexivity.
Qed.

(** X20.  A single attachment sent with success in Copy mode.  When
    [sendToTablet [a]] reports one file sent and none failed, with two
    different marker strings: the file of the attachment is still where it
    was, a copy with the same content is at a path that was free before,
    stamped with the time of the pass; the attachment carries the on-tablet
    marker and not the modified one; and its note records that path with the
    root replaced by the placeholder, the time stamp of the copy, the mode
    and the project folder. *)
Theorem send_copies_and_tracks (h : Host) (w w' : World) (a : nat) (projectFolder root : string) :
  destDir (prefs w) = Some root -> Str.nonempty root = true ->
  isAttachment (item_of w a) = true -> is_child (item_of w a) = true ->
  (JS.or_num (mode (prefs w)) Constants.MODE_BACKGROUND =? Constants.MODE_BACKGROUND)%Z = true ->
  onTablet (getTags w) <> modified (getTags w) ->
  sendToTablet h [a] projectFolder w = Some (Some (mkSummary 1 []), w') ->
  exists src p m c,
    getFilePathAsync w a = Some src
    /\ fs w !! src = Some (FS.File m c)
    /\ fs w !! p = None
    /\ fs w' !! p = Some (FS.File (now w) c)
    /\ fs w' !! src = Some (FS.File m c)
    /\ hasTag w' a (onTablet (getTags w)) = true
    /\ hasTag w' a (modified (getTags w)) = false
    /\ data_element (note (item_of w' a))
       = Some (AttrText (Some (Json.Obj
           [("location", Json.Str (Str.replace p root "[BaseFolder]"));
            ("lastmod", Json.Num (now w));
            ("mode", Json.Num (JS.or_num (mode (prefs w)) Constants.MODE_BACKGROUND));
            ("projectFolder", Json.Str projectFolder)]))).
Proof.
  intros Hroot Hne Hatt Hchild Hmode Hmarkers. unfold sendToTablet.
  rewrite Hroot, Hne. cbn [negb List.filter]. rewrite Hatt, Hchild. cbn [andb].
  unfold batch_attachments. rewrite BatchFacts.processInBatches_run by reflexivity.
  cbn [Batch.run_chunk]. unfold Batch.wrap.
  destruct (send_processFile h (prefs w) root projectFolder a w) as [[r|e] w1] eqn:E;
    cbn [fst snd]; rewrite BatchFacts.collect_spec;
    cbn [Batch.successes Batch.errors Batch.acc0 app List.filter Batch.entry_success
         default negb results_of omap List.length fold_left error_names];
    [|discriminate].
  intros [= <-].
  destruct (send_processFile_copy_ok h (prefs w) root projectFolder a w w1 r Hmode E)
    as (src & dest & f1 & Hsrc & Hk & Hn & Hcopy & Hra & Hrm & Hi & Hp).
  apply copyFile_new in Hcopy as (f2 & m & c & He & _ & Hfree & Hs2 & Hfs).
  apply ensureDirectory_keeps in He as [Hk2 Hn2].
  assert (Hs1 : fs w !! src = Some (FS.File m c)).
  { destruct (Hn2 src _ Hs2) as [H1|[_ ?]]; [|discriminate].
    destruct (fs w !! src) as [n|] eqn:Es.
    - apply Hk in Es. congruence.
    - pose proof (Hn src _ H1 Es). discriminate. }
  assert (Hp0 : fs w !! sr_finalPath r = None).
  { destruct (fs w !! sr_finalPath r) as [n|] eqn:Ep; [|reflexivity].
    apply Hk, Hk2 in Ep. congruence. }
  assert (Hmt : sr_modTime r = now w).
  { rewrite Hrm, Hfs. unfold mtime_at. now rewrite lookup_insert_eq. }
  destruct (send_record_fs (prefs w) root projectFolder r w1) as [Hfs' Hp'].
  assert (Hg1 : getTags w1 = getTags w) by (unfold getTags; now rewrite Hp).
  exists src, (sr_finalPath r), m, c.
  split; [exact Hsrc|]. split; [exact Hs1|]. split; [exact Hp0|].
  rewrite Hfs', Hfs. split; [apply lookup_insert_eq|]. split.
  { rewrite lookup_insert_ne by congruence. exact Hs2. }
  unfold send_record. rewrite Hra, Hg1.
  set (w2 := setTabletInfo a (sent_info (prefs w) root projectFolder r) w1).
  assert (Hg2 : getTags w2 = getTags w) by exact Hg1.
  assert (Hto : onTablet (getTags w) <> otherTag w2 (onTablet (getTags w))).
  { apply otherTag_differs; rewrite Hg2; auto. }
  destruct (addTabletTag_attachment a _ w2 Hto) as [Ht Ho].
  assert (Hother : otherTag w2 (onTablet (getTags w)) = modified (getTags w)).
  { unfold otherTag. now rewrite Hg2, String.eqb_refl. }
  rewrite Hother in Ho. split; [exact Ht|]. split; [exact Ho|].
  pose proof (only_tags_addTabletTag a (onTablet (getTags w)) w2) as (_ & _ & Hsame).
  rewrite (same_but_tags_note _ _ (Hsame a)). unfold w2.
  rewrite RoundTripFacts.item_of_setTabletInfo. destruct (decide (a = a)); [|contradiction].
  cbn [note with_note data_element]. unfold sent_info. now rewrite Hmt.
Qed.

(** A library with one file, not yet sent. *)
Definition world_fresh : World :=
  mkWorld
    {[ "/zotero/storage/K1/paper.pdf" := FS.File 50 "pdf"; "/tablet" := FS.Dir 1 ]}
    {[ 1 := mkItem true (Some 10) ∅ (mkNote "" None)
                   (Some "/zotero/storage/K1/paper.pdf") "K1" [] None "" "" "";
       10 := mkItem false None ∅ (mkNote "" None) None "P1" [1] None "" "" "" ]}
    (mkPrefs (Some "/tablet") None false false None None None true) 100 [].

Definition world_fresh_sent : World :=
  match sendToTablet unix_host [1] "" world_fresh with
  | Some (_, w) => w
  | None => world_fresh
  end.

Lemma send_copies_and_tracks_witness :
  hasTag world_fresh_sent 1 "_tablet" = true
  /\ hasTag world_fresh_sent 1 "_tablet_modified" = false.
Proof.
  destruct (send_copies_and_tracks unix_host world_fresh world_fresh_sent 1 "" "/tablet")
    as (src & p & m & c & _ & _ & _ & _ & _ & Ht & Hm & _);
    try (vm_compute; reflexivity); [vm_compute; discriminate|].
  split; [exact Ht | exact Hm].
Defined.

End SendFacts.

(** ** Escaping *)

Module EscapeFacts.
Import AnnotationExtractor.

(** What one character becomes. *)
Definition escape_char (a : ascii) : string :=
  if Ascii.eqb a "&" then "&amp;"
  else if Ascii.eqb a "<" then "&lt;"
  else if Ascii.eqb a ">" then "&gt;"
  else if Ascii.eqb a SyncManager.dquote then "&quot;"
  else if Ascii.eqb a "'" then "&#039;"
  else String a EmptyString.

Fixpoint escape_all (s : string) : string :=
  match s with
  | EmptyString => EmptyString
  | String a tl => escape_char a ++ escape_all tl
  end.

Definition passes (t : string) : string :=
  replace_char "'" "&#039;"
    (replace_char SyncManager.dquote "&quot;"
       (replace_char ">" "&gt;"
          (replace_char "<" "&lt;"
             (replace_char "&" "&amp;" t)))).

Lemma append_cons (a : ascii) (s t : string) :
  (String a s ++ t)%string = String a (s ++ t)%string.
Proof. reflexivity. Qed.

Lemma append_assoc (s1 s2 s3 : string) : ((s1 ++ s2) ++ s3 = s1 ++ (s2 ++ s3))%string.
Proof. induction s1 as [|a s1 IH]; [reflexivity|]. rewrite !append_cons. now rewrite IH. Qed.

Lemma replace_char_app (c : ascii) (rep s1 s2 : string) :
  replace_char c rep (s1 ++ s2) = (replace_char c rep s1 ++ replace_char c rep s2)%string.
Proof.
  induction s1 as [|a s1 IH]; [reflexivity|]. rewrite append_cons. cbn [replace_char].
  destruct (Ascii.eqb a c); rewrite IH; [now rewrite append_assoc | reflexivity].
Qed.

Lemma passes_app (s1 s2 : string) : passes (s1 ++ s2) = (passes s1 ++ passes s2)%string.
Proof. unfold passes. now rewrite !replace_char_app. Qed.

Lemma passes_char (a : ascii) : passes (String a EmptyString) = escape_char a.
Proof.
  unfold escape_char.
  destruct (Ascii.eqb_spec a "&") as [->|H1]; [reflexivity|].
  destruct (Ascii.eqb_spec a "<") as [->|H2]; [reflexivity|].
  destruct (Ascii.eqb_spec a ">") as [->|H3]; [reflexivity|].
  destruct (Ascii.eqb_spec a SyncManager.dquote) as [->|H4]; [reflexivity|].
  destruct (Ascii.eqb_spec a "'") as [->|H5]; [reflexivity|].
  unfold passes. cbn [replace_char].
  apply Ascii.eqb_neq in H1, H2, H3, H4, H5.
  rewrite H1. cbn [replace_char]. rewrite H2. cbn [replace_char]. rewrite H3.
  cbn [replace_char]. rewrite H4. cbn [replace_char]. now rewrite H5.
Qed.

(** The five replacements in a row are one pass over the characters. *)
Lemma passes_escape_all (t : string) : passes t = escape_all t.
Proof.
  induction t as [|a t IH]; [reflexivity|].
  change (String a t) with (String a EmptyString ++ t)%string.
  rewrite passes_app, passes_char, IH. reflexivity.
Qed.

Lemma escapeHtml_escape_all (t : string) : _escapeHtml (Some t) = escape_all t.
Proof.
  unfold _escapeHtml. destruct t as [|a t]; [reflexivity|]. cbn [Str.nonempty negb String.eqb].
  apply passes_escape_all.
Qed.

Lemma contains_app (c : ascii) (s1 s2 : string) :
  Str.contains c (s1 ++ s2) = Str.contains c s1 || Str.contains c s2.
Proof.
  induction s1 as [|a s1 IH]; [reflexivity|]. rewrite append_cons. cbn [Str.contains].
  rewrite IH. now rewrite orb_assoc.
Qed.

Definition markup (c : ascii) : Prop :=
  c = "<"%char \/ c = ">"%char \/ c = SyncManager.dquote \/ c = "'"%char.

Lemma escape_char_clean (a c : ascii) : markup c -> Str.contains c (escape_char a) = false.
Proof.
  intros Hc. unfold escape_char.
  destruct (Ascii.eqb_spec a "&") as [->|H1];
    [destruct Hc as [-> | [-> | [-> | ->]]]; reflexivity|].
  destruct (Ascii.eqb_spec a "<") as [->|H2];
    [destruct Hc as [-> | [-> | [-> | ->]]]; reflexivity|].
  destruct (Ascii.eqb_spec a ">") as [->|H3];
    [destruct Hc as [-> | [-> | [-> | ->]]]; reflexivity|].
  destruct (Ascii.eqb_spec a SyncManager.dquote) as [->|H4];
    [destruct Hc as [-> | [-> | [-> | ->]]]; reflexivity|].
  destruct (Ascii.eqb_spec a "'") as [->|H5];
    [destruct Hc as [-> | [-> | [-> | ->]]]; reflexivity|].
  cbn [Str.contains]. rewrite orb_false_r. apply Ascii.eqb_neq.
  destruct Hc as [-> | [-> | [-> | ->]]]; assumption.
Qed.

Lemma escape_all_inj (s1 : string) :
  forall s2, escape_all s1 = escape_all s2 -> s1 = s2.
Proof.
  assert (Hhead : forall a r, exists x r', (escape_char a ++ r)%string = String x r'
            /\ (x = "&"%char \/ (x = a /\ escape_char a = String a EmptyString))).
  { intros a r. unfold escape_char.
    repeat (match goal with |- context [if Ascii.eqb a ?c then _ else _] =>
              destruct (Ascii.eqb a c) end); cbn; eauto 6. }
  assert (Hstep : forall a b r1 r2,
            (escape_char a ++ r1 = escape_char b ++ r2)%string -> a = b /\ r1 = r2).
  { intros a b r1 r2. unfold escape_char.
    destruct (Ascii.eqb_spec a "&") as [->|A1]; [|
    destruct (Ascii.eqb_spec a "<") as [->|A2]; [|
    destruct (Ascii.eqb_spec a ">") as [->|A3]; [|
    destruct (Ascii.eqb_spec a SyncManager.dquote) as [->|A4]; [|
    destruct (Ascii.eqb_spec a "'") as [->|A5]]]]];
    (destruct (Ascii.eqb_spec b "&") as [->|B1]; [|
     destruct (Ascii.eqb_spec b "<") as [->|B2]; [|
     destruct (Ascii.eqb_spec b ">") as [->|B3]; [|
     destruct (Ascii.eqb_spec b SyncManager.dquote) as [->|B4]; [|
     destruct (Ascii.eqb_spec b "'") as [->|B5]]]]]);
    cbn; intros H; try discriminate H;
      try (injection H as H; split; [reflexivity | exact H]);
      try (injection H as E H; congruence).
    injection H as E H. split; assumption. }
  induction s1 as [|a s1 IH]; intros [|b s2] H.
  - reflexivity.
  - cbn in H. destruct (Hhead b (escape_all s2)) as (x & r' & E & _). rewrite E in H.
    discriminate.
  - cbn in H. destruct (Hhead a (escape_all s1)) as (x & r' & E & _). rewrite E in H.
    discriminate.
  - cbn in H. apply Hstep in H as [-> H]. now rewrite (IH s2 H).
Qed.

(** X21.  [_escapeHtml] leaves no markup character in its result: no
    [<], [>], double quote or single quote, whatever the text.  It loses
    nothing: two different texts are escaped to different results; and a
    missing or empty text gives the empty text. *)
Theorem escapeHtml_safe (t : string) :
  (forall c, markup c -> Str.contains c (_escapeHtml (Some t)) = false)
  /\ (forall t', _escapeHtml (Some t) = _escapeHtml (Some t') -> t = t')
  /\ _escapeHtml None = "" /\ _escapeHtml (Some "") = "".
Proof.
  split; [|split; [|split; reflexivity]].
  - intros c Hc. rewrite escapeHtml_escape_all.
    induction t as [|a t IH]; [reflexivity|]. cbn [escape_all].
    now rewrite contains_app, escape_char_clean, IH.
  - intros t'. rewrite !escapeHtml_escape_all. apply escape_all_inj.
Qed.

End EscapeFacts.

(** ** Names on the tablet *)

Module NameFacts.
Import Zotero SyncManager.

Definition chars (s : string) : list ascii := list_ascii_of_string s.





Lemma In_remove_chars (bad s : string) (c : ascii) :
  In c (chars (remove_chars bad s)) <-> Str.contains c bad = false /\ In c (chars s).
Proof.
  unfold remove_chars, chars. rewrite list_ascii_of_string_of_list_ascii, filter_In.
  rewrite negb_true_iff. tauto.
Qed.








(** *** The extension of a name with a known last dot *)











(** *** ASCII texts

    On texts of ASCII characters a character of the model is a UTF-16 unit
    of the code, the white space of [\s] is that of [is_space], and
    [toLowerCase] is [Str.toLowerCase]. *)
















(** *** Subfolders *)

Lemma prefix_percent (x : ascii) (s : string) :
  Str.contains "%" s = false ->
  String.prefix (String "%" (String x "")) s = false.
Proof.
  destruct s as [|c s]; [reflexivity|]. cbn [String.prefix Str.contains]. intros H.
  apply orb_false_iff in H as [H _].
  destruct (ascii_dec "%" c) as [<-|]; [discriminate|reflexivity].
Qed.

Lemma replace_all_from_plain (x : ascii) (rep whole : string) (s : string) :
  forall pos, Str.contains "%" s = false ->
  replace_all_from (String "%" (String x "")) rep whole pos 0 s = s.
Proof.
  induction s as [|c s IH]; intros pos H; [reflexivity|].
  cbn [replace_all_from]. rewrite (prefix_percent x (String c s) H).
  cbn in H. apply orb_false_iff in H as [_ H]. now rewrite IH.
Qed.

(** X23.  [_formatSubfolder] gives the empty text for an empty format.
    Its result never holds one of [? * : | < >] or a double quote,
    whatever the item's fields hold; separators and white space are kept.
    A format without percent sign is returned as it is, less those
    characters. *)
Theorem formatSubfolder_clean (item : Item) (format : string) :
  (forall c, In c (chars (_formatSubfolder item format)) ->
     Str.contains c (String dquote "?*:|<>") = false)
  /\ _formatSubfolder item "" = ""
  /\ (Str.contains "%" format = false ->
      _formatSubfolder item format = remove_chars (String dquote "?*:|<>") format)
  /\ (forall c, In c (chars format) -> Str.contains "%" format = false ->
      Str.contains c (String dquote "?*:|<>") = false ->
      In c (chars (_formatSubfolder item format))).
Proof.
  assert (Hplain : Str.contains "%" format = false ->
            _formatSubfolder item format = remove_chars (String dquote "?*:|<>") format).
  { intros H. unfold _formatSubfolder. destruct format as [|a f]; [reflexivity|].
    cbn [Str.nonempty String.eqb negb]. unfold replace_all.
    rewrite (replace_all_from_plain "a") by exact H.
    rewrite (replace_all_from_plain "y") by exact H.
    now rewrite (replace_all_from_plain "j") by exact H. }
  split; [|split; [reflexivity|split; [exact Hplain|]]].
  - intros c. unfold _formatSubfolder. destruct (negb (Str.nonempty format)); [intros []|].
    intros H. now apply In_remove_chars in H as [H _].
  - intros c Hc Hp Hok. rewrite (Hplain Hp). apply In_remove_chars. now split.
Qed.

End NameFacts.

(** ** The menu commands *)

Module CommandFacts.
Import Zotero SyncManager UI.

Lemma filter_idem {A : Type} (f : A -> bool) (l : list A) :
  List.filter f (List.filter f l) = List.filter f l.
Proof.
  induction l as [|a l IH]; [reflexivity|]. cbn [List.filter].
  destruct (f a) eqn:E; [|exact IH]. cbn [List.filter]. now rewrite E, IH.
Qed.

Lemma validateForGet_from_spec (w : World) (l : list nat) :
  forall acc,
    valid (validateForGet_from w l acc) = valid acc ++ List.filter (isOnTablet w) l
    /\ invalid (validateForGet_from w l acc)
       = invalid acc
         ++ List.map (fun a => mkInvalid a "Not on tablet")
              (List.filter (fun a => negb (isOnTablet w a)) l).
Proof.
  induction l as [|a l IH]; intros acc.
  - cbn. now rewrite !app_nil_r.
  - cbn [validateForGet_from List.filter]. destruct (isOnTablet w a); cbn [negb].
    + destruct (IH (mkValidated (valid acc ++ [a]) (invalid acc))) as [-> ->].
      cbn [valid invalid]. now rewrite <- app_assoc.
    + destruct (IH (mkValidated (valid acc) (invalid acc ++ [mkInvalid a "Not on tablet"])))
        as [-> ->].
      cbn [valid invalid List.map]. now rewrite <- app_assoc.
Qed.

Lemma getFromTablet_filter (h : Host) (l : list nat) (flag : bool) (w : World) :
  getFromTablet h (List.filter (isOnTablet w) l) flag w = getFromTablet h l flag w.
Proof. unfold getFromTablet. cbv zeta. now rewrite filter_idem. Qed.

Lemma checkModifications_filter (h : Host) (l : list nat) (w : World) :
  checkModifications h (List.filter (isOnTablet w) l) w = checkModifications h l w.
Proof. unfold checkModifications, check_results. now rewrite filter_idem. Qed.

(** X24.  The two menu commands and the passes they start.
    [validateForGet] splits the selection, in order, into the tracked
    attachments and the others.  With nothing tracked in the selection both
    commands show a message and change nothing; a refused batch
    confirmation changes nothing.  Otherwise get-from-tablet does what
    [getFromTablet] does on the whole selection with annotation extraction
    asked for, and check-modifications what [checkModifications] does on
    it. *)
Theorem menu_commands_run_the_passes (h : Host) (b : BatchPrefs) (confirmed : bool)
    (selected : list nat) (w : World) :
  let tracked := List.filter (isOnTablet w) selected in
  valid (validateForGet w selected) = tracked
  /\ List.map inv_item (invalid (validateForGet w selected))
     = List.filter (fun a => negb (isOnTablet w a)) selected
  /\ (tracked = [] ->
      _onGetFromTablet h b confirmed selected w
      = Some (ShowInfo (match selected with
                        | [] => "No attachments selected"
                        | _ => "Not on tablet"
                        end), w)
      /\ _onCheckModifications h selected w
         = Some (inl "No tablet attachments selected", w))
  /\ (tracked <> [] ->
      needsBatchConfirmation b (Z.of_nat (List.length tracked)) = true ->
      confirmed = false ->
      _onGetFromTablet h b confirmed selected w = Some (Declined, w))
  /\ (tracked <> [] ->
      needsBatchConfirmation b (Z.of_nat (List.length tracked)) = false
      \/ confirmed = true ->
      _onGetFromTablet h b confirmed selected w
      = match getFromTablet h selected true w with
        | Some (r, w') => Some (Ran r, w')
        | None => None
        end)
  /\ (tracked <> [] ->
      _onCheckModifications h selected w
      = match checkModifications h selected w with
        | Some (n, w') => Some (inr n, w')
        | None => None
        end).
Proof.
  intros tracked.
  destruct (validateForGet_from_spec w selected (mkValidated [] [])) as [Hv Hi].
  cbn [valid invalid app] in Hv, Hi. fold (validateForGet w selected) in Hv, Hi.
  fold tracked in Hv.
  split; [exact Hv|]. split.
  { rewrite Hi, List.map_map. cbn [inv_item]. apply List.map_id. }
  unfold _onGetFromTablet, _onCheckModifications. cbv zeta. rewrite Hv. fold tracked.
  split; [|split; [|split]].
  - intros E. rewrite E. split; [|reflexivity]. rewrite Hi.
    destruct selected as [|a l]; [reflexivity|].
    unfold tracked in E. cbn [List.filter] in *.
    destruct (isOnTablet w a); [discriminate|]. reflexivity.
  - intros Hne Hb ->. rewrite Hb. destruct tracked; [congruence | reflexivity].
  - intros Hne Hc.
    assert (Hgo : needsBatchConfirmation b (Z.of_nat (List.length tracked)) && negb confirmed
                  = false).
    { destruct Hc as [-> | ->]; [reflexivity | apply andb_false_r]. }
    rewrite Hgo. unfold tracked at 2. rewrite getFromTablet_filter.
    destruct tracked; [congruence | reflexivity].
  - intros Hne. unfold tracked at 2. rewrite checkModifications_filter.
    destruct tracked; [congruence | reflexivity].
Qed.

End CommandFacts.

(** ** The status column *)

Module StatusFacts.
Import Zotero SyncManager Status.
Import CheckFacts CheckMoreFacts.

(** X25.  After check-modifications the status column agrees with the
    check.  When the two marker preferences are set to different non-empty
    strings and the listed attachments belong to regular items, the pass
    returns, and the status of every listed attachment that was tracked is
    [Modified] when [isModified] found its tablet copy newer than recorded
    and [On Tablet] otherwise, whatever the reading-list tag is. *)
Theorem status_follows_check (h : Host) (reading : option string) (w : World)
    (atts : list nat) (on md : string) :
  library_ok w atts ->
  tagOnTablet (prefs w) = Some on -> tagModified (prefs w) = Some md ->
  on <> "" -> md <> "" -> on <> md ->
  exists n w1,
    checkModifications h atts w = Some (n, w1)
    /\ forall a, In a atts -> isOnTablet w a = true ->
         exists b, isModified h a w = (Ok b, w)
                   /\ getItemStatus reading w1 (Some a)
                      = if b then "Modified" else "On Tablet".
Proof.
  intros Hlib Hon Hmd Hon0 Hmd0 Hne.
  assert (Hg : getTags w = mkTags on md).
  { unfold getTags. rewrite Hon, Hmd. unfold JS.or_str.
    destruct (String.eqb_spec on ""); [congruence|].
    destruct (String.eqb_spec md ""); [congruence|]. reflexivity. }
  destruct (check_marks h w atts Hlib) as (n & w1 & Hrun & _ & Hp & _ & Hmark).
  { rewrite Hg. exact Hne. }
  exists n, w1. split; [exact Hrun|]. intros a Ha Htr.
  destruct (Hmark a Ha Htr) as (Htr1 & b & Hb & Htag). exists b. split; [exact Hb|].
  destruct (checkModifications_settles h w atts Hlib) as (n' & w1' & Hrun' & Hot & _).
  rewrite Hrun in Hrun'. injection Hrun' as _ <-.
  pose proof (getTags_only_tags w w1 Hot) as Hg1.
  destruct Hot as (_ & _ & Hi).
  assert (Hatt : isAttachment (item_of w1 a) = true).
  { pose proof (f_equal isAttachment (Hi a)) as E. cbn in E. rewrite E.
    apply (Hlib a Ha). }
  unfold getItemStatus. rewrite Hatt, Hp, Hon, Hmd. cbn [negb hasTag_pref].
  rewrite Hg in Htag. cbn [modified] in Htag. rewrite Htag.
  destruct b; [reflexivity|].
  unfold isOnTablet in Htr1. rewrite Hg1, Hg in Htr1. cbn [onTablet modified] in Htr1. rewrite Htag, orb_false_r in Htr1.
  now rewrite Htr1.
Qed.

(** The library of [world_edited] with both marker preferences set. *)
Definition world_marked : World :=
  mkWorld (fs world_edited) (items world_edited)
    (mkPrefs (Some "/tablet") None false false None
             (Some "_tablet") (Some "_tablet_modified") true)
    300 [].

Lemma world_marked_ok : library_ok world_marked [1].
Proof.
  intros a [<- | []]. split; [reflexivity|].
  intros p Hp. vm_compute in Hp. injection Hp as <-. reflexivity.
Qed.

Lemma status_follows_check_witness :
  exists w1,
    option_map snd (checkModifications PathFacts.unix_host [1] world_marked) = Some w1
    /\ getItemStatus None world_marked (Some 1) = "On Tablet"
    /\ getItemStatus None w1 (Some 1) = "Modified".
Proof.
  destruct (status_follows_check PathFacts.unix_host None world_marked [1]
              "_tablet" "_tablet_modified" world_marked_ok eq_refl eq_refl)
    as (n & w1 & Hrun & Hst); [discriminate | discriminate | discriminate |].
  exists w1. rewrite Hrun. split; [reflexivity|]. split; [vm_compute; reflexivity|].
  destruct (Hst 1) as (b & Hb & Hs); [now left | vm_compute; reflexivity |].
  rewrite Hs. vm_compute in Hb. now injection Hb as <-.
Defined.

End StatusFacts.

(** ** The reading list *)

Module ReadingListFacts.
Import Zotero SyncManager ReadingList.
Import TagFacts CheckFacts.

(** [w'] has the items of [w], each an attachment or not and with the
    parent it has in [w]. *)
Definition same_shape (w w' : World) : Prop :=
  (forall i, is_Some (items w' !! i) <-> is_Some (items w !! i))
  /\ forall i, isAttachment (item_of w' i) = isAttachment (item_of w i)
               /\ parentItemID (item_of w' i) = parentItemID (item_of w i).

Lemma same_shape_refl (w : World) : same_shape w w.
Proof. split; [tauto | auto]. Qed.

Lemma same_shape_trans (w1 w2 w3 : World) :
  same_shape w1 w2 -> same_shape w2 w3 -> same_shape w1 w3.
Proof.
  intros [K1 I1] [K2 I2]. split.
  - intros i. now rewrite K2, K1.
  - intros i. destruct (I1 i), (I2 i). split; congruence.
Qed.

Lemma same_shape_update (id : nat) (t : gset string -> gset string) (w : World) :
  is_Some (items w !! id) ->
  same_shape w (update_item id (fun i => with_tags (t (tags i)) i) w).
Proof.
  intros Hex. split.
  - intros i. unfold update_item, set_items. cbn [items].
    rewrite lookup_insert_is_Some. destruct (decide (id = i)) as [<-|]; [tauto|]. tauto.
  - intros i. rewrite item_of_update. destruct (decide (id = i)) as [<-|]; auto.
Qed.

Lemma targetItem_same (w w' : World) (i : nat) :
  same_shape w w' -> targetItem w' i = targetItem w i.
Proof.
  intros [K I]. unfold targetItem, is_child, Items_get. destruct (I i) as [-> ->].
  destruct (isAttachment (item_of w i) && _); [|reflexivity].
  destruct (parentItemID (item_of w i)) as [p|]; [|reflexivity].
  now rewrite (bool_decide_ext _ _ (K p)).
Qed.

Lemma target_exists (w : World) (i t : nat) :
  is_Some (items w !! i) -> targetItem w i = Some t -> is_Some (items w !! t).
Proof.
  intros Hi. unfold targetItem, Items_get.
  destruct (isAttachment (item_of w i) && _).
  - destruct (parentItemID (item_of w i)) as [p|]; [|discriminate].
    destruct (bool_decide (is_Some (items w !! p))) eqn:E; [|discriminate].
    intros [= <-]. now apply bool_decide_eq_true in E.
  - now intros [= <-].
Qed.

Lemma isInReadingList_target (reading : option string) (w : World) (i : nat) :
  isInReadingList reading w i
  = match targetItem w i with
    | Some t => hasTag w t (getTag reading)
    | None => false
    end.
Proof.
  unfold isInReadingList, targetItem.
  destruct (isAttachment (item_of w i) && is_child (item_of w i)); reflexivity.
Qed.

(** Whether [c] is the item the list entry [i] stands for, for some entry
    of [l]. *)
Definition is_target (w : World) (l : list nat) (c : nat) : bool :=
  existsb (fun i => bool_decide (targetItem w i = Some c)) l.

Lemma add_fold (tag : string) (w0 : World) (l : list nat) :
  forall (acc : list nat) (w : World),
    same_shape w0 w -> only_tags w0 w ->
    (forall i, In i l -> is_Some (items w0 !! i)) ->
    let r := fold_left (add_one tag) l (acc, w) in
    same_shape w0 (snd r) /\ only_tags w0 (snd r)
    /\ forall c t, hasTag (snd r) c t
                   = hasTag w c t || (bool_decide (t = tag) && is_target w0 l c).
Proof.
  induction l as [|i l IH]; intros acc w Hs Hot Hex; cbv zeta.
  - cbn. split; [exact Hs|]. split; [exact Hot|]. intros c t.
    now rewrite andb_false_r, orb_false_r.
  - cbn [fold_left].
    assert (Hstep : add_one tag (acc, w) i
                    = match targetItem w0 i with
                      | Some target =>
                          if negb (hasTag w target tag)
                          then (acc ++ [target], addTag target tag w)
                          else (acc, w)
                      | None => (acc, w)
                      end).
    { unfold add_one. now rewrite (targetItem_same w0 w i Hs). }
    rewrite Hstep. clear Hstep.
    assert (Hrest : forall j, In j l -> is_Some (items w0 !! j)) by (intros; apply Hex; now right).
    destruct (targetItem w0 i) as [tg|] eqn:Et.
    + destruct (hasTag w tg tag) eqn:Eh; cbn [negb].
      * destruct (IH acc w Hs Hot Hrest) as (S1 & O1 & T1). split; [exact S1|].
        split; [exact O1|]. intros c t. rewrite T1. cbn [is_target existsb]. rewrite Et.
        fold (is_target w0 l c).
        destruct (bool_decide_reflect (Some tg = Some c)) as [[= <-]|Hn]; [|reflexivity].
        destruct (bool_decide_reflect (t = tag)) as [->|]; [|reflexivity].
        rewrite Eh. reflexivity.
      * assert (Htg : is_Some (items w !! tg)).
        { apply (proj1 Hs). eapply target_exists; [|exact Et]. apply Hex. now left. }
        assert (S' : same_shape w0 (addTag tg tag w)).
        { eapply same_shape_trans; [exact Hs|].
          apply (same_shape_update tg (fun T => {[tag]} ∪ T) w Htg). }
        assert (O' : only_tags w0 (addTag tg tag w)).
        { eapply only_tags_trans; [exact Hot|].
          apply (only_tags_update tg (fun T => {[tag]} ∪ T)). }
        destruct (IH (acc ++ [tg]) _ S' O' Hrest) as (S1 & O1 & T1). split; [exact S1|].
        split; [exact O1|]. intros c t. rewrite T1, hasTag_addTag.
        cbn [is_target existsb]. rewrite Et. fold (is_target w0 l c).
        destruct (decide (tg = c)) as [<-|Hn].
        -- rewrite (bool_decide_eq_true_2 (Some tg = Some tg)) by reflexivity.
           destruct (bool_decide (t = tag)), (hasTag w tg t); reflexivity.
        -- rewrite (bool_decide_eq_false_2 (Some tg = Some c)) by congruence. reflexivity.
    + destruct (IH acc w Hs Hot Hrest) as (S1 & O1 & T1). split; [exact S1|].
      split; [exact O1|]. intros c t. rewrite T1. cbn [is_target existsb]. rewrite Et.
      rewrite (bool_decide_eq_false_2 (None = Some c)) by discriminate. reflexivity.
Qed.

Lemma remove_fold (tag : string) (w0 : World) (l : list nat) :
  forall (acc : list nat) (w : World),
    same_shape w0 w -> only_tags w0 w ->
    (forall i, In i l -> is_Some (items w0 !! i)) ->
    let r := fold_left (remove_one tag) l (acc, w) in
    same_shape w0 (snd r) /\ only_tags w0 (snd r)
    /\ forall c t, hasTag (snd r) c t
                   = hasTag w c t && negb (bool_decide (t = tag) && is_target w0 l c).
Proof.
  induction l as [|i l IH]; intros acc w Hs Hot Hex; cbv zeta.
  - cbn. split; [exact Hs|]. split; [exact Hot|]. intros c t.
    now rewrite andb_false_r, andb_true_r.
  - cbn [fold_left].
    assert (Hstep : remove_one tag (acc, w) i
                    = match targetItem w0 i with
                      | Some target =>
                          if hasTag w target tag
                          then (acc ++ [target], removeTag target tag w)
                          else (acc, w)
                      | None => (acc, w)
                      end).
    { unfold remove_one. now rewrite (targetItem_same w0 w i Hs). }
    rewrite Hstep. clear Hstep.
    assert (Hrest : forall j, In j l -> is_Some (items w0 !! j)) by (intros; apply Hex; now right).
    destruct (targetItem w0 i) as [tg|] eqn:Et.
    + destruct (hasTag w tg tag) eqn:Eh.
      * assert (Htg : is_Some (items w !! tg)).
        { apply (proj1 Hs). eapply target_exists; [|exact Et]. apply Hex. now left. }
        assert (S' : same_shape w0 (removeTag tg tag w)).
        { eapply same_shape_trans; [exact Hs|].
          apply (same_shape_update tg (fun T => T ∖ {[tag]}) w Htg). }
        assert (O' : only_tags w0 (removeTag tg tag w)).
        { eapply only_tags_trans; [exact Hot|].
          apply (only_tags_update tg (fun T => T ∖ {[tag]})). }
        destruct (IH (acc ++ [tg]) _ S' O' Hrest) as (S1 & O1 & T1). split; [exact S1|].
        split; [exact O1|]. intros c t. rewrite T1, hasTag_removeTag.
        cbn [is_target existsb]. rewrite Et. fold (is_target w0 l c).
        destruct (decide (tg = c)) as [<-|Hn].
        -- rewrite (bool_decide_eq_true_2 (Some tg = Some tg)) by reflexivity.
           destruct (bool_decide (t = tag)), (hasTag w tg t), (is_target w0 l tg); reflexivity.
        -- rewrite (bool_decide_eq_false_2 (Some tg = Some c)) by congruence. reflexivity.
      * destruct (IH acc w Hs Hot Hrest) as (S1 & O1 & T1). split; [exact S1|].
        split; [exact O1|]. intros c t. rewrite T1. cbn [is_target existsb]. rewrite Et.
        fold (is_target w0 l c).
        destruct (bool_decide_reflect (Some tg = Some c)) as [[= <-]|Hn]; [|reflexivity].
        destruct (bool_decide_reflect (t = tag)) as [->|]; [|reflexivity].
        rewrite Eh. reflexivity.
    + destruct (IH acc w Hs Hot Hrest) as (S1 & O1 & T1). split; [exact S1|].
      split; [exact O1|]. intros c t. rewrite T1. cbn [is_target existsb]. rewrite Et.
      rewrite (bool_decide_eq_false_2 (None = Some c)) by discriminate. reflexivity.
Qed.

Lemma add_noop (tag : string) (l : list nat) (acc : list nat) (w : World) :
  (forall i t, In i l -> targetItem w i = Some t -> hasTag w t tag = true) ->
  fold_left (add_one tag) l (acc, w) = (acc, w).
Proof.
  induction l as [|i l IH]; intros H; [reflexivity|].
  cbn [fold_left]. unfold add_one at 2.
  destruct (targetItem w i) as [t|] eqn:Et.
  - rewrite (H i t (or_introl eq_refl) Et). cbn [negb]. apply IH.
    intros j t' Hj. apply H. now right.
  - apply IH. intros j t' Hj. apply H. now right.
Qed.

Lemma remove_noop (tag : string) (l : list nat) (acc : list nat) (w : World) :
  (forall i t, In i l -> targetItem w i = Some t -> hasTag w t tag = false) ->
  fold_left (remove_one tag) l (acc, w) = (acc, w).
Proof.
  induction l as [|i l IH]; intros H; [reflexivity|].
  cbn [fold_left]. unfold remove_one at 2.
  destruct (targetItem w i) as [t|] eqn:Et.
  - rewrite (H i t (or_introl eq_refl) Et). apply IH.
    intros j t' Hj. apply H. now right.
  - apply IH. intros j t' Hj. apply H. now right.
Qed.

Lemma is_target_In (w : World) (l : list nat) (i t : nat) :
  In i l -> targetItem w i = Some t -> is_target w l t = true.
Proof.
  intros Hi Ht. apply existsb_exists. exists i. split; [exact Hi|].
  now apply bool_decide_eq_true.
Qed.

Lemma add_spec (reading : option string) (l : list nat) (w : World) :
  (forall i, In i l -> is_Some (items w !! i)) ->
  let w' := snd (addToReadingList reading l w) in
  same_shape w w' /\ only_tags w w'
  /\ forall c t, hasTag w' c t
                 = hasTag w c t || (bool_decide (t = getTag reading) && is_target w l c).
Proof.
  intros Hex. apply (add_fold (getTag reading) w l [] w);
    auto using same_shape_refl, only_tags_refl.
Qed.

Lemma remove_spec (reading : option string) (l : list nat) (w : World) :
  (forall i, In i l -> is_Some (items w !! i)) ->
  let w' := snd (removeFromReadingList reading l w) in
  same_shape w w' /\ only_tags w w'
  /\ forall c t, hasTag w' c t
                 = hasTag w c t && negb (bool_decide (t = getTag reading) && is_target w l c).
Proof.
  intros Hex. apply (remove_fold (getTag reading) w l [] w);
    auto using same_shape_refl, only_tags_refl.
Qed.

(** X26.  [addToReadingList] on items of the library: afterwards an item
    carries a tag exactly when it carried it before, or the tag is the
    reading-list tag and the item is what a listed entry stands for (the
    parent of a child attachment, else the entry itself).  So every listed
    entry with such an item is in the reading list; nothing but tags is
    changed; and a second run on the result saves nothing and changes
    nothing. *)
Theorem addToReadingList_adds (reading : option string) (l : list nat) (w : World) :
  (forall i, In i l -> is_Some (items w !! i)) ->
  let w' := snd (addToReadingList reading l w) in
  (forall c t, hasTag w' c t
               = hasTag w c t || (bool_decide (t = getTag reading) && is_target w l c))
  /\ (forall i, In i l -> targetItem w i <> None -> isInReadingList reading w' i = true)
  /\ only_tags w w'
  /\ addToReadingList reading l w' = ([], w').
Proof.
  intros Hex w'. destruct (add_spec reading l w Hex) as (Hs & Hot & Ht). fold w' in Hs, Hot, Ht.
  assert (Hin : forall i t, In i l -> targetItem w' i = Some t ->
                  hasTag w' t (getTag reading) = true).
  { intros i t Hi Et. rewrite (targetItem_same w w' i Hs) in Et.
    rewrite Ht, (is_target_In w l i t Hi Et), bool_decide_eq_true_2 by reflexivity.
    apply orb_true_r. }
  split; [exact Ht|]. split; [|split; [exact Hot|]].
  - intros i Hi Hne. rewrite isInReadingList_target.
    destruct (targetItem w' i) as [t|] eqn:Et; [now apply (Hin i t)|].
    rewrite (targetItem_same w w' i Hs) in Et. congruence.
  - unfold addToReadingList. now apply add_noop.
Qed.

(** The library of the examples: attachment 1 of item 10. *)
Lemma world_edited_items (i : nat) : In i [1; 10] -> is_Some (items world_edited !! i).
Proof. intros [<-|[<-|[]]]; vm_compute; eauto. Qed.

Lemma addToReadingList_adds_witness :
  isInReadingList None (snd (addToReadingList None [1; 10] world_edited)) 1 = true
  /\ fst (addToReadingList None [1; 10] world_edited) = [10].
Proof.
  split; [|vm_compute; reflexivity].
  apply (proj1 (proj2 (addToReadingList_adds None [1; 10] world_edited world_edited_items)));
    [now left | vm_compute; discriminate].
Defined.

(** X27.  [removeFromReadingList] on items of the library: afterwards an
    item carries a tag exactly when it carried it before and it is not the
    reading-list tag on what a listed entry stands for.  So no listed entry
    is in the reading list any more, no other tag is touched, nothing but
    tags is changed, and a second run saves nothing and changes nothing. *)
Theorem removeFromReadingList_removes (reading : option string) (l : list nat) (w : World) :
  (forall i, In i l -> is_Some (items w !! i)) ->
  let w' := snd (removeFromReadingList reading l w) in
  (forall c t, hasTag w' c t
               = hasTag w c t
                 && negb (bool_decide (t = getTag reading) && is_target w l c))
  /\ (forall i, In i l -> isInReadingList reading w' i = false)
  /\ only_tags w w'
  /\ removeFromReadingList reading l w' = ([], w').
Proof.
  intros Hex w'. destruct (remove_spec reading l w Hex) as (Hs & Hot & Ht).
  fold w' in Hs, Hot, Ht.
  assert (Hin : forall i t, In i l -> targetItem w' i = Some t ->
                  hasTag w' t (getTag reading) = false).
  { intros i t Hi Et. rewrite (targetItem_same w w' i Hs) in Et.
    rewrite Ht, (is_target_In w l i t Hi Et), bool_decide_eq_true_2 by reflexivity.
    apply andb_false_r. }
  split; [exact Ht|]. split; [|split; [exact Hot|]].
  - intros i Hi. rewrite isInReadingList_target.
    destruct (targetItem w' i) as [t|] eqn:Et; [now apply (Hin i t)|reflexivity].
  - unfold removeFromReadingList. now apply remove_noop.
Qed.

Lemma removeFromReadingList_removes_witness :
  isInReadingList None
    (snd (removeFromReadingList None [1]
            (snd (addToReadingList None [1; 10] world_edited)))) 1 = false.
Proof.
  apply (proj1 (proj2 (removeFromReadingList_removes None [1]
                         (snd (addToReadingList None [1; 10] world_edited))
                         ltac:(intros i [<-|[]]; vm_compute; eauto))));
    now left.
Defined.

(** X28.  [toggleReadingList] on an item of the library that stands for an
    item: it flips whether the entry is in the reading list, and toggling
    twice gives every item the tags it had. *)
Theorem toggleReadingList_flips (reading : option string) (i : nat) (w : World) :
  is_Some (items w !! i) -> targetItem w i <> None ->
  isInReadingList reading (toggleReadingList reading i w) i
  = negb (isInReadingList reading w i)
  /\ forall c t,
       hasTag (toggleReadingList reading i (toggleReadingList reading i w)) c t
       = hasTag w c t.
Proof.
  intros Hi Hne.
  assert (Hex : forall w1, same_shape w w1 -> forall j, In j [i] -> is_Some (items w1 !! j)).
  { intros w1 [K _] j [<-|[]]. now apply K. }
  destruct (targetItem w i) as [tg|] eqn:Et; [clear Hne | congruence].
  assert (Hflip : forall w1, same_shape w w1 ->
            same_shape w (toggleReadingList reading i w1)
            /\ (forall c t, hasTag (toggleReadingList reading i w1) c t
                  = if bool_decide (t = getTag reading) && bool_decide (tg = c)
                    then negb (hasTag w1 c t) else hasTag w1 c t)).
  { intros w1 Hs. unfold toggleReadingList. rewrite isInReadingList_target.
    rewrite (targetItem_same w w1 i Hs), Et.
    assert (Htgt : forall c, is_target w1 [i] c = bool_decide (tg = c)).
    { intros c. cbn [is_target existsb]. rewrite (targetItem_same w w1 i Hs), Et, orb_false_r.
      apply bool_decide_ext. split; congruence. }
    destruct (hasTag w1 tg (getTag reading)) eqn:Eh.
    - destruct (remove_spec reading [i] w1 (Hex w1 Hs)) as (S1 & _ & T1).
      split; [eapply same_shape_trans; eauto|].
      intros c t. rewrite T1, Htgt.
      destruct (bool_decide_reflect (t = getTag reading)) as [->|];
        [|now rewrite andb_true_r].
      destruct (bool_decide_reflect (tg = c)) as [<-|]; [|now rewrite andb_true_r].
      now rewrite Eh.
    - destruct (add_spec reading [i] w1 (Hex w1 Hs)) as (S1 & _ & T1).
      split; [eapply same_shape_trans; eauto|].
      intros c t. rewrite T1, Htgt.
      destruct (bool_decide_reflect (t = getTag reading)) as [->|];
        [|now rewrite orb_false_r].
      destruct (bool_decide_reflect (tg = c)) as [<-|]; [|now rewrite orb_false_r].
      now rewrite Eh. }
  destruct (Hflip w (same_shape_refl w)) as [S1 T1].
  destruct (Hflip _ S1) as [S2 T2]. split.
  - rewrite !isInReadingList_target, (targetItem_same w _ i S1), Et, T1.
    now rewrite !bool_decide_eq_true_2 by reflexivity.
  - intros c t. rewrite T2, T1.
    destruct (bool_decide (t = getTag reading) && bool_decide (tg = c));
      [apply negb_involutive | reflexivity].
Qed.

Lemma toggleReadingList_flips_witness :
  isInReadingList (Some "toread") (toggleReadingList (Some "toread") 1 world_edited) 1 = true.
Proof.
  refine (proj1 (toggleReadingList_flips (Some "toread") 1 world_edited _ _)).
  - vm_compute. eauto.
  - vm_compute. discriminate.
Defined.

End ReadingListFacts.
